(** * HelloWindow: the Vulkan resource-acquisition pipeline of [src/main.cpp]

    A shallow embedding of class [App]: the capability checks, the
    physical-device selection, the swapchain negotiation policies and the
    initialization / teardown sequence, together with the properties the
    design document states about them.

    The graphics driver and the windowing library are external.  They are
    modelled by a record of scripted answers ([Driver]); every call the
    program makes to them is appended to a call log, so that statements such
    as "the scan stops early" or "the resource is destroyed once" are
    statements about that log. *)

From Stdlib Require Import ZArith Lia.
From stdpp Require Import base option list strings gmap sorting.

Local Open Scope Z_scope.

(** ** Machine integers and handles *)

(** [uint32_t]: a [Z] in [0, 2^32); arithmetic wraps around. *)
Definition UINT32_MAX : Z := 4294967295.
Definition INT_MAX : Z := 2147483647.

(** [static_cast<uint32_t>(x)] and the result of every [uint32_t] operation. *)
Definition to_uint32 (x : Z) : Z := x mod 2 ^ 32.

(** Vulkan and GLFW handles are opaque pointers; the null handle is 0. *)
Definition Handle := Z.
Definition VK_NULL_HANDLE : Handle := 0.

Definition VkResult := Z.
Definition VK_SUCCESS : VkResult := 0.
Definition VK_ERROR_EXTENSION_NOT_PRESENT : VkResult := -7.

(** Values of the constants of <vulkan/vulkan_core.h> that [main.cpp] names. *)
Definition VK_QUEUE_GRAPHICS_BIT : Z := 1.
Definition VK_FORMAT_B8G8R8A8_SRGB : Z := 50.
Definition VK_COLOR_SPACE_SRGB_NONLINEAR_KHR : Z := 0.
Definition VK_PRESENT_MODE_MAILBOX_KHR : Z := 1.
Definition VK_PRESENT_MODE_FIFO_KHR : Z := 2.
Definition VK_KHR_SWAPCHAIN_EXTENSION_NAME : string := "VK_KHR_swapchain".
Definition VK_EXT_DEBUG_UTILS_EXTENSION_NAME : string := "VK_EXT_debug_utils".
Definition VK_KHR_PORTABILITY_ENUMERATION_EXTENSION_NAME : string :=
  "VK_KHR_portability_enumeration".

(** Values of the constants of <GLFW/glfw3.h> that [main.cpp] names. *)
Definition GLFW_CLIENT_API : Z := 139265.
Definition GLFW_NO_API : Z := 0.
Definition GLFW_RESIZABLE : Z := 131075.
Definition GLFW_FALSE : Z := 0.

(** ** Constants of [main.cpp] *)

Definition WIDTH : Z := 800.
Definition HEIGHT : Z := 600.

Definition VK_LAYER_KHRONOS_validation : string := "VK_LAYER_KHRONOS_validation".
Definition VK_KHR_portability_subset : string := "VK_KHR_portability_subset".

Definition VALIDATION_LAYERS : list string := [VK_LAYER_KHRONOS_validation].
Definition DEVICE_EXTENSIONS : list string := [VK_KHR_SWAPCHAIN_EXTENSION_NAME].

(** ** Data model *)

Record QueueFamilyIndices := mkQueueFamilyIndices {
  graphicsFamily : option Z;
  presentFamily : option Z
}.

Definition isComplete (indices : QueueFamilyIndices) : bool :=
  bool_decide (is_Some (graphicsFamily indices))
  && bool_decide (is_Some (presentFamily indices)).

Record VkExtent2D := mkExtent { width : Z; height : Z }.

Record VkSurfaceCapabilitiesKHR := mkCapabilities {
  minImageCount : Z;
  maxImageCount : Z;
  currentExtent : VkExtent2D;
  minImageExtent : VkExtent2D;
  maxImageExtent : VkExtent2D;
  currentTransform : Z
}.

Record VkSurfaceFormatKHR := mkSurfaceFormat { format : Z; colorSpace : Z }.

Definition VkPresentModeKHR := Z.

Record SwapChainSupportDetails := mkSwapChainSupportDetails {
  capabilities : VkSurfaceCapabilitiesKHR;
  formats : list VkSurfaceFormatKHR;
  presentModes : list VkPresentModeKHR
}.

Record VkQueueFamilyProperties := mkQueueFamily { queueFlags : Z; queueCount : Z }.
Record VkExtensionProperties := mkExtension { extensionName : string; specVersion : Z }.
Record VkLayerProperties := mkLayer { layerName : string }.

(** ** Pure selection policies of the swapchain negotiator *)

(** The body of the [for] loop of [App::selectSwapSurfaceFormat]: [Some f]
    when the loop returns [f], [None] when it runs to the end. *)
Fixpoint selectSwapSurfaceFormat_loop (availableFormats : list VkSurfaceFormatKHR)
  : option VkSurfaceFormatKHR :=
  match availableFormats with
  | [] => None
  | availableFormat :: rest =>
      if (format availableFormat =? VK_FORMAT_B8G8R8A8_SRGB)
         && (colorSpace availableFormat =? VK_COLOR_SPACE_SRGB_NONLINEAR_KHR)
      then Some availableFormat
      else selectSwapSurfaceFormat_loop rest
  end.

(** [App::selectSwapSurfaceFormat].  The result [None] stands for the read of
    [availableFormats[0]] on an empty vector, which C++ leaves undefined. *)
Definition selectSwapSurfaceFormat (availableFormats : list VkSurfaceFormatKHR)
  : option VkSurfaceFormatKHR :=
  match selectSwapSurfaceFormat_loop availableFormats with
  | Some availableFormat => Some availableFormat
  | None => availableFormats !! 0%nat
  end.

(** [App::selectSwapPresentMode]. *)
Fixpoint selectSwapPresentMode (availablePresentModes : list VkPresentModeKHR)
  : VkPresentModeKHR :=
  match availablePresentModes with
  | [] => VK_PRESENT_MODE_FIFO_KHR
  | availablePresentMode :: rest =>
      if availablePresentMode =? VK_PRESENT_MODE_MAILBOX_KHR
      then availablePresentMode
      else selectSwapPresentMode rest
  end.

(** [std::clamp(v, lo, hi)] as the standard library computes it:
    [(v < lo) ? lo : (hi < v) ? hi : v].  The standard only defines it for
    [lo <= hi]. *)
Definition std_clamp (v lo hi : Z) : Z :=
  if v <? lo then lo else if hi <? v then hi else v.

(** The [else] branch of [App::selectSwapExtent], after [glfwGetWindowSize]
    has stored the window size into the two [int]s [_width] and [_height]. *)
Definition actualExtent (capabilities : VkSurfaceCapabilitiesKHR) (_width _height : Z)
  : VkExtent2D :=
  let width' := std_clamp (to_uint32 _width)
                  (width (minImageExtent capabilities))
                  (width (maxImageExtent capabilities)) in
  let height' := std_clamp (to_uint32 _height)
                   (height (minImageExtent capabilities))
                   (height (maxImageExtent capabilities)) in
  {| width := width'; height := height' |}.

(** The [imageCount] lambda of [App::createSwapChain]. *)
Definition imageCount (capabilities : VkSurfaceCapabilitiesKHR) : Z :=
  let imageCount := to_uint32 (minImageCount capabilities + 1) in
  if (maxImageCount capabilities >? 0) && (imageCount >? maxImageCount capabilities)
  then maxImageCount capabilities
  else imageCount.

(** ** Capability negotiation: "is the required set a subset of the available one" *)

(** The nested loops of [App::checkValidationLayerSupport], over the layer
    list the driver reported.  [strcmp(a, b) == 0] is exact string equality.
    The required names, [VALIDATION_LAYERS] in the program, are a parameter
    here, so that the check can be stated for any pair of lists. *)
Fixpoint layerFound (layerName' : string) (availableLayers : list VkLayerProperties) : bool :=
  match availableLayers with
  | [] => false
  | layerProperties :: rest =>
      if String.eqb layerName' (layerName layerProperties) then true
      else layerFound layerName' rest
  end.

Fixpoint checkValidationLayerSupport_loop
    (layers : list string) (availableLayers : list VkLayerProperties) : bool :=
  match layers with
  | [] => true
  | layerName' :: rest =>
      if negb (layerFound layerName' availableLayers) then false
      else checkValidationLayerSupport_loop rest availableLayers
  end.

(** The body of [App::checkDeviceExtensionSupport] after the enumeration: the
    required names ([DEVICE_EXTENSIONS] in the program, a parameter here) go
    into a [std::set<std::string>], every available name is erased from it,
    and the answer is whether the set ended up empty. *)
Definition eraseAvailable (required : list string)
    (availableExtensions : list VkExtensionProperties) : gset string :=
  let requiredExtensions : gset string := list_to_set required in
  foldl (λ requiredExtensions extension,
           requiredExtensions ∖ {[ extensionName extension ]})
        requiredExtensions availableExtensions.

Definition checkExtensionsErased (required : list string)
    (availableExtensions : list VkExtensionProperties) : bool :=
  bool_decide (eraseAvailable required availableExtensions = ∅).

(** ** The external world: driver script, call log, program state *)

Record VkSwapchainCreateInfoKHR := mkSwapchainCreateInfo {
  ci_surface : Handle;
  ci_minImageCount : Z;
  ci_imageFormat : Z;
  ci_imageColorSpace : Z;
  ci_imageExtent : VkExtent2D;
  ci_imageSharingConcurrent : bool;
  ci_queueFamilyIndices : list Z;
  ci_preTransform : Z;
  ci_presentMode : VkPresentModeKHR
}.

(** Every entry point of GLFW and Vulkan the program calls, with the handle
    arguments it passes, and for the creation calls the status and the handle
    the driver hands back. *)
Inductive ApiCall :=
  | GlfwInit (ok : bool)
  | GlfwTerminate
  | GlfwWindowHint (hint value : Z)
  | GlfwCreateWindow (w h : Z) (window : Handle)
  | GlfwDestroyWindow (window : Handle)
  | GlfwGetWindowSize (window : Handle)
  | GlfwWindowShouldClose (window : Handle) (answer : bool)
  | GlfwPollEvents
  | GlfwGetRequiredInstanceExtensions
  | GlfwCreateWindowSurface (instance window : Handle) (result : VkResult) (surface : Handle)
  | VkEnumerateInstanceLayerProperties
  | VkCreateInstance (extensions layers : list string) (result : VkResult) (instance : Handle)
  | VkDestroyInstance (instance : Handle)
  | VkGetInstanceProcAddr (instance : Handle) (name : string)
  | VkCreateDebugUtilsMessengerEXT (instance : Handle) (result : VkResult) (messenger : Handle)
  | VkDestroyDebugUtilsMessengerEXT (instance messenger : Handle)
  | VkDestroySurfaceKHR (instance surface : Handle)
  | VkEnumeratePhysicalDevices (instance : Handle)
  | VkGetPhysicalDeviceQueueFamilyProperties (device : Handle)
  | VkGetPhysicalDeviceSurfaceSupportKHR (device : Handle) (queueFamilyIndex : Z) (surface : Handle)
  | VkEnumerateDeviceExtensionProperties (device : Handle)
  | VkGetPhysicalDeviceSurfaceCapabilitiesKHR (device surface : Handle)
  | VkGetPhysicalDeviceSurfaceFormatsKHR (device surface : Handle)
  | VkGetPhysicalDeviceSurfacePresentModesKHR (device surface : Handle)
  | VkCreateDevice (physicalDevice : Handle) (queueFamilies : list Z)
                   (extensions layers : list string) (result : VkResult) (device : Handle)
  | VkDestroyDevice (device : Handle)
  | VkGetDeviceQueue (device : Handle) (queueFamilyIndex queueIndex : Z)
  | VkCreateSwapchainKHR (device : Handle) (createInfo : VkSwapchainCreateInfoKHR)
                         (result : VkResult) (swapChain : Handle)
  | VkDestroySwapchainKHR (device swapChain : Handle)
  | VkGetSwapchainImagesKHR (device swapChain : Handle)
  | VkCreateImageView (device image : Handle) (format : Z) (result : VkResult) (view : Handle)
  | VkDestroyImageView (device view : Handle).

(** The scripted answers of the windowing library and of the driver.  The
    queries are functions of the handles the program passes; each creation
    call happens at most once per run, except [vkCreateImageView], whose
    answer is indexed by its position in the sequence of such calls. *)
Record Driver := mkDriver {
  drv_glfwInit : bool;
  drv_glfwCreateWindow : Handle;
  drv_glfwGetWindowSize : Z * Z;
  drv_pollsBeforeClose : nat;
  drv_glfwRequiredInstanceExtensions : list string;
  drv_instanceLayers : list VkLayerProperties;
  drv_vkCreateInstance : VkResult * Handle;
  drv_vkGetInstanceProcAddr : string → bool;
  drv_vkCreateDebugUtilsMessengerEXT : VkResult * Handle;
  drv_glfwCreateWindowSurface : VkResult * Handle;
  drv_physicalDevices : list Handle;
  drv_queueFamilyProperties : Handle → list VkQueueFamilyProperties;
  drv_surfaceSupport : Handle → Z → Handle → bool;
  drv_deviceExtensions : Handle → list VkExtensionProperties;
  drv_surfaceCapabilities : Handle → Handle → VkSurfaceCapabilitiesKHR;
  drv_surfaceFormats : Handle → Handle → list VkSurfaceFormatKHR;
  drv_surfacePresentModes : Handle → Handle → list VkPresentModeKHR;
  drv_vkCreateDevice : VkResult * Handle;
  drv_vkGetDeviceQueue : Handle → Z → Z → Handle;
  drv_vkCreateSwapchainKHR : VkResult * Handle;
  drv_swapchainImages : list Handle;
  drv_vkCreateImageView : nat → VkResult * Handle
}.

(** The data members of [App]. *)
Record App := mkApp {
  m_window : Handle;
  m_instance : Handle;
  m_debugMessenger : Handle;
  m_surface : Handle;
  m_physicalDevice : Handle;
  m_device : Handle;
  m_graphicsQueue : Handle;
  m_presentQueue : Handle;
  m_swapChain : Handle;
  m_swapChainImages : list Handle;
  m_swapChainImageFormat : Z;
  m_swapChainExtent : VkExtent2D;
  m_swapChainImageViews : list Handle
}.

(** [auto app = App {}]: every member value-initialized. *)
Definition App_init : App :=
  mkApp 0 0 0 0 0 0 0 0 0 [] 0 (mkExtent 0 0) [].

Definition set_m_window (v : Handle) (a : App) : App :=
  mkApp v (m_instance a) (m_debugMessenger a) (m_surface a) (m_physicalDevice a)
    (m_device a) (m_graphicsQueue a) (m_presentQueue a) (m_swapChain a)
    (m_swapChainImages a) (m_swapChainImageFormat a) (m_swapChainExtent a)
    (m_swapChainImageViews a).
Definition set_m_instance (v : Handle) (a : App) : App :=
  mkApp (m_window a) v (m_debugMessenger a) (m_surface a) (m_physicalDevice a)
    (m_device a) (m_graphicsQueue a) (m_presentQueue a) (m_swapChain a)
    (m_swapChainImages a) (m_swapChainImageFormat a) (m_swapChainExtent a)
    (m_swapChainImageViews a).
Definition set_m_debugMessenger (v : Handle) (a : App) : App :=
  mkApp (m_window a) (m_instance a) v (m_surface a) (m_physicalDevice a)
    (m_device a) (m_graphicsQueue a) (m_presentQueue a) (m_swapChain a)
    (m_swapChainImages a) (m_swapChainImageFormat a) (m_swapChainExtent a)
    (m_swapChainImageViews a).
Definition set_m_surface (v : Handle) (a : App) : App :=
  mkApp (m_window a) (m_instance a) (m_debugMessenger a) v (m_physicalDevice a)
    (m_device a) (m_graphicsQueue a) (m_presentQueue a) (m_swapChain a)
    (m_swapChainImages a) (m_swapChainImageFormat a) (m_swapChainExtent a)
    (m_swapChainImageViews a).
Definition set_m_physicalDevice (v : Handle) (a : App) : App :=
  mkApp (m_window a) (m_instance a) (m_debugMessenger a) (m_surface a) v
    (m_device a) (m_graphicsQueue a) (m_presentQueue a) (m_swapChain a)
    (m_swapChainImages a) (m_swapChainImageFormat a) (m_swapChainExtent a)
    (m_swapChainImageViews a).
(** The three assignments that end [createLogicalDevice]. *)
Definition set_device_and_queues (device graphicsQueue presentQueue : Handle) (a : App) : App :=
  mkApp (m_window a) (m_instance a) (m_debugMessenger a) (m_surface a) (m_physicalDevice a)
    device graphicsQueue presentQueue (m_swapChain a)
    (m_swapChainImages a) (m_swapChainImageFormat a) (m_swapChainExtent a)
    (m_swapChainImageViews a).
(** The four assignments that end [createSwapChain]. *)
Definition set_swapChain (swapChain : Handle) (images : list Handle) (fmt : Z)
    (extent : VkExtent2D) (a : App) : App :=
  mkApp (m_window a) (m_instance a) (m_debugMessenger a) (m_surface a) (m_physicalDevice a)
    (m_device a) (m_graphicsQueue a) (m_presentQueue a) swapChain
    images fmt extent (m_swapChainImageViews a).
Definition set_m_swapChainImageViews (v : list Handle) (a : App) : App :=
  mkApp (m_window a) (m_instance a) (m_debugMessenger a) (m_surface a) (m_physicalDevice a)
    (m_device a) (m_graphicsQueue a) (m_presentQueue a) (m_swapChain a)
    (m_swapChainImages a) (m_swapChainImageFormat a) (m_swapChainExtent a) v.

Record World := mkWorld { app : App; calls : list ApiCall }.

Definition World_init : World := mkWorld App_init [].

(** ** A state-and-exception monad for the member functions of [App] *)

Inductive exception :=
  | runtime_error (what : string)
  | bad_optional_access.

(** A computation stops early either with a C++ exception or because it ran
    into behaviour the language leaves undefined. *)
Inductive failure :=
  | Thrown (e : exception)
  | Undefined (what : string).

Inductive outcome (A : Type) :=
  | Ok (a : A)
  | Fail (f : failure).
Arguments Ok {A} a.
Arguments Fail {A} f.

Definition M (A : Type) : Type := World → outcome A * World.

#[export] Instance M_ret : MRet M := λ A a w, (Ok a, w).
#[export] Instance M_bind : MBind M := λ A B f m w,
  match m w with
  | (Ok a, w') => f a w'
  | (Fail e, w') => (Fail e, w')
  end.

Definition throw {A} (e : exception) : M A := λ w, (Fail (Thrown e), w).
Definition undefined {A} (what : string) : M A := λ w, (Fail (Undefined what), w).
Definition this : M App := λ w, (Ok (app w), w).
Definition assign (f : App → App) : M unit := λ w, (Ok tt, mkWorld (f (app w)) (calls w)).
Definition call (c : ApiCall) : M unit := λ w, (Ok tt, mkWorld (app w) (calls w ++ [c])).

Definition eval {A} (m : M A) (w : World) : outcome A := fst (m w).
Definition exec {A} (m : M A) (w : World) : World := snd (m w).

(** [std::optional<uint32_t>::value()]. *)
Definition value (o : option Z) : M Z :=
  match o with
  | Some v => mret v
  | None => throw bad_optional_access
  end.

(** A range-[for] whose body returns nothing. *)
Fixpoint for_each {A} (body : A → M unit) (l : list A) : M unit :=
  match l with
  | [] => mret tt
  | x :: rest => body x;; for_each body rest
  end.

(** The messages of the [std::runtime_error]s, under the names the design
    document gives the failures. *)
Definition InitializationError := runtime_error "Failed to initialize GLFW".
Definition UnsupportedLayerError :=
  runtime_error "validation layers requested, but not available!".
Definition InstantiationError := runtime_error "failed to create instance!".
Definition DiagnosticInstallError := runtime_error "failed to set up debug messenger!".
Definition SurfaceCreationError := runtime_error "failed to create window surface!".
Definition NoGPUError := runtime_error "failed to find GPUs with Vulkan support!".
Definition NoSuitableDeviceError := runtime_error "failed to find a suitable GPU!".
Definition DeviceCreationError := runtime_error "failed to create logical device!".
Definition SwapchainCreationError := runtime_error "failed to create swap chain!".
Definition ImageViewCreationError := runtime_error "failed to create image views!".

(** ** The member functions of [App] *)

Section App.

Variable drv : Driver.
(** The build-time switch: [false] under [NDEBUG]. *)
Variable ENABLE_VALIDATION_LAYERS : bool.

Definition createGLFWLibrary : M unit :=
  call (GlfwInit (drv_glfwInit drv));;
  let result := drv_glfwInit drv in
  if negb result then
    call GlfwTerminate;;
    throw InitializationError
  else mret tt.

Definition createWindow : M unit :=
  call (GlfwWindowHint GLFW_CLIENT_API GLFW_NO_API);;
  call (GlfwWindowHint GLFW_RESIZABLE GLFW_FALSE);;
  let window := drv_glfwCreateWindow drv in
  call (GlfwCreateWindow WIDTH HEIGHT window);;
  assign (set_m_window window).

Definition getRequiredExtensions : M (list string) :=
  call GlfwGetRequiredInstanceExtensions;;
  let requiredExtensions := drv_glfwRequiredInstanceExtensions drv in
  let requiredExtensions :=
    if ENABLE_VALIDATION_LAYERS
    then requiredExtensions ++ [VK_EXT_DEBUG_UTILS_EXTENSION_NAME]
    else requiredExtensions in
  mret (requiredExtensions ++ [VK_KHR_PORTABILITY_ENUMERATION_EXTENSION_NAME]).

Definition checkValidationLayerSupport : M bool :=
  call VkEnumerateInstanceLayerProperties;;
  call VkEnumerateInstanceLayerProperties;;
  let availableLayers := drv_instanceLayers drv in
  mret (checkValidationLayerSupport_loop VALIDATION_LAYERS availableLayers).

Definition CreateDebugUtilsMessengerEXT (instance : Handle) : M (VkResult * Handle) :=
  call (VkGetInstanceProcAddr instance "vkCreateDebugUtilsMessengerEXT");;
  if drv_vkGetInstanceProcAddr drv "vkCreateDebugUtilsMessengerEXT" then
    let '(result, messenger) := drv_vkCreateDebugUtilsMessengerEXT drv in
    call (VkCreateDebugUtilsMessengerEXT instance result messenger);;
    mret (result, messenger)
  else mret (VK_ERROR_EXTENSION_NOT_PRESENT, VK_NULL_HANDLE).

Definition DestroyDebugUtilsMessengerEXT (instance debugMessenger : Handle) : M unit :=
  call (VkGetInstanceProcAddr instance "vkDestroyDebugUtilsMessengerEXT");;
  if drv_vkGetInstanceProcAddr drv "vkDestroyDebugUtilsMessengerEXT" then
    call (VkDestroyDebugUtilsMessengerEXT instance debugMessenger)
  else mret tt.

Definition createInstance : M unit :=
  supported ← (if ENABLE_VALIDATION_LAYERS then checkValidationLayerSupport
               else mret true);
  if ENABLE_VALIDATION_LAYERS && negb supported then throw UnsupportedLayerError
  else
    requiredExtensions ← getRequiredExtensions;
    let enabledLayerNames := if ENABLE_VALIDATION_LAYERS then VALIDATION_LAYERS else [] in
    let '(result, instance) := drv_vkCreateInstance drv in
    call (VkCreateInstance requiredExtensions enabledLayerNames result instance);;
    if negb (result =? VK_SUCCESS) then throw InstantiationError
    else assign (set_m_instance instance).

Definition setupDebugMessenger : M unit :=
  if ENABLE_VALIDATION_LAYERS then
    a ← this;
    '(result, debugMessenger) ← CreateDebugUtilsMessengerEXT (m_instance a);
    if negb (result =? VK_SUCCESS) then throw DiagnosticInstallError
    else assign (set_m_debugMessenger debugMessenger)
  else mret tt.

Definition createSurface : M unit :=
  a ← this;
  let '(result, surface) := drv_glfwCreateWindowSurface drv in
  call (GlfwCreateWindowSurface (m_instance a) (m_window a) result surface);;
  if negb (result =? VK_SUCCESS) then throw SurfaceCreationError
  else assign (set_m_surface surface).

Definition checkDeviceExtensionSupport (device : Handle) : M bool :=
  call (VkEnumerateDeviceExtensionProperties device);;
  call (VkEnumerateDeviceExtensionProperties device);;
  let availableExtensions := drv_deviceExtensions drv device in
  mret (checkExtensionsErased DEVICE_EXTENSIONS availableExtensions).

(** The range-[for] of [findQueueFamilies]; [i] is the [int] counter, which
    is converted to [uint32_t] where it is stored or passed on (its overflow,
    undefined in C++, needs more than [INT_MAX] families and is not modelled).
    Returning without the recursive call is the [break]. *)
Fixpoint findQueueFamilies_loop (device : Handle)
    (queueFamilies : list VkQueueFamilyProperties) (i : Z)
    (indices : QueueFamilyIndices) : M QueueFamilyIndices :=
  match queueFamilies with
  | [] => mret indices
  | queueFamily :: rest =>
      let indices :=
        if negb (Z.land (queueFlags queueFamily) VK_QUEUE_GRAPHICS_BIT =? 0)
        then {| graphicsFamily := Some (to_uint32 i);
                presentFamily := presentFamily indices |}
        else indices in
      a ← this;
      call (VkGetPhysicalDeviceSurfaceSupportKHR device (to_uint32 i) (m_surface a));;
      let presentSupport := drv_surfaceSupport drv device (to_uint32 i) (m_surface a) in
      let indices :=
        if presentSupport
        then {| graphicsFamily := graphicsFamily indices;
                presentFamily := Some (to_uint32 i) |}
        else indices in
      if isComplete indices then mret indices
      else findQueueFamilies_loop device rest (i + 1) indices
  end.

Definition findQueueFamilies (device : Handle) : M QueueFamilyIndices :=
  let indices := {| graphicsFamily := None; presentFamily := None |} in
  call (VkGetPhysicalDeviceQueueFamilyProperties device);;
  call (VkGetPhysicalDeviceQueueFamilyProperties device);;
  let queueFamilies := drv_queueFamilyProperties drv device in
  findQueueFamilies_loop device queueFamilies 0 indices.

Definition querySwapChainSupport (device : Handle) : M SwapChainSupportDetails :=
  a ← this;
  call (VkGetPhysicalDeviceSurfaceCapabilitiesKHR device (m_surface a));;
  let capabilities := drv_surfaceCapabilities drv device (m_surface a) in
  call (VkGetPhysicalDeviceSurfaceFormatsKHR device (m_surface a));;
  let formatCount := length (drv_surfaceFormats drv device (m_surface a)) in
  formats ← (if negb (formatCount =? 0)%nat then
               call (VkGetPhysicalDeviceSurfaceFormatsKHR device (m_surface a));;
               mret (drv_surfaceFormats drv device (m_surface a))
             else mret []);
  call (VkGetPhysicalDeviceSurfacePresentModesKHR device (m_surface a));;
  let presentModeCount := length (drv_surfacePresentModes drv device (m_surface a)) in
  presentModes ← (if negb (presentModeCount =? 0)%nat then
                    call (VkGetPhysicalDeviceSurfacePresentModesKHR device (m_surface a));;
                    mret (drv_surfacePresentModes drv device (m_surface a))
                  else mret []);
  mret {| capabilities := capabilities; formats := formats; presentModes := presentModes |}.

Definition isPhysicalDeviceSuitable (device : Handle) : M bool :=
  indices ← findQueueFamilies device;
  extensionsSupported ← checkDeviceExtensionSupport device;
  swapChainAdequate ←
    (if extensionsSupported then
       swapChainSupport ← querySwapChainSupport device;
       mret (negb (bool_decide (formats swapChainSupport = []))
             && negb (bool_decide (presentModes swapChainSupport = [])))
     else mret false);
  mret (isComplete indices && extensionsSupported && swapChainAdequate).

(** The range-[for] of [selectPhysicalDevice]; the result is the local
    [selectedPhysicalDevice] when the loop is left. *)
Fixpoint selectPhysicalDevice_loop (physicalDevices : list Handle)
    (selectedPhysicalDevice : Handle) : M Handle :=
  match physicalDevices with
  | [] => mret selectedPhysicalDevice
  | physicalDevice :: rest =>
      suitable ← isPhysicalDeviceSuitable physicalDevice;
      if (suitable : bool) then mret physicalDevice
      else selectPhysicalDevice_loop rest selectedPhysicalDevice
  end.

Definition selectPhysicalDevice : M unit :=
  a ← this;
  call (VkEnumeratePhysicalDevices (m_instance a));;
  let physicalDeviceCount := length (drv_physicalDevices drv) in
  if (physicalDeviceCount =? 0)%nat then throw NoGPUError
  else
    call (VkEnumeratePhysicalDevices (m_instance a));;
    let physicalDevices := drv_physicalDevices drv in
    selectedPhysicalDevice ← selectPhysicalDevice_loop physicalDevices VK_NULL_HANDLE;
    if selectedPhysicalDevice =? VK_NULL_HANDLE then throw NoSuitableDeviceError
    else assign (set_m_physicalDevice selectedPhysicalDevice).

Definition createLogicalDevice : M unit :=
  a ← this;
  indices ← findQueueFamilies (m_physicalDevice a);
  graphics ← value (graphicsFamily indices);
  present ← value (presentFamily indices);
  let uniqueQueueFamilies : gset Z := {[ graphics; present ]} in
  let queueCreateInfos := merge_sort Z.le (elements uniqueQueueFamilies) in
  let enabledExtensions := VK_KHR_portability_subset :: DEVICE_EXTENSIONS in
  let enabledLayerNames := if ENABLE_VALIDATION_LAYERS then VALIDATION_LAYERS else [] in
  let '(result, device) := drv_vkCreateDevice drv in
  call (VkCreateDevice (m_physicalDevice a) queueCreateInfos enabledExtensions
          enabledLayerNames result device);;
  if negb (result =? VK_SUCCESS) then throw DeviceCreationError
  else
    graphics ← value (graphicsFamily indices);
    call (VkGetDeviceQueue device graphics 0);;
    let graphicsQueue := drv_vkGetDeviceQueue drv device graphics 0 in
    present ← value (presentFamily indices);
    call (VkGetDeviceQueue device present 0);;
    let presentQueue := drv_vkGetDeviceQueue drv device present 0 in
    assign (set_device_and_queues device graphicsQueue presentQueue).

Definition selectSwapExtent (capabilities : VkSurfaceCapabilitiesKHR) : M VkExtent2D :=
  if negb (width (currentExtent capabilities) =? UINT32_MAX) then
    mret (currentExtent capabilities)
  else
    a ← this;
    call (GlfwGetWindowSize (m_window a));;
    let '(_width, _height) := drv_glfwGetWindowSize drv in
    mret (actualExtent capabilities _width _height).

Definition createSwapChain : M unit :=
  a ← this;
  swapChainSupport ← querySwapChainSupport (m_physicalDevice a);
  surfaceFormat ← match selectSwapSurfaceFormat (formats swapChainSupport) with
                  | Some surfaceFormat => mret surfaceFormat
                  | None => undefined "availableFormats[0] on an empty vector"
                  end;
  let presentMode := selectSwapPresentMode (presentModes swapChainSupport) in
  extent ← selectSwapExtent (capabilities swapChainSupport);
  let imageCount := imageCount (capabilities swapChainSupport) in
  indices ← findQueueFamilies (m_physicalDevice a);
  graphics ← value (graphicsFamily indices);
  present ← value (presentFamily indices);
  let queueFamilyIndices := [graphics; present] in
  let concurrent := bool_decide (graphicsFamily indices ≠ presentFamily indices) in
  let createInfo :=
    {| ci_surface := m_surface a;
       ci_minImageCount := imageCount;
       ci_imageFormat := format surfaceFormat;
       ci_imageColorSpace := colorSpace surfaceFormat;
       ci_imageExtent := extent;
       ci_imageSharingConcurrent := concurrent;
       ci_queueFamilyIndices := if concurrent then queueFamilyIndices else [];
       ci_preTransform := currentTransform (capabilities swapChainSupport);
       ci_presentMode := presentMode |} in
  let '(result, swapChain) := drv_vkCreateSwapchainKHR drv in
  call (VkCreateSwapchainKHR (m_device a) createInfo result swapChain);;
  if negb (result =? VK_SUCCESS) then throw SwapchainCreationError
  else
    call (VkGetSwapchainImagesKHR (m_device a) swapChain);;
    call (VkGetSwapchainImagesKHR (m_device a) swapChain);;
    let swapChainImages := drv_swapchainImages drv in
    assign (set_swapChain swapChain swapChainImages (format surfaceFormat) extent).

(** The counted [for] of [createImageViews]: [images] are the images from
    index [i] on, [swapChainImageViews] is the local vector. *)
Fixpoint createImageViews_loop (device : Handle) (fmt : Z) (images : list Handle)
    (i : nat) (swapChainImageViews : list Handle) : M (list Handle) :=
  match images with
  | [] => mret swapChainImageViews
  | image :: rest =>
      let '(result, swapChainImageView) := drv_vkCreateImageView drv i in
      call (VkCreateImageView device image fmt result swapChainImageView);;
      if negb (result =? VK_SUCCESS) then throw ImageViewCreationError
      else createImageViews_loop device fmt rest (S i)
             (<[ i := swapChainImageView ]> swapChainImageViews)
  end.

Definition createImageViews : M unit :=
  a ← this;
  let swapChainImageViews := replicate (length (m_swapChainImages a)) VK_NULL_HANDLE in
  swapChainImageViews ←
    createImageViews_loop (m_device a) (m_swapChainImageFormat a)
      (m_swapChainImages a) 0%nat swapChainImageViews;
  assign (set_m_swapChainImageViews swapChainImageViews).

Definition initVulkan : M unit :=
  createInstance;;
  setupDebugMessenger;;
  createSurface;;
  selectPhysicalDevice;;
  createLogicalDevice;;
  createSwapChain;;
  createImageViews.

(** [while (!glfwWindowShouldClose(m_window)) glfwPollEvents();] for a
    window that is closed after [polls] rounds of event polling.  A window
    that is never closed keeps the program in this loop for ever; the scripts
    considered here close it. *)
Fixpoint mainLoop_loop (window : Handle) (polls : nat) : M unit :=
  match polls with
  | O => call (GlfwWindowShouldClose window true)
  | S polls' =>
      call (GlfwWindowShouldClose window false);;
      call GlfwPollEvents;;
      mainLoop_loop window polls'
  end.

Definition mainLoop : M unit :=
  a ← this;
  mainLoop_loop (m_window a) (drv_pollsBeforeClose drv).

Definition cleanup : M unit :=
  a ← this;
  for_each (λ imageView, call (VkDestroyImageView (m_device a) imageView))
           (m_swapChainImageViews a);;
  call (VkDestroySwapchainKHR (m_device a) (m_swapChain a));;
  call (VkDestroyDevice (m_device a));;
  (if ENABLE_VALIDATION_LAYERS
   then DestroyDebugUtilsMessengerEXT (m_instance a) (m_debugMessenger a)
   else mret tt);;
  call (VkDestroySurfaceKHR (m_instance a) (m_surface a));;
  call (VkDestroyInstance (m_instance a));;
  call (GlfwDestroyWindow (m_window a));;
  call GlfwTerminate.

Definition run : M unit :=
  createGLFWLibrary;;
  createWindow;;
  initVulkan;;
  mainLoop;;
  cleanup.

End App.

Definition EXIT_SUCCESS : Z := 0.
Definition EXIT_FAILURE : Z := 1.

(** [main]: the exit status and the final state of the world; no exit status
    when the run left defined behaviour. *)
Definition main (drv : Driver) (ENABLE_VALIDATION_LAYERS : bool) : option Z * World :=
  match run drv ENABLE_VALIDATION_LAYERS World_init with
  | (Ok _, w) => (Some EXIT_SUCCESS, w)
  | (Fail (Thrown _), w) => (Some EXIT_FAILURE, w)
  | (Fail (Undefined _), w) => (None, w)
  end.

(** * Vocabulary of the specification *)

(** The world after the calls [cs] have been appended to the log. *)
Definition logged (cs : list ApiCall) (w : World) : World :=
  mkWorld (app w) (calls w ++ cs).

(** ** Surface formats *)

(** 8-bit BGRA in sRGB encoding, with the standard non-linear sRGB space. *)
Definition isPreferredFormat (f : VkSurfaceFormatKHR) : Prop :=
  format f = VK_FORMAT_B8G8R8A8_SRGB ∧ colorSpace f = VK_COLOR_SPACE_SRGB_NONLINEAR_KHR.

(** ** Queue families *)

(** Whether the family at index [i] of the reported array has the graphics bit. *)
Definition graphicsCapable (families : list VkQueueFamilyProperties) (i : Z) : bool :=
  match families !! Z.to_nat i with
  | Some queueFamily => negb (Z.land (queueFlags queueFamily) VK_QUEUE_GRAPHICS_BIT =? 0)
  | None => false
  end.

(** [o] is the greatest index below [n] that satisfies [P], absent when no
    index below [n] does. *)
Definition lastIndexBelow (P : Z → bool) (n : Z) (o : option Z) : Prop :=
  match o with
  | Some k => (0 ≤ k < n) ∧ P k = true ∧ ∀ j, k < j < n → P j = false
  | None => ∀ j, 0 ≤ j < n → P j = false
  end.

(** The least index below [count] that satisfies [P]. *)
Definition firstIndex (P : Z → bool) (count : nat) : option Z :=
  List.find P (seqZ 0 (Z.of_nat count)).

(** The scan as the design document words it: the first family with graphics
    capability and, independently, the first family with present support. *)
Definition firstFamilies (drv : Driver) (device surface : Handle) : QueueFamilyIndices :=
  let families := drv_queueFamilyProperties drv device in
  {| graphicsFamily := firstIndex (graphicsCapable families) (length families);
     presentFamily := firstIndex (λ i, drv_surfaceSupport drv device i surface)
                        (length families) |}.

(** The values the loop of [findQueueFamilies] computes, as a function of the
    driver's answers, with the number of families it visits. *)
Fixpoint scanFamilies (presentSupport : Z → bool)
    (queueFamilies : list VkQueueFamilyProperties) (i : Z)
    (indices : QueueFamilyIndices) : QueueFamilyIndices * nat :=
  match queueFamilies with
  | [] => (indices, 0%nat)
  | queueFamily :: rest =>
      let indices :=
        if negb (Z.land (queueFlags queueFamily) VK_QUEUE_GRAPHICS_BIT =? 0)
        then {| graphicsFamily := Some (to_uint32 i);
                presentFamily := presentFamily indices |}
        else indices in
      let indices :=
        if presentSupport (to_uint32 i)
        then {| graphicsFamily := graphicsFamily indices;
                presentFamily := Some (to_uint32 i) |}
        else indices in
      if isComplete indices then (indices, 1%nat)
      else let '(found, visited) := scanFamilies presentSupport rest (i + 1) indices in
           (found, S visited)
  end.

Definition scanDevice (drv : Driver) (device surface : Handle) : QueueFamilyIndices * nat :=
  scanFamilies (λ i, drv_surfaceSupport drv device i surface)
    (drv_queueFamilyProperties drv device) 0
    {| graphicsFamily := None; presentFamily := None |}.

(** The present-support queries of the loop for the counter values from [i]
    on, [visited] of them; the counter is passed as a [uint32_t]. *)
Definition surfaceSupport_calls (device surface : Handle) (i : Z) (visited : nat)
  : list ApiCall :=
  (λ k, VkGetPhysicalDeviceSurfaceSupportKHR device (to_uint32 k) surface)
    <$> seqZ i (Z.of_nat visited).

(** The calls of one run of [findQueueFamilies] that visits [visited] families. *)
Definition findQueueFamilies_calls (device surface : Handle) (visited : nat) : list ApiCall :=
  [VkGetPhysicalDeviceQueueFamilyProperties device;
   VkGetPhysicalDeviceQueueFamilyProperties device]
  ++ surfaceSupport_calls device surface 0 visited.

(** Both capabilities occur among the families of index below [n]. *)
Definition bothSeenBelow (G P : Z → bool) (n : Z) : Prop :=
  (∃ g, 0 ≤ g < n ∧ G g = true) ∧ (∃ p, 0 ≤ p < n ∧ P p = true).

(** ** Device suitability *)

Definition isSwapChainQuery (c : ApiCall) : bool :=
  match c with
  | VkGetPhysicalDeviceSurfaceCapabilitiesKHR _ _
  | VkGetPhysicalDeviceSurfaceFormatsKHR _ _
  | VkGetPhysicalDeviceSurfacePresentModesKHR _ _ => true
  | _ => false
  end.

(** Every required name is the name of some available extension. *)
Definition extensionsAvailable (required : list string)
    (available : list VkExtensionProperties) : Prop :=
  ∀ name, name ∈ required → name ∈ extensionName <$> available.

Definition layersAvailable (required : list string)
    (available : list VkLayerProperties) : Prop :=
  ∀ name, name ∈ required → name ∈ layerName <$> available.

(** The calls of [querySwapChainSupport]. *)
Definition querySwapChainSupport_calls (drv : Driver) (device surface : Handle)
  : list ApiCall :=
  [VkGetPhysicalDeviceSurfaceCapabilitiesKHR device surface;
   VkGetPhysicalDeviceSurfaceFormatsKHR device surface]
  ++ (if negb (length (drv_surfaceFormats drv device surface) =? 0)%nat
      then [VkGetPhysicalDeviceSurfaceFormatsKHR device surface] else [])
  ++ [VkGetPhysicalDeviceSurfacePresentModesKHR device surface]
  ++ (if negb (length (drv_surfacePresentModes drv device surface) =? 0)%nat
      then [VkGetPhysicalDeviceSurfacePresentModesKHR device surface] else []).

(** The answer of [isPhysicalDeviceSuitable] and the calls it makes, as
    functions of the driver's answers for the surface in use. *)
Definition suitable (drv : Driver) (surface device : Handle) : bool :=
  isComplete (fst (scanDevice drv device surface))
  && checkExtensionsErased DEVICE_EXTENSIONS (drv_deviceExtensions drv device)
  && (negb (bool_decide (drv_surfaceFormats drv device surface = []))
      && negb (bool_decide (drv_surfacePresentModes drv device surface = []))).

Definition isPhysicalDeviceSuitable_calls (drv : Driver) (surface device : Handle)
  : list ApiCall :=
  findQueueFamilies_calls device surface (snd (scanDevice drv device surface))
  ++ [VkEnumerateDeviceExtensionProperties device;
      VkEnumerateDeviceExtensionProperties device]
  ++ (if checkExtensionsErased DEVICE_EXTENSIONS (drv_deviceExtensions drv device)
      then querySwapChainSupport_calls drv device surface else []).

(** The devices the selection loop examines: up to and including the first
    suitable one. *)
Fixpoint examined (drv : Driver) (surface : Handle) (physicalDevices : list Handle)
  : list Handle :=
  match physicalDevices with
  | [] => []
  | physicalDevice :: rest =>
      if suitable drv surface physicalDevice then [physicalDevice]
      else physicalDevice :: examined drv surface rest
  end.

(** ** Resource lifecycle, read off the call log *)

Inductive Resource :=
  | LibraryRes
  | WindowRes (window : Handle)
  | InstanceRes (instance : Handle)
  | MessengerRes (messenger : Handle)
  | SurfaceRes (surface : Handle)
  | DeviceRes (device : Handle)
  | SwapchainRes (swapChain : Handle)
  | ImageViewRes (view : Handle).

(** The resource a call brings into existence: a creation call that reports
    success. *)
Definition creates (c : ApiCall) : option Resource :=
  match c with
  | GlfwInit true => Some LibraryRes
  | GlfwCreateWindow _ _ window => Some (WindowRes window)
  | VkCreateInstance _ _ result instance =>
      if result =? VK_SUCCESS then Some (InstanceRes instance) else None
  | VkCreateDebugUtilsMessengerEXT _ result messenger =>
      if result =? VK_SUCCESS then Some (MessengerRes messenger) else None
  | GlfwCreateWindowSurface _ _ result surface =>
      if result =? VK_SUCCESS then Some (SurfaceRes surface) else None
  | VkCreateDevice _ _ _ _ result device =>
      if result =? VK_SUCCESS then Some (DeviceRes device) else None
  | VkCreateSwapchainKHR _ _ result swapChain =>
      if result =? VK_SUCCESS then Some (SwapchainRes swapChain) else None
  | VkCreateImageView _ _ _ result view =>
      if result =? VK_SUCCESS then Some (ImageViewRes view) else None
  | _ => None
  end.

(** The resource a call destroys. *)
Definition destroys (c : ApiCall) : option Resource :=
  match c with
  | GlfwTerminate => Some LibraryRes
  | GlfwDestroyWindow window => Some (WindowRes window)
  | VkDestroyInstance instance => Some (InstanceRes instance)
  | VkDestroyDebugUtilsMessengerEXT _ messenger => Some (MessengerRes messenger)
  | VkDestroySurfaceKHR _ surface => Some (SurfaceRes surface)
  | VkDestroyDevice device => Some (DeviceRes device)
  | VkDestroySwapchainKHR _ swapChain => Some (SwapchainRes swapChain)
  | VkDestroyImageView _ view => Some (ImageViewRes view)
  | _ => None
  end.

Definition created (cs : list ApiCall) : list Resource := omap creates cs.
Definition destroyed (cs : list ApiCall) : list Resource := omap destroys cs.

(** The teardown property as the design document words it: what was created
    has been destroyed, once each, in reverse order of creation. *)
Definition tornDownInReverse (cs : list ApiCall) : Prop :=
  destroyed cs = reverse (created cs).

(** A computation that only appends calls to the log, none of which creates
    or destroys a resource, and that leaves the data members alone. *)
Definition quiet {A} (m : M A) : Prop :=
  ∀ w, app (exec m w) = app w
       ∧ ∃ cs, calls (exec m w) = calls w ++ cs
               ∧ created cs = [] ∧ destroyed cs = [].

(** A computation that only appends calls to the log, none of which destroys
    a resource. *)
Definition destroysNothing {A} (m : M A) : Prop :=
  ∀ w, ∃ cs, calls (exec m w) = calls w ++ cs ∧ destroyed cs = [].

(** The world in which [initVulkan] starts: after [createGLFWLibrary] and
    [createWindow] have run from the initial world. *)
Definition beforeInitVulkan (drv : Driver) : World :=
  exec (createGLFWLibrary drv ≫= λ _, createWindow drv) World_init.

(** ** Scripts used as concrete inputs *)

(** The steps of [initVulkan] at which a script can make the run fail. *)
Inductive Step :=
  | AtInstance
  | AtDebugMessenger
  | AtSurface
  | AtDeviceSelection
  | AtLogicalDevice
  | AtSwapchain
  | AtImageView (index : nat).

#[export] Instance Step_eq_dec : EqDecision Step.
Proof. solve_decision. Defined.

Definition VK_ERROR_INITIALIZATION_FAILED : VkResult := -3.

(** The status a creation call reports in a script that fails at [failing]. *)
Definition status (failing : option Step) (step : Step) : VkResult :=
  if bool_decide (failing = Some step) then VK_ERROR_INITIALIZATION_FAILED
  else VK_SUCCESS.

(** A machine with one GPU whose families 0 and 1 have graphics capability
    and whose family 2 alone can present, on which every step succeeds except
    the one named by [failing]; device selection is made to fail by taking
    the swapchain extension away from the GPU. *)
Definition script (failing : option Step) : Driver := {|
  drv_glfwInit := true;
  drv_glfwCreateWindow := 100;
  drv_glfwGetWindowSize := (800, 600);
  drv_pollsBeforeClose := 1;
  drv_glfwRequiredInstanceExtensions := ["VK_KHR_surface"];
  drv_instanceLayers := [mkLayer "VK_LAYER_KHRONOS_validation"];
  drv_vkCreateInstance := (status failing AtInstance, 200);
  drv_vkGetInstanceProcAddr := λ _, true;
  drv_vkCreateDebugUtilsMessengerEXT := (status failing AtDebugMessenger, 300);
  drv_glfwCreateWindowSurface := (status failing AtSurface, 400);
  drv_physicalDevices := [500];
  drv_queueFamilyProperties := λ _, [mkQueueFamily 1 1; mkQueueFamily 1 1; mkQueueFamily 0 1];
  drv_surfaceSupport := λ _ i _, i =? 2;
  drv_deviceExtensions := λ _,
    if bool_decide (failing = Some AtDeviceSelection) then []
    else [mkExtension "VK_KHR_swapchain" 70];
  drv_surfaceCapabilities := λ _ _,
    mkCapabilities 2 0 (mkExtent 800 600) (mkExtent 1 1) (mkExtent 4096 4096) 1;
  drv_surfaceFormats := λ _ _, [mkSurfaceFormat 44 0; mkSurfaceFormat 50 0];
  drv_surfacePresentModes := λ _ _, [VK_PRESENT_MODE_FIFO_KHR];
  drv_vkCreateDevice := (status failing AtLogicalDevice, 600);
  drv_vkGetDeviceQueue := λ _ family _, 700 + family;
  drv_vkCreateSwapchainKHR := (status failing AtSwapchain, 800);
  drv_swapchainImages := [900; 901];
  drv_vkCreateImageView := λ i, (status failing (AtImageView i), 1000 + Z.of_nat i)
|}.

(** The machine on which everything succeeds. *)
Definition script_ok : Driver := script None.

(** What the design document promises of a run that fails at [step]. *)
Definition failsCleanlyAt (step : Step) (en : bool) : Prop :=
  fst (main (script (Some step)) en) = Some EXIT_FAILURE
  ∧ tornDownInReverse (calls (snd (main (script (Some step)) en))).

(** What such a run does: it fails, has created resources, and has
    destroyed none of them. *)
Definition failsWithoutTeardownAt (step : Step) (en : bool) : Prop :=
  fst (main (script (Some step)) en) = Some EXIT_FAILURE
  ∧ created (calls (snd (main (script (Some step)) en))) ≠ []
  ∧ destroyed (calls (snd (main (script (Some step)) en))) = []
  ∧ ¬ failsCleanlyAt step en.

(** * Further parts of the program *)

(** ** The diagnostic callback *)

(** Values of the severity bits of <vulkan/vulkan_core.h>. *)
Definition VK_DEBUG_UTILS_MESSAGE_SEVERITY_VERBOSE_BIT_EXT : Z := 1.
Definition VK_DEBUG_UTILS_MESSAGE_SEVERITY_INFO_BIT_EXT : Z := 16.
Definition VK_DEBUG_UTILS_MESSAGE_SEVERITY_WARNING_BIT_EXT : Z := 256.
Definition VK_DEBUG_UTILS_MESSAGE_SEVERITY_ERROR_BIT_EXT : Z := 4096.
Definition VK_FALSE : Z := 0.

(** [App::messageSeverityToString]. *)
Definition messageSeverityToString (messageSeverity : Z) : string :=
  if negb (Z.land messageSeverity VK_DEBUG_UTILS_MESSAGE_SEVERITY_ERROR_BIT_EXT =? 0)
  then "ERROR"
  else if negb (Z.land messageSeverity VK_DEBUG_UTILS_MESSAGE_SEVERITY_WARNING_BIT_EXT =? 0)
  then "WARN "
  else "INFO ".

(** [App::debugCallback]: the line it prints on [std::cerr] (without the line
    terminator) and the [VkBool32] it returns.  The message type and the user
    data are not looked at. *)
Definition debugCallback (messageSeverity messageType : Z) (pMessage : string)
  : string * Z :=
  let messageSeverityString := messageSeverityToString messageSeverity in
  ("[" +:+ messageSeverityString +:+ "] " +:+ pMessage, VK_FALSE).

(** ** Vocabulary for the further properties *)

(** A computation that leaves the data members alone, whatever it logs. *)
Definition readsOnly {A} (m : M A) : Prop :=
  ∀ w, app (exec m w) = app w.

(** A computation that, when it fails, has changed no data member. *)
Definition failsUnchanged {A} (m : M A) : Prop :=
  ∀ w f w', m w = (Fail f, w') → app w' = app w.

(** A computation whose only failures are exceptions of the list [E]. *)
Definition throwsOnly {A} (E : list exception) (m : M A) : Prop :=
  ∀ w f w', m w = (Fail f, w') → ∃ e, f = Thrown e ∧ e ∈ E.

(** The errors the steps of [initVulkan] throw by themselves. *)
Definition startupErrors : list exception :=
  [UnsupportedLayerError; InstantiationError; DiagnosticInstallError;
   SurfaceCreationError; NoGPUError; NoSuitableDeviceError; DeviceCreationError;
   SwapchainCreationError; ImageViewCreationError].

(** The queue-create entries of [createLogicalDevice] for the families
    [graphics] and [present]: one per distinct family, in ascending order. *)
Definition distinctFamilies (graphics present : Z) : list Z :=
  if graphics =? present then [graphics]
  else if graphics <? present then [graphics; present]
  else [present; graphics].

(** The image views the driver hands out for the first [n] creation calls. *)
Definition viewsOf (drv : Driver) (n : nat) : list Handle :=
  (λ i, snd (drv_vkCreateImageView drv i)) <$> seq 0 n.

(** The creation calls of [createImageViews] for [images], the first of them
    being call number [i]. *)
Fixpoint imageView_calls (drv : Driver) (device : Handle) (fmt : Z)
    (images : list Handle) (i : nat) : list ApiCall :=
  match images with
  | [] => []
  | image :: rest =>
      VkCreateImageView device image fmt (fst (drv_vkCreateImageView drv i))
        (snd (drv_vkCreateImageView drv i))
      :: imageView_calls drv device fmt rest (S i)
  end.

(** The extent [selectSwapExtent] settles on, as a function of the driver's
    answers. *)
Definition chosenExtent (drv : Driver) (capabilities : VkSurfaceCapabilitiesKHR)
  : VkExtent2D :=
  if negb (width (currentExtent capabilities) =? UINT32_MAX)
  then currentExtent capabilities
  else actualExtent capabilities (fst (drv_glfwGetWindowSize drv))
         (snd (drv_glfwGetWindowSize drv)).

(** The queries [createSwapChain] makes before it creates anything, in the
    order it makes them. *)
Definition swapChainQueries (drv : Driver) (physicalDevice : Handle)
  : M QueueFamilyIndices :=
  swapChainSupport ← querySwapChainSupport drv physicalDevice;
  _ ← selectSwapExtent drv (capabilities swapChainSupport);
  findQueueFamilies drv physicalDevice.

(** The create-info [createSwapChain] builds from what it negotiated. *)
Definition negotiatedCreateInfo (drv : Driver) (a : App)
    (surfaceFormat : VkSurfaceFormatKHR) (graphics present : Z)
  : VkSwapchainCreateInfoKHR :=
  let capabilities := drv_surfaceCapabilities drv (m_physicalDevice a) (m_surface a) in
  {| ci_surface := m_surface a;
     ci_minImageCount := imageCount capabilities;
     ci_imageFormat := format surfaceFormat;
     ci_imageColorSpace := colorSpace surfaceFormat;
     ci_imageExtent := chosenExtent drv capabilities;
     ci_imageSharingConcurrent := negb (graphics =? present);
     ci_queueFamilyIndices := if graphics =? present then [] else [graphics; present];
     ci_preTransform := currentTransform capabilities;
     ci_presentMode :=
       selectSwapPresentMode
         (drv_surfacePresentModes drv (m_physicalDevice a) (m_surface a)) |}.

(** ** More scripts *)

(** A script with the GLFW initialization, the instance layers and the
    entry-point lookup replaced. *)
Definition with_platform (initializes : bool) (layers : list VkLayerProperties)
    (resolves : string → bool) (drv : Driver) : Driver :=
  mkDriver initializes (drv_glfwCreateWindow drv) (drv_glfwGetWindowSize drv)
    (drv_pollsBeforeClose drv) (drv_glfwRequiredInstanceExtensions drv)
    layers (drv_vkCreateInstance drv) resolves
    (drv_vkCreateDebugUtilsMessengerEXT drv) (drv_glfwCreateWindowSurface drv)
    (drv_physicalDevices drv) (drv_queueFamilyProperties drv) (drv_surfaceSupport drv)
    (drv_deviceExtensions drv) (drv_surfaceCapabilities drv) (drv_surfaceFormats drv)
    (drv_surfacePresentModes drv) (drv_vkCreateDevice drv) (drv_vkGetDeviceQueue drv)
    (drv_vkCreateSwapchainKHR drv) (drv_swapchainImages drv) (drv_vkCreateImageView drv).

(** A machine on which every creation call succeeds, with the given GPUs,
    all of which report the given queue families, present support, surface
    formats and outcome of the device and swapchain creation. *)
Definition machine (physicalDevices : list Handle)
    (families : list VkQueueFamilyProperties) (presentSupport : Z → bool)
    (surfaceFormats : list VkSurfaceFormatKHR)
    (deviceResult swapchainResult : VkResult) : Driver := {|
  drv_glfwInit := true;
  drv_glfwCreateWindow := 100;
  drv_glfwGetWindowSize := (800, 600);
  drv_pollsBeforeClose := 0;
  drv_glfwRequiredInstanceExtensions := ["VK_KHR_surface"];
  drv_instanceLayers := [mkLayer "VK_LAYER_KHRONOS_validation"];
  drv_vkCreateInstance := (VK_SUCCESS, 200);
  drv_vkGetInstanceProcAddr := λ _, true;
  drv_vkCreateDebugUtilsMessengerEXT := (VK_SUCCESS, 300);
  drv_glfwCreateWindowSurface := (VK_SUCCESS, 400);
  drv_physicalDevices := physicalDevices;
  drv_queueFamilyProperties := λ _, families;
  drv_surfaceSupport := λ _ i _, presentSupport i;
  drv_deviceExtensions := λ device,
    if device =? 501 then [] else [mkExtension "VK_KHR_swapchain" 70];
  drv_surfaceCapabilities := λ _ _,
    mkCapabilities 2 3 (mkExtent UINT32_MAX UINT32_MAX) (mkExtent 1 1)
      (mkExtent 640 480) 1;
  drv_surfaceFormats := λ _ _, surfaceFormats;
  drv_surfacePresentModes := λ _ _, [VK_PRESENT_MODE_FIFO_KHR; VK_PRESENT_MODE_MAILBOX_KHR];
  drv_vkCreateDevice := (deviceResult, 600);
  drv_vkGetDeviceQueue := λ _ family _, 700 + family;
  drv_vkCreateSwapchainKHR := (swapchainResult, 800);
  drv_swapchainImages := [900; 901; 902];
  drv_vkCreateImageView := λ i, (VK_SUCCESS, 1000 + Z.of_nat i)
|}.

(** ** A whole start-up *)

(** [m] succeeds from members [a] exactly when [ok a] holds, and then leaves
    the members [next a]. *)
Definition succeedsWhen (m : M unit) (ok : App → bool) (next : App → App) : Prop :=
  ∀ w, (eval m w = Ok tt ↔ ok (app w) = true)
       ∧ (ok (app w) = true → app (exec m w) = next (app w)).

(** The device the selection loop ends with for [surface]. *)
Definition selectedDevice (drv : Driver) (surface : Handle) : Handle :=
  default VK_NULL_HANDLE (List.find (suitable drv surface) (drv_physicalDevices drv)).

(** The members after a start-up in which every step has succeeded, as a
    function of the driver's answers and of the members [a] before it. *)
Definition startedApp (drv : Driver) (en : bool) (a : App) : App :=
  let surface := snd (drv_glfwCreateWindowSurface drv) in
  let physicalDevice := selectedDevice drv surface in
  let indices := fst (scanDevice drv physicalDevice surface) in
  let device := snd (drv_vkCreateDevice drv) in
  {| m_window := m_window a;
     m_instance := snd (drv_vkCreateInstance drv);
     m_debugMessenger :=
       if en then snd (drv_vkCreateDebugUtilsMessengerEXT drv) else m_debugMessenger a;
     m_surface := surface;
     m_physicalDevice := physicalDevice;
     m_device := device;
     m_graphicsQueue :=
       drv_vkGetDeviceQueue drv device (default 0 (graphicsFamily indices)) 0;
     m_presentQueue :=
       drv_vkGetDeviceQueue drv device (default 0 (presentFamily indices)) 0;
     m_swapChain := snd (drv_vkCreateSwapchainKHR drv);
     m_swapChainImages := drv_swapchainImages drv;
     m_swapChainImageFormat :=
       from_option format 0
         (selectSwapSurfaceFormat (drv_surfaceFormats drv physicalDevice surface));
     m_swapChainExtent :=
       chosenExtent drv (drv_surfaceCapabilities drv physicalDevice surface);
     m_swapChainImageViews := viewsOf drv (length (drv_swapchainImages drv)) |}.

(** The answer of [isPhysicalDeviceSuitable] for [device] when the stored
    surface is [surface]. *)
Definition accepts (drv : Driver) (surface device : Handle) : bool :=
  match eval (isPhysicalDeviceSuitable drv device)
          (mkWorld (set_m_surface surface App_init) []) with
  | Ok answer => answer
  | Fail _ => false
  end.

(** Every answer of the driver a start-up depends on is a favourable one. *)
Definition startupOk (drv : Driver) (en : bool) : bool :=
  (negb en || checkValidationLayerSupport_loop VALIDATION_LAYERS (drv_instanceLayers drv))
  && (fst (drv_vkCreateInstance drv) =? VK_SUCCESS)
  && (negb en
      || (drv_vkGetInstanceProcAddr drv "vkCreateDebugUtilsMessengerEXT"
          && (fst (drv_vkCreateDebugUtilsMessengerEXT drv) =? VK_SUCCESS)))
  && (fst (drv_glfwCreateWindowSurface drv) =? VK_SUCCESS)
  && negb (selectedDevice drv (snd (drv_glfwCreateWindowSurface drv)) =? VK_NULL_HANDLE)
  && (fst (drv_vkCreateDevice drv) =? VK_SUCCESS)
  && (fst (drv_vkCreateSwapchainKHR drv) =? VK_SUCCESS)
  && forallb (λ i, fst (drv_vkCreateImageView drv i) =? VK_SUCCESS)
       (seq 0 (length (drv_swapchainImages drv))).

(** ** A driver that is asked again *)

(** [initVulkan] on a machine whose driver is free to answer a question
    differently when it is asked again: [drv] holds the answers given up to
    and including device selection, [drvDevice] the answers given during
    [createLogicalDevice], and [drvSwapchain] the answers given during
    [createSwapChain] and [createImageViews].  With one driver for the three
    it is [initVulkan]. *)
Definition initVulkanOver (drv drvDevice drvSwapchain : Driver) (en : bool) : M unit :=
  createInstance drv en;;
  setupDebugMessenger drv en;;
  createSurface drv;;
  selectPhysicalDevice drv;;
  createLogicalDevice drvDevice en;;
  createSwapChain drvSwapchain;;
  createImageViews drvSwapchain.

(** Asked again about [device], [drv'] reports the queue families and the
    present support for [surface] that [drv] reported. *)
Definition sameFamilies (drv drv' : Driver) (device surface : Handle) : Prop :=
  drv_queueFamilyProperties drv' device = drv_queueFamilyProperties drv device
  ∧ ∀ i, drv_surfaceSupport drv' device i surface = drv_surfaceSupport drv device i surface.

(** [findQueueFamilies] finds both families for [device] when the stored
    surface is [surface]. *)
Definition familiesFound (drv : Driver) (surface device : Handle) : bool :=
  match eval (findQueueFamilies drv device)
          (mkWorld (set_m_surface surface App_init) []) with
  | Ok indices => isComplete indices
  | Fail _ => false
  end.

(** The two calls of [std::clamp] in [selectSwapExtent] are made within the
    precondition of [std::clamp]: it is called only for the all-ones current
    width, and then needs each lower bound not to exceed its upper bound. *)
Definition clampDefined (capabilities : VkSurfaceCapabilitiesKHR) : Prop :=
  width (currentExtent capabilities) = UINT32_MAX →
  width (minImageExtent capabilities) ≤ width (maxImageExtent capabilities)
  ∧ height (minImageExtent capabilities) ≤ height (maxImageExtent capabilities).

(** Every answer a start-up depends on is a favourable one, the answers to
    the repeated questions included. *)
Definition startupOkOver (drv drvDevice drvSwapchain : Driver) (en : bool) : bool :=
  let surface := snd (drv_glfwCreateWindowSurface drv) in
  let device := selectedDevice drv surface in
  (negb en || checkValidationLayerSupport_loop VALIDATION_LAYERS (drv_instanceLayers drv))
  && (fst (drv_vkCreateInstance drv) =? VK_SUCCESS)
  && (negb en
      || (drv_vkGetInstanceProcAddr drv "vkCreateDebugUtilsMessengerEXT"
          && (fst (drv_vkCreateDebugUtilsMessengerEXT drv) =? VK_SUCCESS)))
  && (fst (drv_glfwCreateWindowSurface drv) =? VK_SUCCESS)
  && negb (device =? VK_NULL_HANDLE)
  && isComplete (fst (scanDevice drvDevice device surface))
  && (fst (drv_vkCreateDevice drvDevice) =? VK_SUCCESS)
  && negb (bool_decide (drv_surfaceFormats drvSwapchain device surface = []))
  && isComplete (fst (scanDevice drvSwapchain device surface))
  && (fst (drv_vkCreateSwapchainKHR drvSwapchain) =? VK_SUCCESS)
  && forallb (λ i, fst (drv_vkCreateImageView drvSwapchain i) =? VK_SUCCESS)
       (seq 0 (length (drv_swapchainImages drvSwapchain))).

(** * Properties *)

(** ** Running computations *)

Lemma bind_run {A B} (m : M A) (f : A → M B) w :
  (m ≫= f) w = match m w with
               | (Ok a, w') => f a w'
               | (Fail e, w') => (Fail e, w')
               end.
Proof. reflexivity. Qed.

Lemma logged_nil w : logged [] w = w.
Proof. destruct w. unfold logged. simpl. by rewrite app_nil_r. Qed.

Lemma logged_logged cs1 cs2 w : logged cs2 (logged cs1 w) = logged (cs1 ++ cs2) w.
Proof. unfold logged. simpl. by rewrite app_assoc. Qed.

Lemma call_run c w : call c w = (Ok tt, logged [c] w).
Proof. reflexivity. Qed.

(** Runs a straight-line computation by unfolding the monad. *)
Ltac unfold_monad :=
  unfold mbind, M_bind, mret, M_ret, call, this, assign, throw, undefined, value, logged;
  simpl.

(** ** Swapchain negotiation policies *)

Lemma selectSwapSurfaceFormat_loop_Some availableFormats found :
  selectSwapSurfaceFormat_loop availableFormats = Some found →
  found ∈ availableFormats ∧ isPreferredFormat found.
Proof.
  induction availableFormats as [|f rest IH]; simpl; [done|].
  destruct (format f =? _) eqn:Hf; simpl.
  - destruct (colorSpace f =? _) eqn:Hc; simpl.
    + intros [= <-]. split; [left|]. split; lia.
    + intros H. destruct (IH H). split; [by right|done].
  - intros H. destruct (IH H). split; [by right|done].
Qed.

Lemma selectSwapSurfaceFormat_loop_None availableFormats :
  selectSwapSurfaceFormat_loop availableFormats = None →
  ∀ f, f ∈ availableFormats → ¬ isPreferredFormat f.
Proof.
  induction availableFormats as [|f rest IH]; simpl.
  - intros _ g Hg. by apply not_elem_of_nil in Hg.
  - destruct (format f =? _) eqn:Hf; simpl.
    + destruct (colorSpace f =? _) eqn:Hc; simpl; [done|].
      intros H g [->|Hg]%elem_of_cons; [|by apply IH].
      intros [_ ?]. lia.
    + intros H g [->|Hg]%elem_of_cons; [|by apply IH].
      intros [? _]. lia.
Qed.

(** C6.  On a non-empty list of surface formats the selection returns an
    entry of the list; that entry is BGRA-8 sRGB with the non-linear sRGB
    colour space whenever the list holds such an entry, wherever it stands,
    and it is the first entry of the list when the list holds none. *)
Theorem selectSwapSurfaceFormat_prefers_bgra_srgb
    (availableFormats : list VkSurfaceFormatKHR) :
  availableFormats ≠ [] →
  ∃ chosen,
    selectSwapSurfaceFormat availableFormats = Some chosen
    ∧ chosen ∈ availableFormats
    ∧ ((∃ f, f ∈ availableFormats ∧ isPreferredFormat f) → isPreferredFormat chosen)
    ∧ ((∀ f, f ∈ availableFormats → ¬ isPreferredFormat f) →
       availableFormats !! 0%nat = Some chosen).
Proof.
  intros Hne. unfold selectSwapSurfaceFormat.
  destruct (selectSwapSurfaceFormat_loop availableFormats) as [found|] eqn:Hloop.
  - destruct (selectSwapSurfaceFormat_loop_Some _ _ Hloop) as [Hin Hpref].
    exists found. split; [done|]. split; [done|]. split; [done|].
    intros Hnone. by destruct (Hnone found Hin).
  - destruct availableFormats as [|first rest]; [done|].
    exists first. split; [done|]. split; [left|]. split; [|done].
    intros (f & Hf & Hp).
    by destruct (selectSwapSurfaceFormat_loop_None _ Hloop f Hf).
Qed.

Lemma selectSwapSurfaceFormat_prefers_bgra_srgb_witness :
  ∃ chosen,
    selectSwapSurfaceFormat [mkSurfaceFormat 44 0; mkSurfaceFormat 50 0] = Some chosen
    ∧ chosen ∈ [mkSurfaceFormat 44 0; mkSurfaceFormat 50 0]
    ∧ ((∃ f, f ∈ [mkSurfaceFormat 44 0; mkSurfaceFormat 50 0] ∧ isPreferredFormat f) →
       isPreferredFormat chosen)
    ∧ ((∀ f, f ∈ [mkSurfaceFormat 44 0; mkSurfaceFormat 50 0] → ¬ isPreferredFormat f) →
       [mkSurfaceFormat 44 0; mkSurfaceFormat 50 0] !! 0%nat = Some chosen).
Proof.
  apply (selectSwapSurfaceFormat_prefers_bgra_srgb
           [mkSurfaceFormat 44 0; mkSurfaceFormat 50 0]).
  discriminate.
Defined.

Example selectSwapSurfaceFormat_last_position :
  selectSwapSurfaceFormat
    [mkSurfaceFormat 44 0; mkSurfaceFormat 37 0; mkSurfaceFormat 50 0]
  = Some (mkSurfaceFormat 50 0).
Proof. reflexivity. Qed.

Example selectSwapSurfaceFormat_fallback :
  selectSwapSurfaceFormat [mkSurfaceFormat 44 0; mkSurfaceFormat 50 1]
  = Some (mkSurfaceFormat 44 0).
Proof. reflexivity. Qed.

(** C7.  Present-mode selection is total: it returns mailbox when mailbox is
    in the list and FIFO otherwise, whether or not FIFO is in the list. *)
Theorem selectSwapPresentMode_mailbox_else_fifo
    (availablePresentModes : list VkPresentModeKHR) :
  (VK_PRESENT_MODE_MAILBOX_KHR ∈ availablePresentModes →
   selectSwapPresentMode availablePresentModes = VK_PRESENT_MODE_MAILBOX_KHR)
  ∧ (VK_PRESENT_MODE_MAILBOX_KHR ∉ availablePresentModes →
     selectSwapPresentMode availablePresentModes = VK_PRESENT_MODE_FIFO_KHR).
Proof.
  induction availablePresentModes as [|mode rest [IHin IHout]]; simpl.
  - split; [|done]. intros H. by apply not_elem_of_nil in H.
  - destruct (mode =? VK_PRESENT_MODE_MAILBOX_KHR) eqn:Hm.
    + split; [intros _; lia|]. intros Hout. exfalso. apply Hout.
      apply elem_of_cons. left. lia.
    + split.
      * intros [Heq|Hin]%elem_of_cons; [lia|by apply IHin].
      * intros Hout. apply IHout. intros Hin. apply Hout. by right.
Qed.

Lemma selectSwapPresentMode_mailbox_else_fifo_witness :
  selectSwapPresentMode [0; VK_PRESENT_MODE_MAILBOX_KHR; 2] = VK_PRESENT_MODE_MAILBOX_KHR
  ∧ selectSwapPresentMode [0; 3] = VK_PRESENT_MODE_FIFO_KHR.
Proof.
  split.
  - apply (selectSwapPresentMode_mailbox_else_fifo [0; VK_PRESENT_MODE_MAILBOX_KHR; 2]).
    right. left.
  - apply (selectSwapPresentMode_mailbox_else_fifo [0; 3]).
    intros H. apply elem_of_cons in H as [H|H]; [discriminate|].
    apply elem_of_cons in H as [H|H]; [discriminate|].
    by apply not_elem_of_nil in H.
Defined.

(** C9.  With [minImageCount + 1] representable in 32 bits, the requested
    image count is [minImageCount + 1], lowered to [maxImageCount] exactly
    when [maxImageCount] is nonzero and smaller than that sum; a zero
    [maxImageCount] puts no bound.  So min 2 with max 0, 3 or 8 gives 3. *)
Theorem imageCount_min_plus_one_capped :
  (∀ capabilities : VkSurfaceCapabilitiesKHR,
     0 ≤ minImageCount capabilities < UINT32_MAX →
     0 ≤ maxImageCount capabilities ≤ UINT32_MAX →
     (maxImageCount capabilities = 0 →
      imageCount capabilities = minImageCount capabilities + 1)
     ∧ (maxImageCount capabilities ≠ 0 →
        imageCount capabilities
        = Z.min (minImageCount capabilities + 1) (maxImageCount capabilities)))
  ∧ (∀ current smallest largest transform,
       imageCount (mkCapabilities 2 0 current smallest largest transform) = 3
       ∧ imageCount (mkCapabilities 2 3 current smallest largest transform) = 3
       ∧ imageCount (mkCapabilities 2 8 current smallest largest transform) = 3).
Proof.
  split; [|done].
  intros capabilities. unfold imageCount, to_uint32, UINT32_MAX. intros Hmin Hmax.
  rewrite Z.mod_small by lia.
  destruct (maxImageCount capabilities >? 0) eqn:H0;
    destruct (minImageCount capabilities + 1 >? maxImageCount capabilities) eqn:H1;
    simpl; split; intros; lia.
Qed.

Lemma imageCount_min_plus_one_capped_witness :
  imageCount (mkCapabilities 5 4 (mkExtent 0 0) (mkExtent 0 0) (mkExtent 0 0) 0)
  = Z.min (5 + 1) 4.
Proof.
  refine (proj2 (proj1 imageCount_min_plus_one_capped
                   (mkCapabilities 5 4 (mkExtent 0 0) (mkExtent 0 0) (mkExtent 0 0) 0)
                   _ _) _);
    simpl; unfold UINT32_MAX; lia.
Defined.

(** ** Capability negotiation *)

Lemma layerFound_iff name (availableLayers : list VkLayerProperties) :
  layerFound name availableLayers = true ↔ name ∈ layerName <$> availableLayers.
Proof.
  induction availableLayers as [|layer rest IH]; simpl.
  - split; [done|]. intros H. by apply not_elem_of_nil in H.
  - rewrite elem_of_cons. destruct (String.eqb_spec name (layerName layer)) as [->|Hne].
    + split; auto.
    + rewrite IH. split; [auto|]. by intros [?|?].
Qed.

Lemma checkValidationLayerSupport_loop_iff required availableLayers :
  checkValidationLayerSupport_loop required availableLayers = true
  ↔ layersAvailable required availableLayers.
Proof.
  unfold layersAvailable. induction required as [|name rest IH]; simpl.
  - split; [|done]. intros _ n H. by apply not_elem_of_nil in H.
  - destruct (layerFound name availableLayers) eqn:Hfound; simpl.
    + rewrite IH. apply layerFound_iff in Hfound. split.
      * intros H n [->|Hn]%elem_of_cons; auto.
      * intros H n Hn. apply H. by right.
    + split; [done|]. intros H.
      assert (layerFound name availableLayers = true) as Hyes
        by (apply layerFound_iff, H; by left).
      congruence.
Qed.

Lemma eraseAvailable_difference (required : gset string)
    (availableExtensions : list VkExtensionProperties) :
  foldl (λ requiredExtensions extension,
           requiredExtensions ∖ {[ extensionName extension ]})
        required availableExtensions
  = required ∖ list_to_set (extensionName <$> availableExtensions).
Proof.
  revert required.
  induction availableExtensions as [|extension rest IH]; intros required; simpl.
  - by rewrite difference_empty_L.
  - by rewrite IH, difference_difference_l_L.
Qed.

Lemma checkExtensionsErased_iff required availableExtensions :
  checkExtensionsErased required availableExtensions = true
  ↔ extensionsAvailable required availableExtensions.
Proof.
  unfold checkExtensionsErased, eraseAvailable, extensionsAvailable.
  rewrite eraseAvailable_difference, bool_decide_eq_true.
  split.
  - intros Hempty name Hname.
    destruct (decide (name ∈ extensionName <$> availableExtensions)) as [|Hout]; [done|].
    assert (name ∈ (list_to_set required : gset string)
                     ∖ list_to_set (extensionName <$> availableExtensions)) as Hin
      by set_solver.
    rewrite Hempty in Hin. set_solver.
  - intros Hall. apply set_eq. intros name. split; [|set_solver].
    rewrite elem_of_difference, !elem_of_list_to_set.
    intros [Hreq Hout]. destruct Hout. by apply Hall.
Qed.

(** C3.  Both subset checks, the nested [strcmp] loops of the layer check and
    the erase-from-a-set of the extension check, answer [true] exactly when
    every required name is the name of an available entry.  Names compare by
    exact string equality, so a name in another letter case does not count.
    The answer only depends on which names occur in each list, hence neither
    on their order nor on repetitions.  The member functions apply the checks
    to the lists the driver reports. *)
Theorem subset_check_iff_every_required_name_available :
  (∀ required availableLayers,
     checkValidationLayerSupport_loop required availableLayers = true
     ↔ layersAvailable required availableLayers)
  ∧ (∀ required availableExtensions,
       checkExtensionsErased required availableExtensions = true
       ↔ extensionsAvailable required availableExtensions)
  ∧ (∀ required required' availableLayers availableLayers',
       (∀ name, name ∈ required ↔ name ∈ required') →
       (∀ name, name ∈ layerName <$> availableLayers
                ↔ name ∈ layerName <$> availableLayers') →
       checkValidationLayerSupport_loop required availableLayers
       = checkValidationLayerSupport_loop required' availableLayers')
  ∧ (∀ required required' availableExtensions availableExtensions',
       (∀ name, name ∈ required ↔ name ∈ required') →
       (∀ name, name ∈ extensionName <$> availableExtensions
                ↔ name ∈ extensionName <$> availableExtensions') →
       checkExtensionsErased required availableExtensions
       = checkExtensionsErased required' availableExtensions')
  ∧ checkExtensionsErased ["VK_KHR_swapchain"] [mkExtension "vk_khr_swapchain" 70] = false
  ∧ checkValidationLayerSupport_loop ["VK_LAYER_KHRONOS_validation"]
      [mkLayer "VK_LAYER_KHRONOS_VALIDATION"] = false
  ∧ (∀ drv w,
       eval (checkValidationLayerSupport drv) w
       = Ok (checkValidationLayerSupport_loop VALIDATION_LAYERS (drv_instanceLayers drv)))
  ∧ (∀ drv device w,
       eval (checkDeviceExtensionSupport drv device) w
       = Ok (checkExtensionsErased DEVICE_EXTENSIONS (drv_deviceExtensions drv device))).
Proof.
  split; [apply checkValidationLayerSupport_loop_iff|].
  split; [apply checkExtensionsErased_iff|].
  split.
  { intros required required' available available' Hreq Hav.
    apply eq_true_iff_eq. rewrite !checkValidationLayerSupport_loop_iff.
    unfold layersAvailable. split; intros H name Hname; apply Hav, H, Hreq, Hname. }
  split.
  { intros required required' available available' Hreq Hav.
    apply eq_true_iff_eq. rewrite !checkExtensionsErased_iff.
    unfold extensionsAvailable. split; intros H name Hname; apply Hav, H, Hreq, Hname. }
  split; [by vm_compute|]. split; [by vm_compute|]. done.
Qed.

Lemma subset_check_iff_every_required_name_available_witness :
  checkExtensionsErased ["b"; "a"] [mkExtension "a" 1; mkExtension "b" 2; mkExtension "c" 3]
  = checkExtensionsErased ["a"; "b"; "a"] [mkExtension "c" 1; mkExtension "b" 1;
                                            mkExtension "a" 7; mkExtension "c" 2].
Proof.
  apply (proj1 (proj2 (proj2 (proj2 subset_check_iff_every_required_name_available)))).
  - intros name. rewrite !elem_of_cons. pose proof (not_elem_of_nil name). tauto.
  - intros name. simpl. rewrite !elem_of_cons. pose proof (not_elem_of_nil name). tauto.
Defined.

(** ** Extent selection *)

Lemma to_uint32_small x : 0 ≤ x ≤ UINT32_MAX → to_uint32 x = x.
Proof. unfold to_uint32, UINT32_MAX. intros. apply Z.mod_small. lia. Qed.

Lemma std_clamp_spec v lo hi :
  lo ≤ hi → std_clamp v lo hi = Z.max lo (Z.min v hi).
Proof. unfold std_clamp. intros. destruct (v <? lo) eqn:?, (hi <? v) eqn:?; lia. Qed.

Lemma selectSwapExtent_sentinel drv capabilities w :
  width (currentExtent capabilities) = UINT32_MAX →
  selectSwapExtent drv capabilities w
  = (Ok (actualExtent capabilities (fst (drv_glfwGetWindowSize drv))
                                   (snd (drv_glfwGetWindowSize drv))),
     logged [GlfwGetWindowSize (m_window (app w))] w).
Proof.
  intros Hw. unfold selectSwapExtent. rewrite Hw. simpl.
  destruct (drv_glfwGetWindowSize drv) as [_width _height]. reflexivity.
Qed.

Lemma selectSwapExtent_defined drv capabilities w :
  width (currentExtent capabilities) ≠ UINT32_MAX →
  selectSwapExtent drv capabilities w = (Ok (currentExtent capabilities), w).
Proof.
  intros Hw. unfold selectSwapExtent.
  destruct (width (currentExtent capabilities) =? UINT32_MAX) eqn:He; [lia|done].
Qed.

(** C8.  When the width of the current extent is not the all-ones "undefined"
    value, extent selection returns the current extent as it is and calls
    nothing.  When it is, the result is the window size reported by GLFW
    (non-negative [int]s), each axis clamped on its own into the interval from
    the minimum to the maximum image extent of that axis.  A window of
    1920x1080 under a maximum extent of 1280x720 yields 1280x720. *)
Theorem selectSwapExtent_current_or_clamped_window_size :
  (∀ drv capabilities w,
     width (currentExtent capabilities) ≠ UINT32_MAX →
     selectSwapExtent drv capabilities w = (Ok (currentExtent capabilities), w))
  ∧ (∀ drv capabilities w windowWidth windowHeight,
       width (currentExtent capabilities) = UINT32_MAX →
       drv_glfwGetWindowSize drv = (windowWidth, windowHeight) →
       0 ≤ windowWidth ≤ INT_MAX →
       0 ≤ windowHeight ≤ INT_MAX →
       width (minImageExtent capabilities) ≤ width (maxImageExtent capabilities) →
       height (minImageExtent capabilities) ≤ height (maxImageExtent capabilities) →
       ∃ extent,
         eval (selectSwapExtent drv capabilities) w = Ok extent
         ∧ width extent
           = Z.max (width (minImageExtent capabilities))
               (Z.min windowWidth (width (maxImageExtent capabilities)))
         ∧ height extent
           = Z.max (height (minImageExtent capabilities))
               (Z.min windowHeight (height (maxImageExtent capabilities)))
         ∧ width (minImageExtent capabilities) ≤ width extent
             ≤ width (maxImageExtent capabilities)
         ∧ height (minImageExtent capabilities) ≤ height extent
             ≤ height (maxImageExtent capabilities))
  ∧ (∀ drv capabilities w,
       width (currentExtent capabilities) = UINT32_MAX →
       drv_glfwGetWindowSize drv = (1920, 1080) →
       maxImageExtent capabilities = mkExtent 1280 720 →
       width (minImageExtent capabilities) ≤ 1280 →
       height (minImageExtent capabilities) ≤ 720 →
       eval (selectSwapExtent drv capabilities) w = Ok (mkExtent 1280 720)).
Proof.
  split; [|split].
  - apply selectSwapExtent_defined.
  - intros drv capabilities w ww wh Hw Hsize Hww Hwh Hx Hy.
    unfold eval. rewrite selectSwapExtent_sentinel by done. rewrite Hsize. simpl.
    eexists. split; [reflexivity|]. simpl.
    rewrite !to_uint32_small by (unfold UINT32_MAX, INT_MAX in *; lia).
    rewrite !std_clamp_spec by done. lia.
  - intros drv capabilities w Hw Hsize Hmax Hx Hy.
    unfold eval. rewrite selectSwapExtent_sentinel by done. rewrite Hsize. simpl.
    unfold actualExtent. rewrite Hmax. simpl.
    rewrite !to_uint32_small by (unfold UINT32_MAX; lia).
    rewrite !std_clamp_spec by done. do 2 f_equal; lia.
Qed.

Lemma selectSwapExtent_current_or_clamped_window_size_witness :
  selectSwapExtent script_ok
    (mkCapabilities 2 0 (mkExtent 1024 768) (mkExtent 1 1) (mkExtent 4096 4096) 1)
    World_init
  = (Ok (mkExtent 1024 768), World_init)
  ∧ eval (selectSwapExtent script_ok
            (mkCapabilities 2 0 (mkExtent UINT32_MAX UINT32_MAX) (mkExtent 900 1)
               (mkExtent 4096 500) 1)) World_init
    = Ok (mkExtent 900 500).
Proof.
  split.
  - apply (proj1 selectSwapExtent_current_or_clamped_window_size script_ok
             (mkCapabilities 2 0 (mkExtent 1024 768) (mkExtent 1 1) (mkExtent 4096 4096) 1)).
    simpl. unfold UINT32_MAX. lia.
  - destruct (proj1 (proj2 selectSwapExtent_current_or_clamped_window_size) script_ok
                (mkCapabilities 2 0 (mkExtent UINT32_MAX UINT32_MAX) (mkExtent 900 1)
                   (mkExtent 4096 500) 1) World_init 800 600)
      as (extent & Heval & Hwidth & Hheight & _);
      [reflexivity | reflexivity | unfold INT_MAX; lia | unfold INT_MAX; lia
      | simpl; lia | simpl; lia |].
    rewrite Heval. destruct extent as [w h]. simpl in Hwidth, Hheight.
    rewrite Hwidth, Hheight. reflexivity.
Defined.

(** ** The queue-family scan *)

Section Scan.

Variable drv : Driver.
Variable device : Handle.

Lemma findQueueFamilies_loop_run queueFamilies : ∀ i indices w,
  let presentSupport := λ k, drv_surfaceSupport drv device k (m_surface (app w)) in
  findQueueFamilies_loop drv device queueFamilies i indices w
  = (Ok (fst (scanFamilies presentSupport queueFamilies i indices)),
     logged (surfaceSupport_calls device (m_surface (app w)) i
               (snd (scanFamilies presentSupport queueFamilies i indices))) w).
Proof.
  induction queueFamilies as [|queueFamily rest IH]; intros i indices w; simpl.
  - unfold surfaceSupport_calls. rewrite seqZ_nil by done. simpl.
    by rewrite logged_nil.
  - rewrite bind_run. simpl. rewrite bind_run, call_run.
    set (indices1 := if negb (Z.land (queueFlags queueFamily) VK_QUEUE_GRAPHICS_BIT =? 0)
                     then _ else _).
    set (indices2 := if drv_surfaceSupport drv device (to_uint32 i) (m_surface (app w))
                     then _ else _).
    destruct (isComplete indices2) eqn:Hc.
    + reflexivity.
    + rewrite IH. simpl.
      destruct (scanFamilies _ rest (i + 1) indices2) as [found visited]. simpl.
      rewrite logged_logged. unfold surfaceSupport_calls.
      rewrite (seqZ_cons i (Z.of_nat (S visited))) by lia.
      rewrite fmap_cons.
      replace (Z.pred (Z.of_nat (S visited))) with (Z.of_nat visited) by lia.
      replace (Z.succ i) with (i + 1) by lia. reflexivity.
Qed.

Lemma findQueueFamilies_run w :
  findQueueFamilies drv device w
  = (Ok (fst (scanDevice drv device (m_surface (app w)))),
     logged (findQueueFamilies_calls device (m_surface (app w))
               (snd (scanDevice drv device (m_surface (app w))))) w).
Proof.
  unfold findQueueFamilies. rewrite bind_run, call_run, bind_run, call_run.
  rewrite findQueueFamilies_loop_run. simpl. rewrite !logged_logged.
  reflexivity.
Qed.

End Scan.

Lemma lastIndexBelow_step (P : Z → bool) n o :
  0 ≤ n →
  lastIndexBelow P n o →
  lastIndexBelow P (n + 1) (if P n then Some n else o).
Proof.
  intros Hn Hlast. destruct (P n) eqn:HP; simpl.
  - split; [lia|]. split; [done|]. intros j Hj. lia.
  - destruct o as [k|]; simpl in *.
    + destruct Hlast as (Hk & HPk & Hafter). split; [lia|]. split; [done|].
      intros j Hj. destruct (decide (j = n)) as [->|]; [done|]. apply Hafter. lia.
    + intros j Hj. destruct (decide (j = n)) as [->|]; [done|]. apply Hlast. lia.
Qed.

Lemma incomplete_not_bothSeenBelow (G P : Z → bool) n indices :
  lastIndexBelow G n (graphicsFamily indices) →
  lastIndexBelow P n (presentFamily indices) →
  isComplete indices = false →
  ¬ bothSeenBelow G P n.
Proof.
  destruct indices as [[g|] [p|]]; simpl; intros HG HP Hc [(g' & Hg' & HGg) (p' & Hp' & HPp)].
  - done.
  - rewrite HP in HPp by done. done.
  - rewrite HG in HGg by done. done.
  - rewrite HP in HPp by done. done.
Qed.

Section ScanSpec.

Variable presentSupport : Z → bool.
Variable families : list VkQueueFamilyProperties.
Hypothesis families_bound : Z.of_nat (length families) ≤ INT_MAX.

Lemma scanFamilies_spec rest : ∀ pre indices found visited,
  families = pre ++ rest →
  lastIndexBelow (graphicsCapable families) (Z.of_nat (length pre)) (graphicsFamily indices) →
  lastIndexBelow presentSupport (Z.of_nat (length pre)) (presentFamily indices) →
  isComplete indices = false →
  scanFamilies presentSupport rest (Z.of_nat (length pre)) indices = (found, visited) →
  let n := Z.of_nat (length pre) + Z.of_nat visited in
  n ≤ Z.of_nat (length families)
  ∧ lastIndexBelow (graphicsCapable families) n (graphicsFamily found)
  ∧ lastIndexBelow presentSupport n (presentFamily found)
  ∧ (if isComplete found
     then ¬ bothSeenBelow (graphicsCapable families) presentSupport (n - 1)
     else n = Z.of_nat (length families)).
Proof.
  induction rest as [|queueFamily rest IH];
    intros pre indices found visited Hfam HG HP Hc; simpl.
  - intros [= <- <-]. simpl. rewrite Z.add_0_r.
    assert (pre = families) as -> by (by rewrite Hfam, app_nil_r).
    rewrite Hc. done.
  - set (i := Z.of_nat (length pre)).
    assert (0 ≤ i ≤ UINT32_MAX) as Hi.
    { subst i. rewrite Hfam, length_app in families_bound. simpl in families_bound.
      unfold INT_MAX, UINT32_MAX in *. lia. }
    rewrite to_uint32_small by done.
    assert (graphicsCapable families i
            = negb (Z.land (queueFlags queueFamily) VK_QUEUE_GRAPHICS_BIT =? 0)) as HGi.
    { unfold graphicsCapable. subst i. rewrite Nat2Z.id, Hfam.
      by rewrite list_lookup_middle. }
    rewrite <- HGi.
    pose proof (lastIndexBelow_step _ _ _ (proj1 Hi) HG) as HG1.
    pose proof (lastIndexBelow_step _ _ _ (proj1 Hi) HP) as HP1.
    set (indices1 := if graphicsCapable families i then _ else indices).
    assert (graphicsFamily indices1
            = if graphicsCapable families i then Some i else graphicsFamily indices)
      as Hg1 by (subst indices1; by destruct (graphicsCapable families i)).
    assert (presentFamily indices1 = presentFamily indices)
      as Hp1 by (subst indices1; by destruct (graphicsCapable families i)).
    set (indices2 := if presentSupport i then _ else indices1).
    assert (graphicsFamily indices2 = graphicsFamily indices1)
      as Hg2 by (subst indices2; by destruct (presentSupport i)).
    assert (presentFamily indices2
            = if presentSupport i then Some i else presentFamily indices1)
      as Hp2 by (subst indices2; by destruct (presentSupport i)).
    rewrite <- Hg1, <- Hg2 in HG1. rewrite <- Hp1, <- Hp2 in HP1.
    clearbody indices2. clear Hg2 Hp2.
    destruct (isComplete indices2) eqn:Hc2.
    + intros [= <- <-]. simpl.
      replace (i + Z.of_nat 1 - 1) with i by lia.
      replace (i + Z.of_nat 1) with (i + 1) by lia. rewrite Hc2.
      split; [|split; [done|split; [done|]]].
      * rewrite Hfam, length_app. simpl. lia.
      * by apply (incomplete_not_bothSeenBelow _ _ _ indices).
    + destruct (scanFamilies presentSupport rest (i + 1) indices2)
        as [found' visited'] eqn:Hscan.
      intros [= <- <-].
      specialize (IH (pre ++ [queueFamily]) indices2 found' visited').
      rewrite length_app in IH. simpl in IH.
      replace (Z.of_nat (length pre + 1)) with (i + 1) in IH by lia.
      replace (i + Z.of_nat (S visited')) with (i + 1 + Z.of_nat visited') by lia.
      apply IH; try done. by rewrite <- app_assoc.
Qed.

End ScanSpec.

Lemma surfaceSupport_calls_in_range device surface i visited :
  0 ≤ i →
  i + Z.of_nat visited ≤ UINT32_MAX + 1 →
  surfaceSupport_calls device surface i visited
  = (λ k, VkGetPhysicalDeviceSurfaceSupportKHR device k surface)
      <$> seqZ i (Z.of_nat visited).
Proof.
  intros Hi Hn. unfold surfaceSupport_calls.
  apply list_fmap_ext. intros j k Hk.
  apply lookup_seqZ in Hk as [-> Hj].
  rewrite to_uint32_small by lia. done.
Qed.

(** C1 (as the code has it).  For a device that reports at most [INT_MAX]
    queue families, the scan visits the families in index order, asking the
    present-support question once per visited family, and stops right after
    the first index by which both a graphics-capable family and a
    present-capable family have been seen; without such an index it visits all
    families.  [graphicsFamily] is the last visited index with the graphics
    bit and [presentFamily] the last visited index with present support, each
    absent when no visited family qualifies.  (So a capability offered by
    several visited families is reported at the last of them, and when the
    family the scan stops at offers both, both indices equal it.) *)
Theorem findQueueFamilies_last_seen_until_both_found drv device w :
  Z.of_nat (length (drv_queueFamilyProperties drv device)) ≤ INT_MAX →
  ∃ indices visited,
    findQueueFamilies drv device w
    = (Ok indices,
       logged ([VkGetPhysicalDeviceQueueFamilyProperties device;
                VkGetPhysicalDeviceQueueFamilyProperties device]
               ++ ((λ i, VkGetPhysicalDeviceSurfaceSupportKHR device i (m_surface (app w)))
                     <$> seqZ 0 visited)) w)
    ∧ 0 ≤ visited ≤ Z.of_nat (length (drv_queueFamilyProperties drv device))
    ∧ lastIndexBelow (graphicsCapable (drv_queueFamilyProperties drv device))
        visited (graphicsFamily indices)
    ∧ lastIndexBelow (λ i, drv_surfaceSupport drv device i (m_surface (app w)))
        visited (presentFamily indices)
    ∧ (if isComplete indices
       then ¬ bothSeenBelow (graphicsCapable (drv_queueFamilyProperties drv device))
                (λ i, drv_surfaceSupport drv device i (m_surface (app w)))
                (visited - 1)
       else visited = Z.of_nat (length (drv_queueFamilyProperties drv device))).
Proof.
  intros Hbound. rewrite findQueueFamilies_run. unfold scanDevice.
  destruct (scanFamilies _ (drv_queueFamilyProperties drv device) 0 _)
    as [found visited] eqn:Hscan.
  destruct (scanFamilies_spec
              (λ i, drv_surfaceSupport drv device i (m_surface (app w)))
              _ Hbound (drv_queueFamilyProperties drv device)
              [] {| graphicsFamily := None; presentFamily := None |}
              found visited) as (Hn & HG & HP & Hstop);
    [done | intros j Hj; simpl in Hj; lia | intros j Hj; simpl in Hj; lia
    | done | exact Hscan |].
  simpl in Hn, HG, HP, Hstop.
  exists found, (Z.of_nat visited). simpl. unfold findQueueFamilies_calls.
  rewrite surfaceSupport_calls_in_range
    by (unfold INT_MAX, UINT32_MAX in *; lia).
  split; [done|]. split; [lia|]. done.
Qed.

Lemma findQueueFamilies_last_seen_until_both_found_witness :
  ∃ indices visited,
    findQueueFamilies script_ok 500 World_init
    = (Ok indices,
       logged ([VkGetPhysicalDeviceQueueFamilyProperties 500;
                VkGetPhysicalDeviceQueueFamilyProperties 500]
               ++ ((λ i, VkGetPhysicalDeviceSurfaceSupportKHR 500 i
                           (m_surface (app World_init)))
                     <$> seqZ 0 visited)) World_init)
    ∧ 0 ≤ visited ≤ Z.of_nat (length (drv_queueFamilyProperties script_ok 500))
    ∧ lastIndexBelow (graphicsCapable (drv_queueFamilyProperties script_ok 500))
        visited (graphicsFamily indices)
    ∧ lastIndexBelow (λ i, drv_surfaceSupport script_ok 500 i (m_surface (app World_init)))
        visited (presentFamily indices)
    ∧ (if isComplete indices
       then ¬ bothSeenBelow (graphicsCapable (drv_queueFamilyProperties script_ok 500))
                (λ i, drv_surfaceSupport script_ok 500 i (m_surface (app World_init)))
                (visited - 1)
       else visited = Z.of_nat (length (drv_queueFamilyProperties script_ok 500))).
Proof.
  apply (findQueueFamilies_last_seen_until_both_found script_ok 500 World_init).
  simpl. unfold INT_MAX. lia.
Defined.

(** C1 as the design document words it does not hold: on a device whose
    families 0 and 1 both have the graphics bit and whose family 2 alone can
    present, the scan reports graphics family 1, not the first one. *)
Lemma findQueueFamilies_not_the_first_index :
  eval (findQueueFamilies script_ok 500) World_init
  = Ok {| graphicsFamily := Some 1; presentFamily := Some 2 |}
  ∧ firstFamilies script_ok 500 (m_surface (app World_init))
    = {| graphicsFamily := Some 0; presentFamily := Some 2 |}
  ∧ eval (findQueueFamilies script_ok 500) World_init
    ≠ Ok (firstFamilies script_ok 500 (m_surface (app World_init))).
Proof.
  split; [by vm_compute|]. split; [by vm_compute|]. by vm_compute.
Qed.

(** ** Device suitability *)

Lemma checkDeviceExtensionSupport_run drv device w :
  checkDeviceExtensionSupport drv device w
  = (Ok (checkExtensionsErased DEVICE_EXTENSIONS (drv_deviceExtensions drv device)),
     logged [VkEnumerateDeviceExtensionProperties device;
             VkEnumerateDeviceExtensionProperties device] w).
Proof.
  unfold checkDeviceExtensionSupport. rewrite bind_run, call_run, bind_run, call_run.
  by rewrite logged_logged.
Qed.

Lemma querySwapChainSupport_run drv device w :
  querySwapChainSupport drv device w
  = (Ok {| capabilities := drv_surfaceCapabilities drv device (m_surface (app w));
           formats := drv_surfaceFormats drv device (m_surface (app w));
           presentModes := drv_surfacePresentModes drv device (m_surface (app w)) |},
     logged (querySwapChainSupport_calls drv device (m_surface (app w))) w).
Proof.
  unfold querySwapChainSupport, querySwapChainSupport_calls.
  destruct (drv_surfaceFormats drv device (m_surface (app w))) as [|f fs] eqn:Hf;
    destruct (drv_surfacePresentModes drv device (m_surface (app w))) as [|p ps] eqn:Hp;
    unfold_monad; rewrite ?Hf, ?Hp; simpl; rewrite ?Hp; simpl; rewrite <- ?app_assoc; reflexivity.
Qed.

Lemma isPhysicalDeviceSuitable_run drv device w :
  isPhysicalDeviceSuitable drv device w
  = (Ok (suitable drv (m_surface (app w)) device),
     logged (isPhysicalDeviceSuitable_calls drv (m_surface (app w)) device) w).
Proof.
  unfold isPhysicalDeviceSuitable, suitable, isPhysicalDeviceSuitable_calls.
  rewrite bind_run, findQueueFamilies_run.
  rewrite bind_run, checkDeviceExtensionSupport_run. simpl.
  destruct (checkExtensionsErased DEVICE_EXTENSIONS (drv_deviceExtensions drv device)).
  - rewrite !bind_run, querySwapChainSupport_run. unfold mret, M_ret.
    rewrite !logged_logged. do 2 f_equal.
    unfold findQueueFamilies_calls. simpl. by rewrite <- ?app_assoc.
  - rewrite bind_run. unfold mret, M_ret.
    rewrite !logged_logged. do 2 f_equal. by rewrite !andb_false_r.
Qed.

Lemma findQueueFamilies_calls_no_swapchain_query device surface visited c :
  c ∈ findQueueFamilies_calls device surface visited → isSwapChainQuery c = false.
Proof.
  unfold findQueueFamilies_calls, surfaceSupport_calls.
  rewrite elem_of_app, !elem_of_cons, list_elem_of_fmap.
  intros [[->| [->|H]]|(k & -> & _)]; try done. by apply not_elem_of_nil in H.
Qed.

(** C4.  [isPhysicalDeviceSuitable] always answers, and answers [true]
    exactly when the queue-family indices of the device are complete, every
    required device extension is available, and both the surface-format list
    and the present-mode list are non-empty; so it answers [false] with
    incomplete indices, [false] with a required extension missing whatever
    the indices, and [false] with the extensions present but an empty format
    or present-mode list.  The three swapchain-support queries are made when
    the extension check holds, and none of them is made when it fails. *)
Theorem isPhysicalDeviceSuitable_iff_indices_extensions_swapchain drv device w :
  ∃ answer cs indices,
    isPhysicalDeviceSuitable drv device w = (Ok answer, logged cs w)
    ∧ eval (findQueueFamilies drv device) w = Ok indices
    ∧ (isComplete indices = false → answer = false)
    ∧ (¬ extensionsAvailable DEVICE_EXTENSIONS (drv_deviceExtensions drv device) →
       answer = false)
    ∧ (extensionsAvailable DEVICE_EXTENSIONS (drv_deviceExtensions drv device) →
       drv_surfaceFormats drv device (m_surface (app w)) = []
       ∨ drv_surfacePresentModes drv device (m_surface (app w)) = [] →
       answer = false)
    ∧ (answer = true
       ↔ isComplete indices = true
         ∧ extensionsAvailable DEVICE_EXTENSIONS (drv_deviceExtensions drv device)
         ∧ drv_surfaceFormats drv device (m_surface (app w)) ≠ []
         ∧ drv_surfacePresentModes drv device (m_surface (app w)) ≠ [])
    ∧ (extensionsAvailable DEVICE_EXTENSIONS (drv_deviceExtensions drv device) →
       VkGetPhysicalDeviceSurfaceCapabilitiesKHR device (m_surface (app w)) ∈ cs
       ∧ VkGetPhysicalDeviceSurfaceFormatsKHR device (m_surface (app w)) ∈ cs
       ∧ VkGetPhysicalDeviceSurfacePresentModesKHR device (m_surface (app w)) ∈ cs)
    ∧ (¬ extensionsAvailable DEVICE_EXTENSIONS (drv_deviceExtensions drv device) →
       ∀ c, c ∈ cs → isSwapChainQuery c = false).
Proof.
  exists (suitable drv (m_surface (app w)) device),
         (isPhysicalDeviceSuitable_calls drv (m_surface (app w)) device),
         (fst (scanDevice drv device (m_surface (app w)))).
  split; [apply isPhysicalDeviceSuitable_run|].
  split; [unfold eval; by rewrite findQueueFamilies_run|].
  assert (suitable drv (m_surface (app w)) device = true
          ↔ isComplete (fst (scanDevice drv device (m_surface (app w)))) = true
            ∧ extensionsAvailable DEVICE_EXTENSIONS (drv_deviceExtensions drv device)
            ∧ drv_surfaceFormats drv device (m_surface (app w)) ≠ []
            ∧ drv_surfacePresentModes drv device (m_surface (app w)) ≠ []) as Hiff.
  { unfold suitable. rewrite !andb_true_iff, !negb_true_iff, !bool_decide_eq_false.
    rewrite checkExtensionsErased_iff. tauto. }
  split.
  { intros Hc. apply not_true_is_false. rewrite Hiff. intros [? _]. congruence. }
  split.
  { intros Hext. apply not_true_is_false. rewrite Hiff. tauto. }
  split.
  { intros _ Hempty. apply not_true_is_false. rewrite Hiff. tauto. }
  split; [exact Hiff|]. unfold isPhysicalDeviceSuitable_calls.
  split.
  - intros Hext. apply checkExtensionsErased_iff in Hext. rewrite Hext.
    unfold querySwapChainSupport_calls. rewrite !elem_of_app.
    split; [|split]; right; right.
    + left. apply elem_of_cons. by left.
    + left. apply elem_of_cons. right. apply elem_of_cons. by left.
    + right. right. left. apply elem_of_cons. by left.
  - intros Hext.
    destruct (checkExtensionsErased DEVICE_EXTENSIONS (drv_deviceExtensions drv device))
      eqn:Hcheck; [by apply checkExtensionsErased_iff in Hcheck|].
    intros c. rewrite !elem_of_app, !elem_of_cons.
    intros [Hc|[[->|[->|Hc]]|Hc]]; try done.
    + by eapply findQueueFamilies_calls_no_swapchain_query.
    + by apply not_elem_of_nil in Hc.
    + by apply not_elem_of_nil in Hc.
Qed.

(** ** Physical-device selection *)

Lemma isPhysicalDeviceSuitable_eval drv device w answer :
  eval (isPhysicalDeviceSuitable drv device) w = Ok answer
  ↔ suitable drv (m_surface (app w)) device = answer.
Proof.
  unfold eval. rewrite isPhysicalDeviceSuitable_run. simpl.
  split; [by intros [= ->]|by intros ->].
Qed.

Lemma selectPhysicalDevice_loop_run drv physicalDevices : ∀ selected w,
  selectPhysicalDevice_loop drv physicalDevices selected w
  = (Ok (default selected (List.find (suitable drv (m_surface (app w))) physicalDevices)),
     logged (concat (isPhysicalDeviceSuitable_calls drv (m_surface (app w))
                       <$> examined drv (m_surface (app w)) physicalDevices)) w).
Proof.
  induction physicalDevices as [|physicalDevice rest IH]; intros selected w; simpl.
  - by rewrite logged_nil.
  - rewrite bind_run, isPhysicalDeviceSuitable_run.
    destruct (suitable drv (m_surface (app w)) physicalDevice); simpl.
    + by rewrite app_nil_r.
    + rewrite IH. simpl. by rewrite logged_logged.
Qed.

Lemma find_first_suitable {A} (P : A → bool) before x after :
  (∀ y, y ∈ before → P y = false) → P x = true →
  List.find P (before ++ x :: after) = Some x.
Proof.
  intros Hbefore Hx. induction before as [|y before IH]; simpl.
  - by rewrite Hx.
  - rewrite Hbefore by (by left). apply IH. intros z Hz. apply Hbefore. by right.
Qed.

Lemma find_none_suitable {A} (P : A → bool) l :
  (∀ y, y ∈ l → P y = false) → List.find P l = None.
Proof.
  induction l as [|y l IH]; intros Hall; simpl; [done|].
  rewrite Hall by (by left). apply IH. intros z Hz. apply Hall. by right.
Qed.

(** C5.  Physical-device selection throws the "no GPU" error when the driver
    enumerates no device.  Otherwise it walks the devices in enumeration order
    and selects the first one [isPhysicalDeviceSuitable] accepts (whatever
    comes after it, suitable or not: there is no ranking): afterwards
    [m_physicalDevice] is that device and every other member is what it was.
    When the driver enumerates devices and none of them is suitable, it throws
    the "no suitable GPU" error.  Neither error changes a member. *)
Theorem selectPhysicalDevice_first_suitable_or_error drv w :
  (drv_physicalDevices drv = [] →
   eval (selectPhysicalDevice drv) w = Fail (Thrown NoGPUError)
   ∧ app (exec (selectPhysicalDevice drv) w) = app w)
  ∧ (∀ before device after,
       drv_physicalDevices drv = before ++ device :: after →
       (∀ d, d ∈ before → eval (isPhysicalDeviceSuitable drv d) w = Ok false) →
       eval (isPhysicalDeviceSuitable drv device) w = Ok true →
       device ≠ VK_NULL_HANDLE →
       eval (selectPhysicalDevice drv) w = Ok tt
       ∧ m_physicalDevice (app (exec (selectPhysicalDevice drv) w)) = device
       ∧ m_window (app (exec (selectPhysicalDevice drv) w)) = m_window (app w)
       ∧ m_instance (app (exec (selectPhysicalDevice drv) w)) = m_instance (app w)
       ∧ m_debugMessenger (app (exec (selectPhysicalDevice drv) w))
         = m_debugMessenger (app w)
       ∧ m_surface (app (exec (selectPhysicalDevice drv) w)) = m_surface (app w)
       ∧ m_device (app (exec (selectPhysicalDevice drv) w)) = m_device (app w)
       ∧ m_graphicsQueue (app (exec (selectPhysicalDevice drv) w))
         = m_graphicsQueue (app w)
       ∧ m_presentQueue (app (exec (selectPhysicalDevice drv) w))
         = m_presentQueue (app w)
       ∧ m_swapChain (app (exec (selectPhysicalDevice drv) w)) = m_swapChain (app w)
       ∧ m_swapChainImages (app (exec (selectPhysicalDevice drv) w))
         = m_swapChainImages (app w)
       ∧ m_swapChainImageFormat (app (exec (selectPhysicalDevice drv) w))
         = m_swapChainImageFormat (app w)
       ∧ m_swapChainExtent (app (exec (selectPhysicalDevice drv) w))
         = m_swapChainExtent (app w)
       ∧ m_swapChainImageViews (app (exec (selectPhysicalDevice drv) w))
         = m_swapChainImageViews (app w)
       ∧ app (exec (selectPhysicalDevice drv) w) = set_m_physicalDevice device (app w))
  ∧ (drv_physicalDevices drv ≠ [] →
     (∀ d, d ∈ drv_physicalDevices drv →
           eval (isPhysicalDeviceSuitable drv d) w = Ok false) →
     eval (selectPhysicalDevice drv) w = Fail (Thrown NoSuitableDeviceError)
     ∧ app (exec (selectPhysicalDevice drv) w) = app w).
Proof.
  unfold eval, exec, selectPhysicalDevice.
  rewrite bind_run. simpl. rewrite bind_run, call_run.
  split; [|split].
  - intros ->. done.
  - intros before device after Hdevices Hbefore Hdevice Hnull.
    assert ((length (drv_physicalDevices drv) =? 0)%nat = false) as ->.
    { rewrite Hdevices, length_app. simpl. apply Nat.eqb_neq. lia. }
    rewrite bind_run, call_run, bind_run, selectPhysicalDevice_loop_run.
    simpl. rewrite Hdevices, find_first_suitable; simpl.
    + destruct (device =? VK_NULL_HANDLE) eqn:He; [lia|]. simpl. by repeat split.
    + intros d Hd. by apply isPhysicalDeviceSuitable_eval, Hbefore.
    + by apply isPhysicalDeviceSuitable_eval.
  - intros Hne Hnone.
    assert ((length (drv_physicalDevices drv) =? 0)%nat = false) as ->
      by (by destruct (drv_physicalDevices drv)).
    rewrite bind_run, call_run, bind_run, selectPhysicalDevice_loop_run.
    simpl. rewrite find_none_suitable; [done|].
    intros y Hy. by apply isPhysicalDeviceSuitable_eval, Hnone.
Qed.

Lemma selectPhysicalDevice_first_suitable_or_error_witness :
  (eval (selectPhysicalDevice
           (machine [] [mkQueueFamily 1 1] (λ _, true) [mkSurfaceFormat 50 0]
              VK_SUCCESS VK_SUCCESS))
     (mkWorld (set_m_instance 200 (set_m_window 100 App_init)) [])
   = Fail (Thrown NoGPUError))
  ∧ (eval (selectPhysicalDevice
             (machine [501; 502; 500; 503] [mkQueueFamily 1 1] (λ _, true)
                [mkSurfaceFormat 50 0] VK_SUCCESS VK_SUCCESS))
       (mkWorld (set_m_instance 200 (set_m_window 100 App_init)) [])
     = Ok tt
     ∧ m_physicalDevice
         (app (exec (selectPhysicalDevice
                       (machine [501; 502; 500; 503] [mkQueueFamily 1 1] (λ _, true)
                          [mkSurfaceFormat 50 0] VK_SUCCESS VK_SUCCESS))
                 (mkWorld (set_m_instance 200 (set_m_window 100 App_init)) [])))
       = 502
     ∧ m_instance
         (app (exec (selectPhysicalDevice
                       (machine [501; 502; 500; 503] [mkQueueFamily 1 1] (λ _, true)
                          [mkSurfaceFormat 50 0] VK_SUCCESS VK_SUCCESS))
                 (mkWorld (set_m_instance 200 (set_m_window 100 App_init)) [])))
       = 200)
  ∧ (eval (selectPhysicalDevice
             (machine [501; 501] [mkQueueFamily 1 1] (λ _, true) [mkSurfaceFormat 50 0]
                VK_SUCCESS VK_SUCCESS))
       (mkWorld (set_m_instance 200 (set_m_window 100 App_init)) [])
     = Fail (Thrown NoSuitableDeviceError)).
Proof.
  split; [|split].
  - apply (proj1 (selectPhysicalDevice_first_suitable_or_error
                    (machine [] [mkQueueFamily 1 1] (λ _, true) [mkSurfaceFormat 50 0]
                       VK_SUCCESS VK_SUCCESS)
                    (mkWorld (set_m_instance 200 (set_m_window 100 App_init)) []))).
    reflexivity.
  - destruct (proj1 (proj2 (selectPhysicalDevice_first_suitable_or_error
                              (machine [501; 502; 500; 503] [mkQueueFamily 1 1]
                                 (λ _, true) [mkSurfaceFormat 50 0]
                                 VK_SUCCESS VK_SUCCESS)
                              (mkWorld (set_m_instance 200 (set_m_window 100 App_init))
                                 [])))
                [501] 502 [500; 503])
      as (Heval & Hdevice & _ & Hinstance & _).
    + reflexivity.
    + intros d Hd. apply list_elem_of_singleton in Hd as ->. by vm_compute.
    + by vm_compute.
    + discriminate.
    + split; [exact Heval|]. split; [exact Hdevice|]. exact Hinstance.
  - apply (proj2 (proj2 (selectPhysicalDevice_first_suitable_or_error
                           (machine [501; 501] [mkQueueFamily 1 1] (λ _, true)
                              [mkSurfaceFormat 50 0] VK_SUCCESS VK_SUCCESS)
                           (mkWorld (set_m_instance 200 (set_m_window 100 App_init))
                              [])))).
    + discriminate.
    + intros d Hd. apply elem_of_cons in Hd as [->|Hd]; [by vm_compute|].
      apply list_elem_of_singleton in Hd as ->. by vm_compute.
Defined.

(** ** Optional-value extraction after selection *)

Lemma scanFamilies_ext (P P' : Z → bool) queueFamilies :
  (∀ i, P i = P' i) →
  ∀ i indices, scanFamilies P queueFamilies i indices = scanFamilies P' queueFamilies i indices.
Proof.
  intros Hext. induction queueFamilies as [|q rest IH]; intros i indices; simpl; [done|].
  rewrite Hext. by rewrite IH.
Qed.

Lemma isComplete_Some indices :
  isComplete indices = true →
  ∃ graphics present,
    indices = {| graphicsFamily := Some graphics; presentFamily := Some present |}.
Proof. destruct indices as [[g|] [p|]]; try done. intros _. by exists g, p. Qed.

Lemma selectSwapExtent_returns drv capabilities w :
  ∃ extent cs, selectSwapExtent drv capabilities w = (Ok extent, logged cs w).
Proof.
  destruct (decide (width (currentExtent capabilities) = UINT32_MAX)) as [Hs|Hd].
  - rewrite selectSwapExtent_sentinel by done. eauto.
  - exists (currentExtent capabilities), []. rewrite logged_nil.
    by apply selectSwapExtent_defined.
Qed.

Lemma createLogicalDevice_complete drv en w graphics present :
  fst (scanDevice drv (m_physicalDevice (app w)) (m_surface (app w)))
  = {| graphicsFamily := Some graphics; presentFamily := Some present |} →
  eval (createLogicalDevice drv en) w = Ok tt
  ∨ eval (createLogicalDevice drv en) w = Fail (Thrown DeviceCreationError).
Proof.
  intros Hscan. unfold eval, createLogicalDevice.
  rewrite bind_run. simpl. rewrite bind_run, findQueueFamilies_run, Hscan. simpl.
  destruct (drv_vkCreateDevice drv) as [result device].
  unfold_monad. destruct (result =? VK_SUCCESS); simpl; auto.
Qed.

Lemma createSwapChain_complete drv w graphics present :
  fst (scanDevice drv (m_physicalDevice (app w)) (m_surface (app w)))
  = {| graphicsFamily := Some graphics; presentFamily := Some present |} →
  eval (createSwapChain drv) w ≠ Fail (Thrown bad_optional_access).
Proof.
  intros Hscan. unfold eval, createSwapChain.
  rewrite bind_run. simpl. rewrite bind_run, querySwapChainSupport_run. simpl.
  destruct (selectSwapSurfaceFormat _) as [surfaceFormat|]; [|done].
  rewrite bind_run. unfold mret at 1, M_ret at 1.
  rewrite bind_run.
  destruct (selectSwapExtent_returns drv
              (drv_surfaceCapabilities drv (m_physicalDevice (app w)) (m_surface (app w)))
              (logged (querySwapChainSupport_calls drv (m_physicalDevice (app w))
                         (m_surface (app w))) w)) as (extent & cs & ->).
  rewrite bind_run, findQueueFamilies_run. simpl. rewrite Hscan. simpl.
  destruct (drv_vkCreateSwapchainKHR drv) as [result swapChain].
  unfold_monad. destruct (result =? VK_SUCCESS); simpl; done.
Qed.

(** C10.  Let a device be accepted by [isPhysicalDeviceSuitable], and let the
    driver, asked again, report the same queue families and the same present
    support for it.  Then the indices that [createLogicalDevice] and
    [createSwapChain] recompute for that device have both families present,
    and neither operation ends in the [bad_optional_access] that [value()]
    throws on an empty optional: device creation either succeeds or fails
    with its own error. *)
Theorem value_extraction_succeeds_for_accepted_device drv drv' en device w w' :
  eval (isPhysicalDeviceSuitable drv device) w = Ok true →
  drv_queueFamilyProperties drv' device = drv_queueFamilyProperties drv device →
  (∀ i, drv_surfaceSupport drv' device i (m_surface (app w'))
        = drv_surfaceSupport drv device i (m_surface (app w))) →
  m_physicalDevice (app w') = device →
  (∃ graphics present,
     eval (findQueueFamilies drv' device) w'
     = Ok {| graphicsFamily := Some graphics; presentFamily := Some present |})
  ∧ (eval (createLogicalDevice drv' en) w' = Ok tt
     ∨ eval (createLogicalDevice drv' en) w' = Fail (Thrown DeviceCreationError))
  ∧ eval (createSwapChain drv') w' ≠ Fail (Thrown bad_optional_access).
Proof.
  intros Hsuitable Hfamilies Hsupport Hdevice.
  apply isPhysicalDeviceSuitable_eval in Hsuitable.
  unfold suitable in Hsuitable.
  apply andb_true_iff in Hsuitable as [Hsuitable _].
  apply andb_true_iff in Hsuitable as [Hcomplete _].
  assert (scanDevice drv' device (m_surface (app w'))
          = scanDevice drv device (m_surface (app w))) as Hsame.
  { unfold scanDevice. rewrite Hfamilies. by apply scanFamilies_ext. }
  rewrite <- Hsame in Hcomplete.
  destruct (isComplete_Some _ Hcomplete) as (graphics & present & Hscan).
  split; [|split].
  - exists graphics, present. unfold eval. rewrite findQueueFamilies_run. simpl.
    by rewrite Hscan.
  - eapply createLogicalDevice_complete. rewrite Hdevice. exact Hscan.
  - eapply createSwapChain_complete. rewrite Hdevice. exact Hscan.
Qed.

Lemma value_extraction_succeeds_for_accepted_device_witness :
  (∃ graphics present,
     eval (findQueueFamilies script_ok 500) (mkWorld (set_m_physicalDevice 500 App_init) [])
     = Ok {| graphicsFamily := Some graphics; presentFamily := Some present |})
  ∧ (eval (createLogicalDevice script_ok true)
       (mkWorld (set_m_physicalDevice 500 App_init) []) = Ok tt
     ∨ eval (createLogicalDevice script_ok true)
         (mkWorld (set_m_physicalDevice 500 App_init) [])
       = Fail (Thrown DeviceCreationError))
  ∧ eval (createSwapChain script_ok)
      (mkWorld (set_m_physicalDevice 500 App_init) [])
    ≠ Fail (Thrown bad_optional_access).
Proof.
  apply (value_extraction_succeeds_for_accepted_device script_ok script_ok true 500
           World_init (mkWorld (set_m_physicalDevice 500 App_init) [])).
  - by vm_compute.
  - reflexivity.
  - intros i. reflexivity.
  - reflexivity.
Defined.

(** ** Resource lifecycle *)

Lemma created_app cs1 cs2 : created (cs1 ++ cs2) = created cs1 ++ created cs2.
Proof. apply omap_app. Qed.

Lemma destroyed_app cs1 cs2 : destroyed (cs1 ++ cs2) = destroyed cs1 ++ destroyed cs2.
Proof. apply omap_app. Qed.

Lemma exec_bind {A B} (m : M A) (f : A → M B) w :
  exec (m ≫= f) w = match eval m w with
                    | Ok a => exec (f a) (exec m w)
                    | Fail _ => exec m w
                    end.
Proof.
  unfold exec, eval. rewrite bind_run. by destruct (m w) as [[a|e] w'].
Qed.

Section Quiet.

Context {A B : Type}.

Lemma quiet_ret (a : A) : quiet (mret a).
Proof. intros w. split; [done|]. exists []. by rewrite app_nil_r. Qed.

Lemma quiet_throw e : quiet (throw e : M A).
Proof. intros w. split; [done|]. exists []. by rewrite app_nil_r. Qed.

Lemma quiet_bind (m : M A) (f : A → M B) :
  quiet m → (∀ a, quiet (f a)) → quiet (m ≫= f).
Proof.
  intros Hm Hf w. rewrite exec_bind.
  destruct (Hm w) as (Ha & cs & Hcs & Hc & Hd).
  destruct (eval m w) as [a|e]; [|by eauto].
  destruct (Hf a (exec m w)) as (Ha' & cs' & Hcs' & Hc' & Hd').
  split; [congruence|]. exists (cs ++ cs').
  rewrite Hcs', Hcs, created_app, destroyed_app, Hc, Hd, Hc', Hd'.
  by rewrite app_assoc.
Qed.

Lemma destroysNothing_quiet (m : M A) : quiet m → destroysNothing m.
Proof. intros Hm w. destruct (Hm w) as (_ & cs & ? & _ & ?). eauto. Qed.

Lemma destroysNothing_ret (a : A) : destroysNothing (mret a).
Proof. intros w. exists []. by rewrite app_nil_r. Qed.

Lemma destroysNothing_throw e : destroysNothing (throw e : M A).
Proof. intros w. exists []. by rewrite app_nil_r. Qed.

Lemma destroysNothing_undefined what : destroysNothing (undefined what : M A).
Proof. intros w. exists []. by rewrite app_nil_r. Qed.

Lemma destroysNothing_bind (m : M A) (f : A → M B) :
  destroysNothing m → (∀ a, destroysNothing (f a)) → destroysNothing (m ≫= f).
Proof.
  intros Hm Hf w. rewrite exec_bind.
  destruct (Hm w) as (cs & Hcs & Hd).
  destruct (eval m w) as [a|e]; [|by eauto].
  destruct (Hf a (exec m w)) as (cs' & Hcs' & Hd').
  exists (cs ++ cs'). rewrite Hcs', Hcs, destroyed_app, Hd, Hd'.
  by rewrite app_assoc.
Qed.

End Quiet.

Lemma quiet_this : quiet this.
Proof. intros w. split; [done|]. exists []. by rewrite app_nil_r. Qed.

Lemma quiet_call c : creates c = None → destroys c = None → quiet (call c).
Proof.
  intros Hc Hd w. split; [done|]. exists [c]. unfold created, destroyed. simpl.
  by rewrite Hc, Hd.
Qed.

Lemma quiet_value o : quiet (value o).
Proof. destruct o; [apply quiet_ret|apply quiet_throw]. Qed.

Lemma destroysNothing_call c : destroys c = None → destroysNothing (call c).
Proof.
  intros Hd w. exists [c]. unfold destroyed. simpl. by rewrite Hd.
Qed.

Lemma destroysNothing_assign f : destroysNothing (assign f).
Proof. intros w. exists []. simpl. by rewrite app_nil_r. Qed.

Create HintDb lifecycle.
#[local] Hint Resolve quiet_ret quiet_throw quiet_this quiet_value : lifecycle.
#[local] Hint Resolve destroysNothing_ret destroysNothing_throw destroysNothing_undefined
  destroysNothing_assign : lifecycle.
#[local] Hint Extern 1 (quiet (call _)) => apply quiet_call; reflexivity : lifecycle.
#[local] Hint Extern 1 (destroysNothing (call _)) =>
  apply destroysNothing_call; reflexivity : lifecycle.
#[local] Hint Extern 2 (quiet (_ ≫= _)) => apply quiet_bind; [|intros ?] : lifecycle.
#[local] Hint Extern 2 (destroysNothing (_ ≫= _)) =>
  apply destroysNothing_bind; [|intros ?] : lifecycle.
#[local] Hint Extern 3 (quiet (if ?b then _ else _)) => destruct b : lifecycle.
#[local] Hint Extern 3 (destroysNothing (if ?b then _ else _)) => destruct b : lifecycle.
#[local] Hint Extern 3 (quiet (let '(_, _) := ?p in _)) => destruct p : lifecycle.
#[local] Hint Extern 3 (destroysNothing (let '(_, _) := ?p in _)) => destruct p : lifecycle.
#[local] Hint Extern 9 (destroysNothing _) => apply destroysNothing_quiet : lifecycle.

Ltac lifecycle := auto 30 with lifecycle nocore.

Section QuietQueries.

Variable drv : Driver.
Variable en : bool.

Lemma quiet_getRequiredExtensions : quiet (getRequiredExtensions drv en).
Proof. unfold getRequiredExtensions. lifecycle. Qed.

Lemma quiet_checkValidationLayerSupport : quiet (checkValidationLayerSupport drv).
Proof. unfold checkValidationLayerSupport. lifecycle. Qed.

Lemma quiet_findQueueFamilies_loop device queueFamilies : ∀ i indices,
  quiet (findQueueFamilies_loop drv device queueFamilies i indices).
Proof.
  induction queueFamilies as [|queueFamily rest IH]; intros i indices; simpl;
    lifecycle.
Qed.

Lemma quiet_findQueueFamilies device : quiet (findQueueFamilies drv device).
Proof.
  unfold findQueueFamilies. pose proof quiet_findQueueFamilies_loop. lifecycle.
Qed.

Lemma quiet_checkDeviceExtensionSupport device :
  quiet (checkDeviceExtensionSupport drv device).
Proof. unfold checkDeviceExtensionSupport. lifecycle. Qed.

Lemma quiet_querySwapChainSupport device : quiet (querySwapChainSupport drv device).
Proof. unfold querySwapChainSupport. lifecycle. Qed.

Lemma quiet_isPhysicalDeviceSuitable device :
  quiet (isPhysicalDeviceSuitable drv device).
Proof.
  unfold isPhysicalDeviceSuitable.
  pose proof quiet_findQueueFamilies. pose proof quiet_checkDeviceExtensionSupport.
  pose proof quiet_querySwapChainSupport. lifecycle.
Qed.

Lemma quiet_selectPhysicalDevice_loop physicalDevices selected :
  quiet (selectPhysicalDevice_loop drv physicalDevices selected).
Proof.
  pose proof quiet_isPhysicalDeviceSuitable.
  induction physicalDevices as [|physicalDevice rest IH]; simpl; lifecycle.
Qed.

Lemma quiet_selectSwapExtent capabilities : quiet (selectSwapExtent drv capabilities).
Proof. unfold selectSwapExtent. lifecycle. Qed.

Lemma quiet_mainLoop : quiet (mainLoop drv).
Proof.
  unfold mainLoop. apply quiet_bind; [lifecycle|]. intros a.
  induction (drv_pollsBeforeClose drv) as [|polls IH]; simpl; lifecycle.
Qed.

End QuietQueries.

Lemma bind_Ok_inv {A B} (m : M A) (f : A → M B) w b w' :
  (m ≫= f) w = (Ok b, w') →
  ∃ a w1, m w = (Ok a, w1) ∧ f a w1 = (Ok b, w').
Proof.
  rewrite bind_run. destruct (m w) as [[a|e] w1]; [|done]. intros H. by exists a, w1.
Qed.

Lemma quiet_run {A} (m : M A) w r w1 :
  quiet m → m w = (r, w1) →
  app w1 = app w ∧ created (calls w1) = created (calls w).
Proof.
  intros Hq Hrun. destruct (Hq w) as (Happ & cs & Hcs & Hcreated & _).
  unfold exec in *. rewrite Hrun in *. simpl in *. split; [done|].
  by rewrite Hcs, created_app, Hcreated, app_nil_r.
Qed.

Lemma call_inv c w u w' :
  call c w = (Ok u, w') → w' = logged [c] w.
Proof. by intros [= _ <-]. Qed.

Lemma assign_inv f w u w' :
  assign f w = (Ok u, w') → w' = mkWorld (f (app w)) (calls w).
Proof. by intros [= _ <-]. Qed.

Tactic Notation "inv_bind" hyp(H) "as" simple_intropattern(a) ident(w1) ident(H1) :=
  apply bind_Ok_inv in H as (a & w1 & H1 & H).

(** The first action is [this]. *)
Ltac inv_this H :=
  let a := fresh "a" in
  let w1 := fresh "w" in
  let H1 := fresh "H" in
  apply bind_Ok_inv in H as (a & w1 & H1 & H); injection H1 as <- <-.

(** The first action is a call. *)
Ltac inv_call H :=
  let a := fresh "a" in
  let w1 := fresh "w" in
  let H1 := fresh "H" in
  apply bind_Ok_inv in H as (a & w1 & H1 & H); apply call_inv in H1 as ->.

Section Steps.

Variable drv : Driver.
Variable en : bool.

Lemma destroysNothing_createWindow : destroysNothing (createWindow drv).
Proof. unfold createWindow. lifecycle. Qed.

Lemma destroysNothing_createInstance : destroysNothing (createInstance drv en).
Proof.
  unfold createInstance.
  pose proof (quiet_checkValidationLayerSupport drv).
  pose proof (quiet_getRequiredExtensions drv en). lifecycle.
Qed.

Lemma destroysNothing_setupDebugMessenger : destroysNothing (setupDebugMessenger drv en).
Proof. unfold setupDebugMessenger, CreateDebugUtilsMessengerEXT. lifecycle. Qed.

Lemma destroysNothing_createSurface : destroysNothing (createSurface drv).
Proof. unfold createSurface. lifecycle. Qed.

Lemma destroysNothing_selectPhysicalDevice : destroysNothing (selectPhysicalDevice drv).
Proof.
  unfold selectPhysicalDevice. pose proof (quiet_selectPhysicalDevice_loop drv).
  lifecycle.
Qed.

Lemma destroysNothing_createLogicalDevice : destroysNothing (createLogicalDevice drv en).
Proof.
  unfold createLogicalDevice. pose proof (quiet_findQueueFamilies drv). lifecycle.
Qed.

Lemma destroysNothing_createSwapChain : destroysNothing (createSwapChain drv).
Proof.
  unfold createSwapChain. pose proof (quiet_findQueueFamilies drv).
  pose proof (quiet_querySwapChainSupport drv). pose proof (quiet_selectSwapExtent drv).
  apply destroysNothing_bind; [lifecycle|]. intros a.
  apply destroysNothing_bind; [lifecycle|]. intros support.
  apply destroysNothing_bind; [destruct (selectSwapSurfaceFormat _); lifecycle|].
  intros surfaceFormat. lifecycle.
Qed.

Lemma destroysNothing_createImageViews_loop device fmt images : ∀ i views,
  destroysNothing (createImageViews_loop drv device fmt images i views).
Proof.
  induction images as [|image rest IH]; intros i views; simpl; lifecycle.
Qed.

Lemma destroysNothing_createImageViews : destroysNothing (createImageViews drv).
Proof.
  unfold createImageViews. pose proof destroysNothing_createImageViews_loop. lifecycle.
Qed.

Lemma destroysNothing_initVulkan : destroysNothing (initVulkan drv en).
Proof.
  unfold initVulkan.
  pose proof destroysNothing_createInstance. pose proof destroysNothing_setupDebugMessenger.
  pose proof destroysNothing_createSurface. pose proof destroysNothing_selectPhysicalDevice.
  pose proof destroysNothing_createLogicalDevice. pose proof destroysNothing_createSwapChain.
  pose proof destroysNothing_createImageViews. lifecycle.
Qed.

End Steps.

Section StepsThatSucceed.

Variable drv : Driver.
Variable en : bool.

Lemma createInstance_Ok w w' :
  createInstance drv en w = (Ok tt, w') →
  ∃ instance,
    app w' = set_m_instance instance (app w)
    ∧ created (calls w') = created (calls w) ++ [InstanceRes instance].
Proof.
  unfold createInstance. intros H. inv_bind H as supported w0 Hrun.
  assert (app w0 = app w ∧ created (calls w0) = created (calls w)) as [Ha0 Hc0].
  { destruct en; [by eapply quiet_run, Hrun; apply quiet_checkValidationLayerSupport|].
    by injection Hrun as _ <-. }
  destruct (en && negb supported); [done|]. inv_bind H as extensions w1 Hrun1.
  destruct (quiet_run _ _ _ _ (quiet_getRequiredExtensions drv en) Hrun1) as [Ha1 Hc1].
  destruct (drv_vkCreateInstance drv) as [result instance]. inv_call H.
  destruct (result =? VK_SUCCESS) eqn:Hresult; [|done]. simpl in H.
  apply assign_inv in H as ->. exists instance. simpl.
  rewrite created_app, Ha1, Ha0, Hc1, Hc0. simpl. by rewrite Hresult.
Qed.

Lemma setupDebugMessenger_Ok w w' :
  setupDebugMessenger drv en w = (Ok tt, w') →
  if en
  then ∃ messenger,
         app w' = set_m_debugMessenger messenger (app w)
         ∧ created (calls w') = created (calls w) ++ [MessengerRes messenger]
  else w' = w.
Proof.
  unfold setupDebugMessenger. destruct en; [|by intros [= <-]].
  intros H. inv_this H.
  unfold CreateDebugUtilsMessengerEXT in H. inv_bind H as answer w0 Hrun.
  inv_call Hrun.
  destruct (drv_vkGetInstanceProcAddr drv _).
  - destruct (drv_vkCreateDebugUtilsMessengerEXT drv) as [result messenger].
    inv_call Hrun. injection Hrun as <- <-.
    destruct (result =? VK_SUCCESS) eqn:Hresult; [|done]. simpl in H.
    apply assign_inv in H as ->. exists messenger. simpl.
    rewrite !created_app. simpl. by rewrite Hresult, app_nil_r.
  - injection Hrun as <- <-. done.
Qed.

Lemma createSurface_Ok w w' :
  createSurface drv w = (Ok tt, w') →
  ∃ surface,
    app w' = set_m_surface surface (app w)
    ∧ created (calls w') = created (calls w) ++ [SurfaceRes surface].
Proof.
  unfold createSurface. intros H. inv_this H.
  destruct (drv_glfwCreateWindowSurface drv) as [result surface]. inv_call H.
  destruct (result =? VK_SUCCESS) eqn:Hresult; [|done]. simpl in H.
  apply assign_inv in H as ->. exists surface. simpl.
  rewrite created_app. simpl. by rewrite Hresult.
Qed.

Lemma selectPhysicalDevice_Ok w w' :
  selectPhysicalDevice drv w = (Ok tt, w') →
  ∃ physicalDevice,
    app w' = set_m_physicalDevice physicalDevice (app w)
    ∧ created (calls w') = created (calls w).
Proof.
  unfold selectPhysicalDevice. intros H. inv_this H. inv_call H.
  destruct (length (drv_physicalDevices drv) =? 0)%nat; [done|].
  inv_call H. inv_bind H as selected w0 Hrun.
  destruct (quiet_run _ _ _ _ (quiet_selectPhysicalDevice_loop drv _ _) Hrun)
    as [Ha Hc].
  destruct (selected =? VK_NULL_HANDLE); [done|].
  apply assign_inv in H as ->. exists selected. simpl.
  rewrite Ha, Hc. simpl. rewrite !created_app. simpl. by rewrite !app_nil_r.
Qed.

Lemma createLogicalDevice_Ok w w' :
  createLogicalDevice drv en w = (Ok tt, w') →
  ∃ device graphicsQueue presentQueue,
    app w' = set_device_and_queues device graphicsQueue presentQueue (app w)
    ∧ created (calls w') = created (calls w) ++ [DeviceRes device].
Proof.
  unfold createLogicalDevice. intros H. inv_this H.
  inv_bind H as indices w0 Hrun.
  destruct (quiet_run _ _ _ _ (quiet_findQueueFamilies drv _) Hrun) as [Ha Hc].
  destruct indices as [[graphics|] [present|]]; simpl in H; try done.
  inv_bind H as g w1 Hg. injection Hg as <- <-.
  inv_bind H as p w1 Hp. injection Hp as <- <-.
  destruct (drv_vkCreateDevice drv) as [result device]. inv_call H.
  destruct (result =? VK_SUCCESS) eqn:Hresult; [|done]. simpl in H.
  inv_bind H as g w1 Hg. injection Hg as <- <-. inv_call H.
  inv_bind H as p w1 Hp. injection Hp as <- <-. inv_call H.
  apply assign_inv in H as ->. simpl. rewrite Ha.
  eexists _, _, _. split; [reflexivity|].
  rewrite !created_app, Hc. simpl. by rewrite Hresult, !app_nil_r.
Qed.

Lemma createSwapChain_Ok w w' :
  createSwapChain drv w = (Ok tt, w') →
  ∃ swapChain images fmt extent,
    app w' = set_swapChain swapChain images fmt extent (app w)
    ∧ created (calls w') = created (calls w) ++ [SwapchainRes swapChain].
Proof.
  unfold createSwapChain. intros H. inv_this H.
  inv_bind H as support w0 Hrun0.
  destruct (quiet_run _ _ _ _ (quiet_querySwapChainSupport drv _) Hrun0) as [Ha0 Hc0].
  inv_bind H as surfaceFormat w1 Hrun1.
  assert (w1 = w0) as ->.
  { destruct (selectSwapSurfaceFormat _); [by injection Hrun1 as _ <-|done]. }
  inv_bind H as extent w1 Hrun2.
  destruct (quiet_run _ _ _ _ (quiet_selectSwapExtent drv _) Hrun2) as [Ha1 Hc1].
  inv_bind H as indices w2 Hrun3.
  destruct (quiet_run _ _ _ _ (quiet_findQueueFamilies drv _) Hrun3) as [Ha2 Hc2].
  destruct indices as [[graphics|] [present|]]; simpl in H; try done.
  inv_bind H as g w3 Hg. injection Hg as <- <-.
  inv_bind H as p w3 Hp. injection Hp as <- <-.
  destruct (drv_vkCreateSwapchainKHR drv) as [result swapChain]. inv_call H.
  destruct (result =? VK_SUCCESS) eqn:Hresult; [|done]. simpl in H.
  inv_call H. inv_call H.
  apply assign_inv in H as ->. simpl. rewrite Ha2, Ha1, Ha0.
  eexists _, _, _, _. split; [reflexivity|].
  rewrite !created_app, Hc2, Hc1, Hc0. simpl. by rewrite Hresult, !app_nil_r.
Qed.

Lemma createImageViews_loop_Ok device fmt images : ∀ i finished w views w',
  length finished = i →
  createImageViews_loop drv device fmt images i
    (finished ++ replicate (length images) VK_NULL_HANDLE) w = (Ok views, w') →
  ∃ new,
    views = finished ++ new
    ∧ app w' = app w
    ∧ created (calls w') = created (calls w) ++ (ImageViewRes <$> new).
Proof.
  induction images as [|image rest IH]; intros i finished w views w' Hlen; simpl.
  - intros [= <- <-]. exists []. by rewrite !app_nil_r.
  - destruct (drv_vkCreateImageView drv i) as [result view]. intros H. inv_call H.
    destruct (result =? VK_SUCCESS) eqn:Hresult; [|done]. simpl in H.
    rewrite insert_app_r_alt in H by lia.
    replace (i - length finished)%nat with 0%nat in H by lia. simpl in H.
    rewrite (cons_middle view finished), app_assoc in H.
    apply IH in H as (new & -> & Ha & Hc); [|rewrite length_app; simpl; lia].
    exists (view :: new). rewrite <- app_assoc. split; [done|]. split; [done|].
    rewrite Hc. simpl. rewrite created_app. simpl. rewrite Hresult.
    by rewrite <- app_assoc.
Qed.

Lemma createImageViews_Ok w w' :
  createImageViews drv w = (Ok tt, w') →
  ∃ views,
    app w' = set_m_swapChainImageViews views (app w)
    ∧ created (calls w') = created (calls w) ++ (ImageViewRes <$> views).
Proof.
  unfold createImageViews. intros H. inv_this H.
  inv_bind H as views w0 Hrun.
  apply (createImageViews_loop_Ok _ _ _ 0%nat []) in Hrun
    as (new & -> & Ha & Hc); [|done].
  apply assign_inv in H as ->. exists new. simpl. by rewrite Ha.
Qed.

End StepsThatSucceed.

(** ** Startup and teardown *)

Lemma initVulkan_Ok drv en w w' :
  initVulkan drv en w = (Ok tt, w') →
  m_window (app w') = m_window (app w)
  ∧ created (calls w')
    = created (calls w)
      ++ [InstanceRes (m_instance (app w'))]
      ++ (if en then [MessengerRes (m_debugMessenger (app w'))] else [])
      ++ [SurfaceRes (m_surface (app w')); DeviceRes (m_device (app w'));
          SwapchainRes (m_swapChain (app w'))]
      ++ (ImageViewRes <$> m_swapChainImageViews (app w')).
Proof.
  unfold initVulkan. intros H.
  inv_bind H as [] w1 H1. apply createInstance_Ok in H1 as (instance & Ha1 & Hc1).
  inv_bind H as [] w2 H2. apply setupDebugMessenger_Ok in H2.
  inv_bind H as [] w3 H3. apply createSurface_Ok in H3 as (surface & Ha3 & Hc3).
  inv_bind H as [] w4 H4. apply selectPhysicalDevice_Ok in H4 as (physical & Ha4 & Hc4).
  inv_bind H as [] w5 H5.
  apply createLogicalDevice_Ok in H5 as (device & gq & pq & Ha5 & Hc5).
  inv_bind H as [] w6 H6.
  apply createSwapChain_Ok in H6 as (swapChain & images & fmt & extent & Ha6 & Hc6).
  apply createImageViews_Ok in H as (views & Ha7 & Hc7).
  rewrite Hc7, Hc6, Hc5, Hc4, Hc3, Ha7, Ha6, Ha5, Ha4, Ha3.
  destruct en.
  - destruct H2 as (messenger & Ha2 & Hc2). rewrite Hc2, Hc1, Ha2, Ha1. simpl.
    split; [done|]. by rewrite <- !app_assoc.
  - subst w2. rewrite Hc1, Ha1. simpl. split; [done|]. by rewrite <- !app_assoc.
Qed.

Lemma mainLoop_returns drv w : eval (mainLoop drv) w = Ok tt.
Proof.
  unfold eval, mainLoop. rewrite bind_run. simpl.
  generalize (m_window (app w)). intros window. revert w.
  induction (drv_pollsBeforeClose drv) as [|polls IH]; intros w; simpl; [done|].
  rewrite bind_run, call_run, bind_run, call_run. apply IH.
Qed.

Lemma for_each_destroy_run device views : ∀ w,
  for_each (λ imageView, call (VkDestroyImageView device imageView)) views w
  = (Ok tt, logged (VkDestroyImageView device <$> views) w).
Proof.
  induction views as [|view rest IH]; intros w; simpl.
  - by rewrite logged_nil.
  - rewrite bind_run, call_run, IH. by rewrite logged_logged.
Qed.

Lemma destroyed_image_views device views :
  destroyed (VkDestroyImageView device <$> views) = ImageViewRes <$> views.
Proof.
  induction views as [|view rest IH]; [done|].
  rewrite !fmap_cons.
  change (destroyed ([VkDestroyImageView device view]
                     ++ (VkDestroyImageView device <$> rest))
          = ImageViewRes view :: (ImageViewRes <$> rest)).
  by rewrite destroyed_app, IH.
Qed.

Lemma created_image_views device views :
  created (VkDestroyImageView device <$> views) = [].
Proof.
  induction views as [|view rest IH]; [done|].
  rewrite !fmap_cons.
  change (created ([VkDestroyImageView device view]
                   ++ (VkDestroyImageView device <$> rest)) = []).
  by rewrite created_app, IH.
Qed.

(** What [cleanup] destroys, in the order it does. *)
Lemma cleanup_run drv en w :
  eval (cleanup drv en) w = Ok tt
  ∧ app (exec (cleanup drv en) w) = app w
  ∧ created (calls (exec (cleanup drv en) w)) = created (calls w)
  ∧ destroyed (calls (exec (cleanup drv en) w))
    = destroyed (calls w)
      ++ (ImageViewRes <$> m_swapChainImageViews (app w))
      ++ [SwapchainRes (m_swapChain (app w)); DeviceRes (m_device (app w))]
      ++ (if en && drv_vkGetInstanceProcAddr drv "vkDestroyDebugUtilsMessengerEXT"
          then [MessengerRes (m_debugMessenger (app w))] else [])
      ++ [SurfaceRes (m_surface (app w)); InstanceRes (m_instance (app w));
          WindowRes (m_window (app w)); LibraryRes].
Proof.
  unfold eval, exec, cleanup. rewrite bind_run. simpl.
  rewrite bind_run, for_each_destroy_run. unfold DestroyDebugUtilsMessengerEXT.
  destruct en, (drv_vkGetInstanceProcAddr drv "vkDestroyDebugUtilsMessengerEXT"); unfold_monad;
    rewrite ?created_app, ?destroyed_app, ?created_image_views, ?destroyed_image_views;
    simpl; rewrite ?app_nil_r, <- ?app_assoc; done.
Qed.

Lemma quiet_run_destroyed {A} (m : M A) w r w1 :
  quiet m → m w = (r, w1) → destroyed (calls w1) = destroyed (calls w).
Proof.
  intros Hq Hrun. destruct (Hq w) as (_ & cs & Hcs & _ & Hdestroyed).
  unfold exec in *. rewrite Hrun in *. simpl in *.
  by rewrite Hcs, destroyed_app, Hdestroyed, app_nil_r.
Qed.

Lemma destroysNothing_run {A} (m : M A) w r w1 :
  destroysNothing m → m w = (r, w1) →
  ∃ cs, calls w1 = calls w ++ cs ∧ destroyed cs = [].
Proof.
  intros Hd Hrun. destruct (Hd w) as (cs & Hcs & Hdestroyed).
  unfold exec in *. rewrite Hrun in *. eauto.
Qed.

(** With GLFW initialized, [run] is [initVulkan], [mainLoop] and [cleanup]
    from the world the window creation leaves. *)
Lemma run_reaches_initVulkan drv en :
  drv_glfwInit drv = true →
  run drv en World_init
  = (initVulkan drv en ≫= λ _, mainLoop drv ≫= λ _, cleanup drv en)
      (beforeInitVulkan drv)
  ∧ app (beforeInitVulkan drv) = set_m_window (drv_glfwCreateWindow drv) App_init
  ∧ created (calls (beforeInitVulkan drv))
    = [LibraryRes; WindowRes (drv_glfwCreateWindow drv)]
  ∧ destroyed (calls (beforeInitVulkan drv)) = [].
Proof.
  intros Hinit. unfold run, beforeInitVulkan, exec, createGLFWLibrary, createWindow.
  rewrite Hinit. done.
Qed.

(** C2 (as the code has it).  Let GLFW initialize.  The run fails exactly
    when a step of [initVulkan] fails, whichever step that is (instance, debug
    messenger, surface, device selection, logical device, swapchain or an
    image view).  In that case the failure leaves [run] before [cleanup]: the
    log holds no destroying call at all, so nothing is destroyed twice, and
    the GLFW library, the window and whatever else had been created stay
    undestroyed.  Only when every step succeeds does [cleanup] unfold_monad; then what
    was created is the library, the window, the instance, the messenger (in a
    validating build), the surface, the device, the swapchain and the image
    views, and what is destroyed, in this order, is: the image views (in
    creation order), swapchain, device, messenger (when its destroy entry
    point resolves), surface, instance, window, library.  So, the messenger's
    entry point resolving, each created resource is destroyed exactly once. *)
Theorem teardown_only_after_successful_startup drv en result w :
  drv_glfwInit drv = true →
  run drv en World_init = (result, w) →
  result = eval (initVulkan drv en) (beforeInitVulkan drv)
  ∧ match result with
    | Fail _ =>
        destroyed (calls w) = []
        ∧ ∃ more, created (calls w)
                  = LibraryRes :: WindowRes (drv_glfwCreateWindow drv) :: more
    | Ok _ =>
        created (calls w)
        = [LibraryRes; WindowRes (m_window (app w)); InstanceRes (m_instance (app w))]
          ++ (if en then [MessengerRes (m_debugMessenger (app w))] else [])
          ++ [SurfaceRes (m_surface (app w)); DeviceRes (m_device (app w));
              SwapchainRes (m_swapChain (app w))]
          ++ (ImageViewRes <$> m_swapChainImageViews (app w))
        ∧ destroyed (calls w)
          = (ImageViewRes <$> m_swapChainImageViews (app w))
            ++ [SwapchainRes (m_swapChain (app w)); DeviceRes (m_device (app w))]
            ++ (if en && drv_vkGetInstanceProcAddr drv "vkDestroyDebugUtilsMessengerEXT"
                then [MessengerRes (m_debugMessenger (app w))] else [])
            ++ [SurfaceRes (m_surface (app w)); InstanceRes (m_instance (app w));
                WindowRes (m_window (app w)); LibraryRes]
        ∧ (en = false
           ∨ drv_vkGetInstanceProcAddr drv "vkDestroyDebugUtilsMessengerEXT" = true →
           destroyed (calls w) ≡ₚ created (calls w))
    end.
Proof.
  intros Hglfw.
  destruct (run_reaches_initVulkan drv en Hglfw) as (-> & Ha2 & Hc2 & Hd2).
  set (w2 := beforeInitVulkan drv) in *. unfold eval. rewrite bind_run.
  destruct (initVulkan drv en w2) as [[[]|f] w3] eqn:Hinit.
  - destruct (destroysNothing_run _ _ _ _ (destroysNothing_initVulkan drv en) Hinit)
      as (cs & Hcs & Hd).
    apply initVulkan_Ok in Hinit as [Hwindow Hcreated].
    rewrite bind_run.
    destruct (mainLoop drv w3) as [r4 w4] eqn:Hmain.
    pose proof (mainLoop_returns drv w3) as Hr4. unfold eval in Hr4.
    rewrite Hmain in Hr4. simpl in Hr4. subst r4.
    destruct (quiet_run _ _ _ _ (quiet_mainLoop drv) Hmain) as [Ha4 Hc4].
    pose proof (quiet_run_destroyed _ _ _ _ (quiet_mainLoop drv) Hmain) as Hd4.
    destruct (cleanup_run drv en w4) as (Hr5 & Ha5 & Hc5 & Hd5).
    unfold eval, exec in *. destruct (cleanup drv en w4) as [r5 w5]. simpl in *.
    subst r5. intros [= <- <-]. split; [done|].
    rewrite Hc5, Hd5, Ha5, Hc4, Hd4, Ha4, Hcreated, Hwindow, Hcs, Hc2, Ha2.
    rewrite destroyed_app, Hd2, Hd. split; [done|]. split; [done|].
    intros [->| ->]; [|destruct en]; simpl; solve_Permutation.
  - intros [= <- <-]. split; [done|].
    destruct (destroysNothing_run _ _ _ _ (destroysNothing_initVulkan drv en) Hinit)
      as (cs & -> & Hd).
    rewrite destroyed_app, created_app, Hd, Hd2, Hc2. simpl. eauto.
Qed.

Lemma teardown_only_after_successful_startup_witness :
  Fail (Thrown ImageViewCreationError)
  = eval (initVulkan (script (Some (AtImageView 1))) true)
      (beforeInitVulkan (script (Some (AtImageView 1))))
  ∧ destroyed (calls (snd (run (script (Some (AtImageView 1))) true World_init))) = []
  ∧ ∃ more,
      created (calls (snd (run (script (Some (AtImageView 1))) true World_init)))
      = LibraryRes :: WindowRes 100 :: more.
Proof.
  apply (teardown_only_after_successful_startup (script (Some (AtImageView 1)))
           true (Fail (Thrown ImageViewCreationError))
           (snd (run (script (Some (AtImageView 1))) true World_init))).
  - reflexivity.
  - by vm_compute.
Defined.

(** C2 as the design document words it does not hold, at any step.  Whichever
    step of the initialization is made to fail, the run ends in failure with
    resources created and none destroyed.  When surface creation fails, the
    library, the window, the instance and the messenger are left; when the
    second image view fails, the first view is left with everything before
    it, and its handle was never stored in [m_swapChainImageViews]. *)
Lemma failed_startup_destroys_nothing :
  Forall (λ step, failsWithoutTeardownAt step true ∧ failsWithoutTeardownAt step false)
    [AtInstance; AtSurface; AtDeviceSelection; AtLogicalDevice; AtSwapchain;
     AtImageView 0; AtImageView 1]
  ∧ failsWithoutTeardownAt AtDebugMessenger true
  ∧ created (calls (snd (main (script (Some AtSurface)) true)))
    = [LibraryRes; WindowRes 100; InstanceRes 200; MessengerRes 300]
  ∧ created (calls (snd (main (script (Some (AtImageView 1))) false)))
    = [LibraryRes; WindowRes 100; InstanceRes 200; SurfaceRes 400; DeviceRes 600;
       SwapchainRes 800; ImageViewRes 1000]
  ∧ m_swapChainImageViews (app (snd (main (script (Some (AtImageView 1))) false))) = [].
Proof.
  assert (∀ step en,
            fst (main (script (Some step)) en) = Some EXIT_FAILURE →
            created (calls (snd (main (script (Some step)) en))) ≠ [] →
            destroyed (calls (snd (main (script (Some step)) en))) = [] →
            failsWithoutTeardownAt step en) as Hfails.
  { intros step en Hexit Hcreated Hdestroyed. repeat split; try done.
    intros [_ Htorn]. unfold tornDownInReverse in Htorn.
    rewrite Hdestroyed in Htorn. symmetry in Htorn.
    apply (f_equal reverse) in Htorn. rewrite reverse_involutive in Htorn. done. }
  split; [|split; [|split; [|split]]].
  - repeat constructor; apply Hfails; vm_compute; congruence.
  - apply Hfails; vm_compute; congruence.
  - vm_compute. reflexivity.
  - vm_compute. reflexivity.
  - vm_compute. reflexivity.
Qed.

(** A run in which every step succeeds, in a validating build: each resource
    is destroyed once, the image views in the order of their creation and the
    messenger before the surface. *)
Example successful_run_teardown :
  fst (main script_ok true) = Some EXIT_SUCCESS
  ∧ created (calls (snd (main script_ok true)))
    = [LibraryRes; WindowRes 100; InstanceRes 200; MessengerRes 300; SurfaceRes 400;
       DeviceRes 600; SwapchainRes 800; ImageViewRes 1000; ImageViewRes 1001]
  ∧ destroyed (calls (snd (main script_ok true)))
    = [ImageViewRes 1000; ImageViewRes 1001; SwapchainRes 800; DeviceRes 600;
       MessengerRes 300; SurfaceRes 400; InstanceRes 200; WindowRes 100; LibraryRes].
Proof. split; [|split]; vm_compute; reflexivity. Qed.

(** * Further properties *)

(** ** The diagnostic callback *)

Lemma land_pow2_eqb_0 a n :
  0 ≤ n → (Z.land a (2 ^ n) =? 0) = negb (Z.testbit a n).
Proof.
  intros Hn. destruct (Z.testbit a n) eqn:Hbit; simpl.
  - apply Z.eqb_neq. intros Hzero.
    assert (Z.testbit (Z.land a (2 ^ n)) n = true) as Hland
      by (by rewrite Z.land_spec, Hbit, Z.pow2_bits_true).
    rewrite Hzero, Z.bits_0 in Hland. done.
  - apply Z.eqb_eq. apply Z.bits_inj'. intros m Hm.
    rewrite Z.land_spec, Z.bits_0, Z.pow2_bits_eqb by done.
    destruct (Z.eqb_spec n m) as [->|]; [by rewrite Hbit|by rewrite andb_false_r].
Qed.

(** X1.  The label of a diagnostic message is decided by bit 12 (error) and,
    that bit being clear, by bit 8 (warning) of the severity, whatever other
    bits are set: "ERROR" exactly when the error bit is set, "WARN " exactly
    when it is clear and the warning bit is set, "INFO " exactly when both
    are clear.  The callback prints the message behind that label in
    brackets and always answers [VK_FALSE], so it never asks the driver to
    abort the call that triggered it. *)
Theorem messageSeverityToString_error_over_warning (messageSeverity : Z) :
  (messageSeverityToString messageSeverity = "ERROR"
   ↔ Z.testbit messageSeverity 12 = true)
  ∧ (messageSeverityToString messageSeverity = "WARN "
     ↔ Z.testbit messageSeverity 12 = false ∧ Z.testbit messageSeverity 8 = true)
  ∧ (messageSeverityToString messageSeverity = "INFO "
     ↔ Z.testbit messageSeverity 12 = false ∧ Z.testbit messageSeverity 8 = false)
  ∧ (∀ messageType pMessage,
       debugCallback messageSeverity messageType pMessage
       = ("[" +:+ messageSeverityToString messageSeverity +:+ "] " +:+ pMessage,
          VK_FALSE)
       ∧ String.length (fst (debugCallback messageSeverity messageType pMessage))
         = (8 + String.length pMessage)%nat).
Proof.
  unfold debugCallback, messageSeverityToString.
  change VK_DEBUG_UTILS_MESSAGE_SEVERITY_ERROR_BIT_EXT with (2 ^ 12).
  change VK_DEBUG_UTILS_MESSAGE_SEVERITY_WARNING_BIT_EXT with (2 ^ 8).
  rewrite !land_pow2_eqb_0 by lia.
  destruct (Z.testbit messageSeverity 12), (Z.testbit messageSeverity 8); simpl;
    repeat split; try done; intros; try discriminate; by destruct_and?.
Qed.

(** ** Instance creation *)

(** X2.  The instance extensions the program asks for are the ones GLFW
    requires, in GLFW's order, then the debug-utils extension in a validating
    build only, then the portability-enumeration extension, which therefore
    always comes last.  Collecting them asks GLFW once and changes nothing. *)
Theorem getRequiredExtensions_layout drv en w :
  ∃ required,
    getRequiredExtensions drv en w
    = (Ok required, logged [GlfwGetRequiredInstanceExtensions] w)
    ∧ last required = Some VK_KHR_PORTABILITY_ENUMERATION_EXTENSION_NAME
    ∧ drv_glfwRequiredInstanceExtensions drv `prefix_of` required
    ∧ (VK_EXT_DEBUG_UTILS_EXTENSION_NAME ∈ required
       ↔ en = true
         ∨ VK_EXT_DEBUG_UTILS_EXTENSION_NAME ∈ drv_glfwRequiredInstanceExtensions drv)
    ∧ length required
      = (length (drv_glfwRequiredInstanceExtensions drv) + if en then 2 else 1)%nat
    ∧ (en = true →
       required !! length (drv_glfwRequiredInstanceExtensions drv)
       = Some VK_EXT_DEBUG_UTILS_EXTENSION_NAME).
Proof.
  eexists. split; [reflexivity|].
  destruct en.
  - split; [by rewrite last_snoc|]. split.
    + rewrite <- app_assoc. by apply prefix_app_r.
    + split; [|split; [rewrite !length_app; simpl; lia|]].
      * rewrite !elem_of_app, !list_elem_of_singleton. split; [auto|].
        intros _. left. by right.
      * intros _. rewrite <- app_assoc. by apply list_lookup_middle.
  - split; [by rewrite last_snoc|]. split; [by apply prefix_app_r|].
    split; [|split; [rewrite !length_app; simpl; lia|done]].
    rewrite elem_of_app, list_elem_of_singleton. split.
    + intros [?|?]; [by right|done].
    + intros [?|?]; [done|by left].
Qed.

Lemma checkValidationLayerSupport_run drv w :
  checkValidationLayerSupport drv w
  = (Ok (checkValidationLayerSupport_loop VALIDATION_LAYERS (drv_instanceLayers drv)),
     logged [VkEnumerateInstanceLayerProperties; VkEnumerateInstanceLayerProperties] w).
Proof.
  unfold checkValidationLayerSupport. rewrite bind_run, call_run, bind_run, call_run.
  by rewrite logged_logged.
Qed.

(** X3.  In a validating build, when a required validation layer is not among
    the layers the driver reports, instance creation throws the
    unsupported-layer error right after the two enumeration calls:
    [vkCreateInstance] is never called and no member is changed. *)
Theorem createInstance_unsupported_layer drv w :
  ¬ layersAvailable VALIDATION_LAYERS (drv_instanceLayers drv) →
  createInstance drv true w
  = (Fail (Thrown UnsupportedLayerError),
     logged [VkEnumerateInstanceLayerProperties; VkEnumerateInstanceLayerProperties] w).
Proof.
  intros Hmissing. unfold createInstance.
  rewrite bind_run, checkValidationLayerSupport_run.
  destruct (checkValidationLayerSupport_loop _ _) eqn:Hcheck; [|done].
  by apply checkValidationLayerSupport_loop_iff in Hcheck.
Qed.

Lemma createInstance_unsupported_layer_witness :
  createInstance (with_platform true [mkLayer "VK_LAYER_LUNARG_api_dump"]
                    (λ _, true) script_ok) true World_init
  = (Fail (Thrown UnsupportedLayerError),
     logged [VkEnumerateInstanceLayerProperties; VkEnumerateInstanceLayerProperties]
       World_init).
Proof.
  apply (createInstance_unsupported_layer
           (with_platform true [mkLayer "VK_LAYER_LUNARG_api_dump"]
              (λ _, true) script_ok) World_init).
  intros Hall.
  assert ("VK_LAYER_KHRONOS_validation" ∈ layerName <$> [mkLayer "VK_LAYER_LUNARG_api_dump"])
    as Hin by (apply Hall; by left).
  simpl in Hin. apply list_elem_of_singleton in Hin. discriminate.
Defined.



(** ** The diagnostic messenger *)



(** ** What a failing step leaves behind *)

Section ReadsOnly.

Context {A B : Type}.

Lemma readsOnly_quiet (m : M A) : quiet m → readsOnly m.
Proof. intros Hq w. apply Hq. Qed.

Lemma readsOnly_ret (a : A) : readsOnly (mret a).
Proof. by intros w. Qed.

Lemma readsOnly_throw e : readsOnly (throw e : M A).
Proof. by intros w. Qed.

Lemma readsOnly_undefined what : readsOnly (undefined what : M A).
Proof. by intros w. Qed.

Lemma readsOnly_bind (m : M A) (f : A → M B) :
  readsOnly m → (∀ a, readsOnly (f a)) → readsOnly (m ≫= f).
Proof.
  intros Hm Hf w. rewrite exec_bind. destruct (eval m w) as [a|e]; [|apply Hm].
  rewrite Hf. apply Hm.
Qed.

Lemma failsUnchanged_readsOnly (m : M A) : readsOnly m → failsUnchanged m.
Proof.
  intros Hm w f w' Hrun. specialize (Hm w). unfold exec in Hm. by rewrite Hrun in Hm.
Qed.

Lemma failsUnchanged_bind (m : M A) (f : A → M B) :
  readsOnly m → (∀ a, failsUnchanged (f a)) → failsUnchanged (m ≫= f).
Proof.
  intros Hm Hf w e w'. rewrite bind_run. specialize (Hm w). unfold exec in Hm.
  destruct (m w) as [[a|e1] w1]; simpl in Hm.
  - intros Hrun. rewrite <- Hm. by eapply Hf.
  - by intros [= _ <-].
Qed.

Lemma throwsOnly_ret E (a : A) : throwsOnly E (mret a).
Proof. by intros w f w'. Qed.

Lemma throwsOnly_throw E e : e ∈ E → throwsOnly E (throw e : M A).
Proof. intros He w f w' [= <- _]. eauto. Qed.

Lemma throwsOnly_bind E (m : M A) (f : A → M B) :
  throwsOnly E m → (∀ a, throwsOnly E (f a)) → throwsOnly E (m ≫= f).
Proof.
  intros Hm Hf w e w'. rewrite bind_run.
  destruct (m w) as [[a|e1] w1] eqn:Hrun.
  - apply Hf.
  - intros [= <- <-]. by eapply Hm.
Qed.

End ReadsOnly.

Lemma readsOnly_this : readsOnly this.
Proof. by intros w. Qed.

Lemma readsOnly_call c : readsOnly (call c).
Proof. by intros w. Qed.

Lemma readsOnly_value o : readsOnly (value o).
Proof. destruct o; [apply readsOnly_ret|apply readsOnly_throw]. Qed.

Lemma failsUnchanged_assign f : failsUnchanged (assign f).
Proof. by intros w e w'. Qed.

Lemma throwsOnly_this E : throwsOnly E this.
Proof. by intros w f w'. Qed.

Lemma throwsOnly_call E c : throwsOnly E (call c).
Proof. by intros w f w'. Qed.

Lemma throwsOnly_assign E g : throwsOnly E (assign g).
Proof. by intros w f w'. Qed.

(** A computation that always returns fails with nothing. *)
Lemma throwsOnly_returns {A} E (m : M A) :
  (∀ w, ∃ a w', m w = (Ok a, w')) → throwsOnly E m.
Proof. intros Hm w f w' Hrun. destruct (Hm w) as (a & w1 & Hok). congruence. Qed.

Create HintDb members.
#[local] Hint Resolve readsOnly_ret readsOnly_throw readsOnly_undefined readsOnly_this
  readsOnly_call readsOnly_value failsUnchanged_assign : members.
#[local] Hint Extern 2 (readsOnly (_ ≫= _)) => apply readsOnly_bind; [|intros ?] : members.
#[local] Hint Extern 2 (failsUnchanged (_ ≫= _)) =>
  apply failsUnchanged_bind; [|intros ?] : members.
#[local] Hint Extern 3 (readsOnly (if ?b then _ else _)) => destruct b : members.
#[local] Hint Extern 3 (failsUnchanged (if ?b then _ else _)) => destruct b : members.
#[local] Hint Extern 3 (readsOnly (let '(_, _) := ?p in _)) => destruct p : members.
#[local] Hint Extern 3 (failsUnchanged (let '(_, _) := ?p in _)) => destruct p : members.
#[local] Hint Extern 3 (readsOnly (match ?o with Some _ => _ | None => _ end)) =>
  destruct o : members.
#[local] Hint Extern 8 (readsOnly _) => apply readsOnly_quiet : members.
#[local] Hint Extern 9 (failsUnchanged _) => apply failsUnchanged_readsOnly : members.

Ltac members := auto 40 with members nocore.

Create HintDb failures.
#[local] Hint Resolve throwsOnly_ret throwsOnly_this throwsOnly_call throwsOnly_assign
  : failures.
#[local] Hint Extern 1 (throwsOnly _ (throw _)) =>
  apply throwsOnly_throw; solve [repeat first [left | right]] : failures.
#[local] Hint Extern 2 (throwsOnly _ (_ ≫= _)) =>
  apply throwsOnly_bind; [|intros ?] : failures.
#[local] Hint Extern 3 (throwsOnly _ (if ?b then _ else _)) => destruct b : failures.
#[local] Hint Extern 3 (throwsOnly _ (let '(_, _) := ?p in _)) => destruct p : failures.

Ltac failures := auto 40 with failures nocore.

Section StepsThatFail.

Variable drv : Driver.
Variable en : bool.

Lemma readsOnly_createImageViews_loop device fmt images : ∀ i views,
  readsOnly (createImageViews_loop drv device fmt images i views).
Proof.
  induction images as [|image rest IH]; intros i views; simpl; members.
Qed.

Lemma failsUnchanged_createInstance : failsUnchanged (createInstance drv en).
Proof.
  unfold createInstance.
  pose proof (quiet_checkValidationLayerSupport drv).
  pose proof (quiet_getRequiredExtensions drv en). members.
Qed.

Lemma failsUnchanged_setupDebugMessenger : failsUnchanged (setupDebugMessenger drv en).
Proof. unfold setupDebugMessenger, CreateDebugUtilsMessengerEXT. members. Qed.

Lemma failsUnchanged_createSurface : failsUnchanged (createSurface drv).
Proof. unfold createSurface. members. Qed.

Lemma failsUnchanged_selectPhysicalDevice : failsUnchanged (selectPhysicalDevice drv).
Proof.
  unfold selectPhysicalDevice. pose proof (quiet_selectPhysicalDevice_loop drv). members.
Qed.

Lemma failsUnchanged_createLogicalDevice : failsUnchanged (createLogicalDevice drv en).
Proof.
  unfold createLogicalDevice. pose proof (quiet_findQueueFamilies drv). members.
Qed.

Lemma failsUnchanged_createSwapChain : failsUnchanged (createSwapChain drv).
Proof.
  unfold createSwapChain. pose proof (quiet_findQueueFamilies drv).
  pose proof (quiet_querySwapChainSupport drv). pose proof (quiet_selectSwapExtent drv).
  members.
Qed.

Lemma failsUnchanged_createImageViews : failsUnchanged (createImageViews drv).
Proof.
  unfold createImageViews. pose proof readsOnly_createImageViews_loop. members.
Qed.

End StepsThatFail.

Lemma bind_Fail_inv {A B} (m : M A) (f : A → M B) w e w' :
  (m ≫= f) w = (Fail e, w') →
  m w = (Fail e, w') ∨ ∃ a w1, m w = (Ok a, w1) ∧ f a w1 = (Fail e, w').
Proof.
  rewrite bind_run. destruct (m w) as [[a|e1] w1].
  - intros H. right. by exists a, w1.
  - intros [= <- <-]. by left.
Qed.

(** X6.  A step of [initVulkan] that fails has changed no data member: every
    step assigns its members only after its last check has passed.  So after
    a failed [initVulkan] the image views created so far are in no member, and
    the window handle is the one [createWindow] stored. *)
Theorem failed_step_changes_no_member drv en :
  failsUnchanged (createInstance drv en)
  ∧ failsUnchanged (setupDebugMessenger drv en)
  ∧ failsUnchanged (createSurface drv)
  ∧ failsUnchanged (selectPhysicalDevice drv)
  ∧ failsUnchanged (createLogicalDevice drv en)
  ∧ failsUnchanged (createSwapChain drv)
  ∧ failsUnchanged (createImageViews drv)
  ∧ (∀ w f w',
       initVulkan drv en w = (Fail f, w') →
       m_swapChainImageViews (app w') = m_swapChainImageViews (app w)
       ∧ m_window (app w') = m_window (app w)).
Proof.
  split; [apply failsUnchanged_createInstance|].
  split; [apply failsUnchanged_setupDebugMessenger|].
  split; [apply failsUnchanged_createSurface|].
  split; [apply failsUnchanged_selectPhysicalDevice|].
  split; [apply failsUnchanged_createLogicalDevice|].
  split; [apply failsUnchanged_createSwapChain|].
  split; [apply failsUnchanged_createImageViews|].
  unfold initVulkan. intros w f w' H.
  apply bind_Fail_inv in H as [H|([] & w1 & H1 & H)];
    [by rewrite (failsUnchanged_createInstance drv en _ _ _ H)|].
  apply createInstance_Ok in H1 as (instance & Ha1 & _).
  apply bind_Fail_inv in H as [H|([] & w2 & H2 & H)];
    [by rewrite (failsUnchanged_setupDebugMessenger drv en _ _ _ H), Ha1|].
  assert (m_swapChainImageViews (app w2) = m_swapChainImageViews (app w)
          ∧ m_window (app w2) = m_window (app w)) as [Hv2 Hw2].
  { apply setupDebugMessenger_Ok in H2. destruct en.
    - destruct H2 as (messenger & -> & _). by rewrite Ha1.
    - subst w2. by rewrite Ha1. }
  apply bind_Fail_inv in H as [H|([] & w3 & H3 & H)];
    [by rewrite (failsUnchanged_createSurface drv _ _ _ H)|].
  apply createSurface_Ok in H3 as (surface & Ha3 & _).
  apply bind_Fail_inv in H as [H|([] & w4 & H4 & H)];
    [by rewrite (failsUnchanged_selectPhysicalDevice drv _ _ _ H), Ha3|].
  apply selectPhysicalDevice_Ok in H4 as (physical & Ha4 & _).
  apply bind_Fail_inv in H as [H|([] & w5 & H5 & H)];
    [by rewrite (failsUnchanged_createLogicalDevice drv en _ _ _ H), Ha4, Ha3|].
  apply createLogicalDevice_Ok in H5 as (device & gq & pq & Ha5 & _).
  apply bind_Fail_inv in H as [H|([] & w6 & H6 & H)];
    [by rewrite (failsUnchanged_createSwapChain drv _ _ _ H), Ha5, Ha4, Ha3|].
  apply createSwapChain_Ok in H6 as (swapChain & images & fmt & extent & Ha6 & _).
  by rewrite (failsUnchanged_createImageViews drv _ _ _ H), Ha6, Ha5, Ha4, Ha3.
Qed.

(** ** Which failures a run can end in *)

Lemma selectSwapSurfaceFormat_nonempty availableFormats :
  availableFormats ≠ [] → is_Some (selectSwapSurfaceFormat availableFormats).
Proof.
  intros Hne. unfold selectSwapSurfaceFormat.
  destruct (selectSwapSurfaceFormat_loop availableFormats); [by eexists|].
  destruct availableFormats; [done|by eexists].
Qed.

Lemma createSwapChain_vetted drv w graphics present :
  fst (scanDevice drv (m_physicalDevice (app w)) (m_surface (app w)))
  = {| graphicsFamily := Some graphics; presentFamily := Some present |} →
  drv_surfaceFormats drv (m_physicalDevice (app w)) (m_surface (app w)) ≠ [] →
  eval (createSwapChain drv) w = Ok tt
  ∨ eval (createSwapChain drv) w = Fail (Thrown SwapchainCreationError).
Proof.
  intros Hscan Hformats.
  cut (∀ r, eval (createSwapChain drv) w = r →
            r = Ok tt ∨ r = Fail (Thrown SwapchainCreationError)).
  { intros Hcut. destruct (Hcut _ eq_refl) as [H|H]; rewrite H; [by left|by right]. }
  intros r Hr. unfold eval, createSwapChain in Hr.
  rewrite bind_run in Hr. simpl in Hr.
  rewrite bind_run, querySwapChainSupport_run in Hr. simpl in Hr.
  destruct (selectSwapSurfaceFormat_nonempty _ Hformats) as [surfaceFormat Hfmt].
  rewrite Hfmt, bind_run in Hr. unfold mret at 1, M_ret at 1 in Hr.
  rewrite bind_run in Hr.
  destruct (selectSwapExtent_returns drv
              (drv_surfaceCapabilities drv (m_physicalDevice (app w)) (m_surface (app w)))
              (logged (querySwapChainSupport_calls drv (m_physicalDevice (app w))
                         (m_surface (app w))) w)) as (extent & cs & Hextent).
  rewrite Hextent, bind_run, findQueueFamilies_run in Hr. simpl in Hr.
  rewrite Hscan in Hr. simpl in Hr.
  destruct (drv_vkCreateSwapchainKHR drv) as [result swapChain].
  revert Hr. unfold_monad. destruct (result =? VK_SUCCESS); simpl; intros <-;
    [by left|by right].
Qed.

Lemma selectPhysicalDevice_Ok_suitable drv w w' :
  selectPhysicalDevice drv w = (Ok tt, w') →
  ∃ physicalDevice,
    app w' = set_m_physicalDevice physicalDevice (app w)
    ∧ List.find (suitable drv (m_surface (app w))) (drv_physicalDevices drv)
      = Some physicalDevice
    ∧ physicalDevice ≠ VK_NULL_HANDLE.
Proof.
  unfold selectPhysicalDevice. intros H. inv_this H. inv_call H.
  destruct (length (drv_physicalDevices drv) =? 0)%nat; [done|].
  inv_call H. inv_bind H as selected w0 Hrun.
  rewrite selectPhysicalDevice_loop_run in Hrun. injection Hrun as <- <-.
  simpl in H.
  destruct (List.find _ _) as [physicalDevice|]; simpl in H; [|done].
  destruct (Z.eqb_spec physicalDevice VK_NULL_HANDLE) as [|Hne]; [done|].
  apply assign_inv in H as ->. by exists physicalDevice.
Qed.

Lemma suitable_vetted drv surface device :
  suitable drv surface device = true →
  (∃ graphics present,
     fst (scanDevice drv device surface)
     = {| graphicsFamily := Some graphics; presentFamily := Some present |})
  ∧ drv_surfaceFormats drv device surface ≠ []
  ∧ drv_surfacePresentModes drv device surface ≠ [].
Proof.
  unfold suitable. rewrite !andb_true_iff, !negb_true_iff, !bool_decide_eq_false.
  intros [[Hcomplete _] [? ?]]. split; [by apply isComplete_Some|done].
Qed.

Section NamedFailures.

Variable drv : Driver.
Variable en : bool.

Lemma throwsOnly_createImageViews_loop device fmt images : ∀ i views,
  throwsOnly startupErrors (createImageViews_loop drv device fmt images i views).
Proof.
  induction images as [|image rest IH]; intros i views; simpl; failures.
Qed.

Lemma throwsOnly_createInstance : throwsOnly startupErrors (createInstance drv en).
Proof.
  unfold createInstance, getRequiredExtensions.
  assert (throwsOnly startupErrors (checkValidationLayerSupport drv))
    by (apply throwsOnly_returns; intros w; rewrite checkValidationLayerSupport_run; eauto).
  failures.
Qed.

Lemma throwsOnly_setupDebugMessenger :
  throwsOnly startupErrors (setupDebugMessenger drv en).
Proof. unfold setupDebugMessenger, CreateDebugUtilsMessengerEXT. failures. Qed.

Lemma throwsOnly_createSurface : throwsOnly startupErrors (createSurface drv).
Proof. unfold createSurface. failures. Qed.

Lemma throwsOnly_selectPhysicalDevice :
  throwsOnly startupErrors (selectPhysicalDevice drv).
Proof.
  unfold selectPhysicalDevice.
  assert (∀ l s, throwsOnly startupErrors (selectPhysicalDevice_loop drv l s))
    by (intros l s; apply throwsOnly_returns; intros w;
        rewrite selectPhysicalDevice_loop_run; eauto).
  failures.
Qed.

Lemma throwsOnly_createImageViews : throwsOnly startupErrors (createImageViews drv).
Proof.
  unfold createImageViews. pose proof throwsOnly_createImageViews_loop. failures.
Qed.

Lemma throwsOnly_initVulkan : throwsOnly startupErrors (initVulkan drv en).
Proof.
  unfold initVulkan. intros w f w' H.
  apply bind_Fail_inv in H as [H|([] & w1 & H1 & H)];
    [by eapply throwsOnly_createInstance|].
  apply bind_Fail_inv in H as [H|([] & w2 & H2 & H)];
    [by eapply throwsOnly_setupDebugMessenger|].
  apply bind_Fail_inv in H as [H|([] & w3 & H3 & H)];
    [by eapply throwsOnly_createSurface|].
  apply bind_Fail_inv in H as [H|([] & w4 & H4 & H)];
    [by eapply throwsOnly_selectPhysicalDevice|].
  apply selectPhysicalDevice_Ok_suitable in H4 as (physical & Ha4 & Hfind & _).
  apply find_some in Hfind as [_ Hsuitable].
  apply suitable_vetted in Hsuitable as ((graphics & present & Hscan) & Hformats & _).
  assert (m_physicalDevice (app w4) = physical ∧ m_surface (app w4) = m_surface (app w3))
    as [Hp4 Hs4] by (by rewrite Ha4).
  apply bind_Fail_inv in H as [H|([] & w5 & H5 & H)].
  { destruct (createLogicalDevice_complete drv en w4 graphics present) as [Hok|Hfail];
      [by rewrite Hp4, Hs4| |]; unfold eval in *; rewrite H in *; simpl in *; [done|].
    injection Hfail as ->. eexists. split; [done|].
    unfold startupErrors. repeat first [left | right]. }
  apply createLogicalDevice_Ok in H5 as (device & gq & pq & Ha5 & _).
  assert (m_physicalDevice (app w5) = physical ∧ m_surface (app w5) = m_surface (app w3))
    as [Hp5 Hs5] by (by rewrite Ha5).
  apply bind_Fail_inv in H as [H|([] & w6 & H6 & H)];
    [|by eapply throwsOnly_createImageViews].
  destruct (createSwapChain_vetted drv w5 graphics present) as [Hok|Hfail];
    [by rewrite Hp5, Hs5|by rewrite Hp5, Hs5| |];
    unfold eval in *; rewrite H in *; simpl in *; [done|].
  injection Hfail as ->. eexists. split; [done|].
  unfold startupErrors. repeat first [left | right].
Qed.

End NamedFailures.

(** ** Logical device and queues *)

Lemma sorted_distinct_families (graphics present : Z) :
  merge_sort Z.le (elements ({[ graphics; present ]} : gset Z))
  = distinctFamilies graphics present.
Proof.
  unfold distinctFamilies. destruct (Z.eqb_spec graphics present) as [->|Hne].
  - replace ({[ present; present ]} : gset Z) with ({[ present ]} : gset Z)
      by (by rewrite union_idemp_L).
    by rewrite elements_singleton.
  - assert (merge_sort Z.le (elements ({[ graphics; present ]} : gset Z))
            ≡ₚ [graphics; present]) as Hperm.
    { rewrite merge_sort_Permutation, elements_union_singleton, elements_singleton;
        [done|]. by rewrite elem_of_singleton. }
    pose proof (Sorted_merge_sort Z.le (elements ({[ graphics; present ]} : gset Z)))
      as Hsorted.
    symmetry in Hperm. apply Permutation_length_2_inv in Hperm as [Heq|Heq];
      rewrite Heq in *.
    + destruct (graphics <? present) eqn:Hlt; [done|].
      apply Sorted_inv in Hsorted as [_ Hhd]. apply HdRel_inv in Hhd. lia.
    + destruct (graphics <? present) eqn:Hlt; [|done].
      apply Sorted_inv in Hsorted as [_ Hhd]. apply HdRel_inv in Hhd. lia.
Qed.

(** What [createLogicalDevice] does once the scan of the stored device has
    returned both families. *)
Lemma createLogicalDevice_run drv en w graphics present :
  fst (scanDevice drv (m_physicalDevice (app w)) (m_surface (app w)))
  = {| graphicsFamily := Some graphics; presentFamily := Some present |} →
  createLogicalDevice drv en w
  = (if fst (drv_vkCreateDevice drv) =? VK_SUCCESS
     then Ok tt else Fail (Thrown DeviceCreationError),
     mkWorld
       (if fst (drv_vkCreateDevice drv) =? VK_SUCCESS
        then set_device_and_queues (snd (drv_vkCreateDevice drv))
               (drv_vkGetDeviceQueue drv (snd (drv_vkCreateDevice drv)) graphics 0)
               (drv_vkGetDeviceQueue drv (snd (drv_vkCreateDevice drv)) present 0)
               (app w)
        else app w)
       (calls (exec (findQueueFamilies drv (m_physicalDevice (app w))) w)
        ++ VkCreateDevice (m_physicalDevice (app w)) (distinctFamilies graphics present)
             [VK_KHR_portability_subset; VK_KHR_SWAPCHAIN_EXTENSION_NAME]
             (if en then VALIDATION_LAYERS else [])
             (fst (drv_vkCreateDevice drv)) (snd (drv_vkCreateDevice drv))
           :: (if fst (drv_vkCreateDevice drv) =? VK_SUCCESS
               then [VkGetDeviceQueue (snd (drv_vkCreateDevice drv)) graphics 0;
                     VkGetDeviceQueue (snd (drv_vkCreateDevice drv)) present 0]
               else []))).
Proof.
  intros Hscan. unfold exec, createLogicalDevice.
  rewrite bind_run. change (this w) with (Ok (app w), w). cbv beta iota.
  rewrite bind_run, findQueueFamilies_run, Hscan.
  cbn [graphicsFamily presentFamily value fst snd].
  rewrite bind_run. unfold mret at 1, M_ret at 1. cbv beta iota.
  rewrite bind_run. unfold mret at 1, M_ret at 1. cbv beta iota zeta.
  rewrite sorted_distinct_families.
  destruct (drv_vkCreateDevice drv) as [result device]. simpl.
  unfold_monad. destruct (result =? VK_SUCCESS); simpl; by rewrite <- ?app_assoc.
Qed.

(** X8.  When the scan of the stored physical device leaves a family
    missing, [createLogicalDevice] throws [bad_optional_access] right after the
    scan: the world it leaves is the one the scan leaves, so [vkCreateDevice]
    is not called and no member changes. *)
Theorem createLogicalDevice_incomplete_indices drv en w indices :
  eval (findQueueFamilies drv (m_physicalDevice (app w))) w = Ok indices →
  isComplete indices = false →
  createLogicalDevice drv en w
  = (Fail (Thrown bad_optional_access),
     exec (findQueueFamilies drv (m_physicalDevice (app w))) w).
Proof.
  unfold eval, exec, createLogicalDevice. intros Hscan Hincomplete.
  rewrite bind_run. simpl. rewrite bind_run.
  destruct (findQueueFamilies drv (m_physicalDevice (app w)) w) as [r w1].
  simpl in Hscan. subst r. simpl.
  destruct indices as [[graphics|] [present|]]; done.
Qed.

Lemma createLogicalDevice_incomplete_indices_witness :
  createLogicalDevice (machine [500] [mkQueueFamily 1 1; mkQueueFamily 2 1] (λ _, false)
                         [mkSurfaceFormat 50 0] VK_SUCCESS VK_SUCCESS)
    true (mkWorld (set_m_physicalDevice 500 App_init) [])
  = (Fail (Thrown bad_optional_access),
     exec (findQueueFamilies
             (machine [500] [mkQueueFamily 1 1; mkQueueFamily 2 1] (λ _, false)
                [mkSurfaceFormat 50 0] VK_SUCCESS VK_SUCCESS) 500)
       (mkWorld (set_m_physicalDevice 500 App_init) [])).
Proof.
  apply (createLogicalDevice_incomplete_indices
           (machine [500] [mkQueueFamily 1 1; mkQueueFamily 2 1] (λ _, false)
              [mkSurfaceFormat 50 0] VK_SUCCESS VK_SUCCESS)
           true (mkWorld (set_m_physicalDevice 500 App_init) [])
           {| graphicsFamily := Some 0; presentFamily := None |}).
  - by vm_compute.
  - reflexivity.
Defined.



(** ** Swapchain creation *)

Lemma selectSwapExtent_run drv capabilities w :
  selectSwapExtent drv capabilities w
  = (Ok (chosenExtent drv capabilities),
     logged (if negb (width (currentExtent capabilities) =? UINT32_MAX) then []
             else [GlfwGetWindowSize (m_window (app w))]) w).
Proof.
  unfold chosenExtent.
  destruct (Z.eqb_spec (width (currentExtent capabilities)) UINT32_MAX) as [He|Hne]; simpl.
  - by rewrite selectSwapExtent_sentinel.
  - by rewrite selectSwapExtent_defined, logged_nil.
Qed.

Lemma swapChainQueries_run drv w :
  swapChainQueries drv (m_physicalDevice (app w)) w
  = (Ok (fst (scanDevice drv (m_physicalDevice (app w)) (m_surface (app w)))),
     logged
       (querySwapChainSupport_calls drv (m_physicalDevice (app w)) (m_surface (app w))
        ++ (if negb (width (currentExtent
                              (drv_surfaceCapabilities drv (m_physicalDevice (app w))
                                 (m_surface (app w)))) =? UINT32_MAX)
            then [] else [GlfwGetWindowSize (m_window (app w))])
        ++ findQueueFamilies_calls (m_physicalDevice (app w)) (m_surface (app w))
             (snd (scanDevice drv (m_physicalDevice (app w)) (m_surface (app w))))) w).
Proof.
  unfold swapChainQueries.
  rewrite bind_run, querySwapChainSupport_run. cbn [capabilities].
  rewrite bind_run, selectSwapExtent_run, findQueueFamilies_run.
  by rewrite !logged_logged, <- !app_assoc.
Qed.

Lemma createSwapChain_run drv w graphics present surfaceFormat :
  fst (scanDevice drv (m_physicalDevice (app w)) (m_surface (app w)))
  = {| graphicsFamily := Some graphics; presentFamily := Some present |} →
  selectSwapSurfaceFormat
    (drv_surfaceFormats drv (m_physicalDevice (app w)) (m_surface (app w)))
  = Some surfaceFormat →
  createSwapChain drv w
  = (if fst (drv_vkCreateSwapchainKHR drv) =? VK_SUCCESS
     then Ok tt else Fail (Thrown SwapchainCreationError),
     mkWorld
       (if fst (drv_vkCreateSwapchainKHR drv) =? VK_SUCCESS
        then set_swapChain (snd (drv_vkCreateSwapchainKHR drv)) (drv_swapchainImages drv)
               (format surfaceFormat)
               (chosenExtent drv
                  (drv_surfaceCapabilities drv (m_physicalDevice (app w))
                     (m_surface (app w))))
               (app w)
        else app w)
       (calls (exec (swapChainQueries drv (m_physicalDevice (app w))) w)
        ++ VkCreateSwapchainKHR (m_device (app w))
             (negotiatedCreateInfo drv (app w) surfaceFormat graphics present)
             (fst (drv_vkCreateSwapchainKHR drv)) (snd (drv_vkCreateSwapchainKHR drv))
           :: (if fst (drv_vkCreateSwapchainKHR drv) =? VK_SUCCESS
               then [VkGetSwapchainImagesKHR (m_device (app w))
                       (snd (drv_vkCreateSwapchainKHR drv));
                     VkGetSwapchainImagesKHR (m_device (app w))
                       (snd (drv_vkCreateSwapchainKHR drv))]
               else []))).
Proof.
  intros Hscan Hformat. unfold exec. rewrite swapChainQueries_run.
  unfold createSwapChain.
  rewrite bind_run. change (this w) with (Ok (app w), w). cbv beta iota.
  rewrite bind_run, querySwapChainSupport_run. cbn [formats presentModes capabilities].
  rewrite Hformat, bind_run. unfold mret at 1, M_ret at 1. cbv beta iota.
  rewrite bind_run, selectSwapExtent_run. cbv beta iota.
  rewrite bind_run, findQueueFamilies_run. cbn [app logged]. rewrite Hscan.
  cbn [graphicsFamily presentFamily value fst snd].
  rewrite bind_run. unfold mret at 1, M_ret at 1. cbv beta iota.
  rewrite bind_run. unfold mret at 1, M_ret at 1. cbv beta iota zeta.
  assert (bool_decide (Some graphics ≠ Some present) = negb (graphics =? present)) as ->.
  { destruct (Z.eqb_spec graphics present) as [->|Hne]; simpl.
    - by apply bool_decide_eq_false; intros H.
    - apply bool_decide_eq_true. congruence. }
  assert ((if negb (graphics =? present) then [graphics; present] else [])
          = if graphics =? present then [] else [graphics; present]) as ->
    by (by destruct (graphics =? present)).
  fold (negotiatedCreateInfo drv (app w) surfaceFormat graphics present).
  destruct (drv_vkCreateSwapchainKHR drv) as [result swapChain]. simpl.
  unfold_monad. unfold querySwapChainSupport_calls.
  destruct (result =? VK_SUCCESS); simpl; do 2 f_equal;
    repeat (progress (rewrite <- ?app_assoc; simpl)); reflexivity.
Qed.



(** X11.  Called for a device that reports no surface format at all,
    [createSwapChain] reads element 0 of the empty format vector right after
    its swapchain-support queries: the behaviour is undefined there, before any
    extent is computed, any queue family asked for or any swapchain created,
    and with no member changed. *)
Theorem createSwapChain_empty_format_list drv w :
  drv_surfaceFormats drv (m_physicalDevice (app w)) (m_surface (app w)) = [] →
  (∃ what, eval (createSwapChain drv) w = Fail (Undefined what))
  ∧ exec (createSwapChain drv) w
    = exec (querySwapChainSupport drv (m_physicalDevice (app w))) w
  ∧ app (exec (createSwapChain drv) w) = app w
  ∧ created (calls (exec (createSwapChain drv) w)) = created (calls w).
Proof.
  intros Hformats. unfold eval, exec, createSwapChain.
  rewrite bind_run. change (this w) with (Ok (app w), w). cbv beta iota.
  rewrite bind_run, querySwapChainSupport_run. cbn [formats].
  rewrite Hformats. simpl. split; [by eexists|]. split; [done|]. split; [done|].
  rewrite created_app. unfold querySwapChainSupport_calls.
  destruct (negb (length (drv_surfaceFormats drv _ _) =? 0)%nat);
    destruct (negb (length (drv_surfacePresentModes drv _ _) =? 0)%nat);
    simpl; by rewrite app_nil_r.
Qed.

Lemma createSwapChain_empty_format_list_witness :
  (∃ what,
     eval (createSwapChain (machine [500] [] (λ _, false) [] VK_SUCCESS VK_SUCCESS))
       World_init = Fail (Undefined what))
  ∧ calls (exec (createSwapChain (machine [500] [] (λ _, false) [] VK_SUCCESS VK_SUCCESS))
             World_init)
    = [VkGetPhysicalDeviceSurfaceCapabilitiesKHR 0 0;
       VkGetPhysicalDeviceSurfaceFormatsKHR 0 0;
       VkGetPhysicalDeviceSurfacePresentModesKHR 0 0;
       VkGetPhysicalDeviceSurfacePresentModesKHR 0 0].
Proof.
  destruct (createSwapChain_empty_format_list
              (machine [500] [] (λ _, false) [] VK_SUCCESS VK_SUCCESS) World_init)
    as (Hwhat & Hexec & _); [reflexivity|].
  split; [exact Hwhat|]. by rewrite Hexec.
Defined.

(** ** Image views *)

Lemma createImageViews_loop_run drv device fmt images : ∀ i finished w,
  length finished = i →
  (∀ j, (j < length images)%nat →
        fst (drv_vkCreateImageView drv (i + j)) = VK_SUCCESS) →
  createImageViews_loop drv device fmt images i
    (finished ++ replicate (length images) VK_NULL_HANDLE) w
  = (Ok (finished
         ++ ((λ k, snd (drv_vkCreateImageView drv k)) <$> seq i (length images))),
     logged (imageView_calls drv device fmt images i) w).
Proof.
  induction images as [|image rest IH]; intros i finished w Hlen Hall; simpl.
  - by rewrite logged_nil.
  - pose proof (Hall 0%nat ltac:(simpl; lia)) as Hfirst.
    rewrite Nat.add_0_r in Hfirst.
    destruct (drv_vkCreateImageView drv i) as [result view] eqn:Hanswer.
    simpl in Hfirst. subst result.
    rewrite bind_run, call_run. simpl.
    rewrite insert_app_r_alt by lia.
    replace (i - length finished)%nat with 0%nat by lia. simpl.
    rewrite (cons_middle view finished), app_assoc.
    rewrite IH.
    + rewrite logged_logged, <- app_assoc. done.
    + rewrite length_app. simpl. lia.
    + intros j Hj. replace (S i + j)%nat with (i + S j)%nat by lia.
      apply Hall. simpl. lia.
Qed.

Lemma createImageViews_loop_fails drv device fmt before image after : ∀ i views w,
  (∀ j, (j < length before)%nat →
        fst (drv_vkCreateImageView drv (i + j)) = VK_SUCCESS) →
  fst (drv_vkCreateImageView drv (i + length before)) ≠ VK_SUCCESS →
  createImageViews_loop drv device fmt (before ++ image :: after) i views w
  = (Fail (Thrown ImageViewCreationError),
     logged (imageView_calls drv device fmt (before ++ [image]) i) w).
Proof.
  induction before as [|first before IH]; intros i views w Hall Hfail; simpl.
  - rewrite Nat.add_0_r in Hfail.
    destruct (drv_vkCreateImageView drv i) as [result view]. simpl in Hfail.
    rewrite bind_run, call_run. simpl.
    by destruct (Z.eqb_spec result VK_SUCCESS).
  - pose proof (Hall 0%nat ltac:(simpl; lia)) as Hfirst.
    rewrite Nat.add_0_r in Hfirst.
    destruct (drv_vkCreateImageView drv i) as [result view] eqn:Hanswer.
    simpl in Hfirst. subst result.
    rewrite bind_run, call_run. simpl.
    rewrite IH.
    + by rewrite logged_logged.
    + intros j Hj. replace (S i + j)%nat with (i + S j)%nat by lia.
      apply Hall. simpl. lia.
    + replace (S i + length before)%nat with (i + S (length before))%nat by lia.
      exact Hfail.
Qed.

Lemma created_imageView_calls drv device fmt images : ∀ i,
  (∀ j, (j < length images)%nat →
        fst (drv_vkCreateImageView drv (i + j)) = VK_SUCCESS) →
  created (imageView_calls drv device fmt images i)
  = ImageViewRes <$> ((λ k, snd (drv_vkCreateImageView drv k)) <$> seq i (length images)).
Proof.
  induction images as [|image rest IH]; intros i Hall; simpl; [done|].
  pose proof (Hall 0%nat ltac:(simpl; lia)) as Hfirst.
  rewrite Nat.add_0_r in Hfirst. rewrite Hfirst. simpl. f_equal.
  apply IH. intros j Hj. replace (S i + j)%nat with (i + S j)%nat by lia.
  apply Hall. simpl. lia.
Qed.

Lemma destroyed_imageView_calls drv device fmt images : ∀ i,
  destroyed (imageView_calls drv device fmt images i) = [].
Proof. induction images as [|image rest IH]; intros i; simpl; [done|apply IH]. Qed.

Lemma imageView_calls_lookup drv device fmt images : ∀ k i image,
  images !! i = Some image →
  imageView_calls drv device fmt images k !! i
  = Some (VkCreateImageView device image fmt (fst (drv_vkCreateImageView drv (k + i)))
            (snd (drv_vkCreateImageView drv (k + i)))).
Proof.
  induction images as [|first rest IH]; intros k i image Hi; [done|].
  destruct i as [|i]; simpl in *.
  - injection Hi as ->. by rewrite Nat.add_0_r.
  - replace (k + S i)%nat with (S k + i)%nat by lia. by apply IH.
Qed.

Lemma created_imageView_calls_snoc drv device fmt before image : ∀ i,
  (∀ j, (j < length before)%nat →
        fst (drv_vkCreateImageView drv (i + j)) = VK_SUCCESS) →
  fst (drv_vkCreateImageView drv (i + length before)) ≠ VK_SUCCESS →
  created (imageView_calls drv device fmt (before ++ [image]) i)
  = ImageViewRes
      <$> ((λ k, snd (drv_vkCreateImageView drv k)) <$> seq i (length before)).
Proof.
  induction before as [|first before IH]; intros i Hall Hfail; simpl.
  - rewrite Nat.add_0_r in Hfail.
    by destruct (Z.eqb_spec (fst (drv_vkCreateImageView drv i)) VK_SUCCESS).
  - pose proof (Hall 0%nat ltac:(simpl; lia)) as Hfirst.
    rewrite Nat.add_0_r in Hfirst. rewrite Hfirst. simpl. f_equal.
    apply IH.
    + intros j Hj. replace (S i + j)%nat with (i + S j)%nat by lia.
      apply Hall. simpl. lia.
    + replace (S i + length before)%nat with (i + S (length before))%nat by lia.
      exact Hfail.
Qed.

(** X12.  When the driver answers [VK_SUCCESS] to the first [n] image-view
    creations, [n] being the number of swapchain images, [createImageViews]
    makes one creation call per image, in image order, for the stored device
    and image format, and stores the [n] views in creation order: view [i]
    belongs to image [i], no slot keeps the null handle it was filled with,
    and no other member changes. *)
Theorem createImageViews_one_view_per_image drv w :
  (∀ i, (i < length (m_swapChainImages (app w)))%nat →
        fst (drv_vkCreateImageView drv i) = VK_SUCCESS) →
  eval (createImageViews drv) w = Ok tt
  ∧ app (exec (createImageViews drv) w)
    = set_m_swapChainImageViews
        (viewsOf drv (length (m_swapChainImages (app w)))) (app w)
  ∧ length (m_swapChainImageViews (app (exec (createImageViews drv) w)))
    = length (m_swapChainImages (app w))
  ∧ (∀ i image,
       m_swapChainImages (app w) !! i = Some image →
       m_swapChainImageViews (app (exec (createImageViews drv) w)) !! i
       = Some (snd (drv_vkCreateImageView drv i))
       ∧ VkCreateImageView (m_device (app w)) image (m_swapChainImageFormat (app w))
           VK_SUCCESS (snd (drv_vkCreateImageView drv i))
         ∈ calls (exec (createImageViews drv) w))
  ∧ calls (exec (createImageViews drv) w)
    = calls w
      ++ imageView_calls drv (m_device (app w)) (m_swapChainImageFormat (app w))
           (m_swapChainImages (app w)) 0.
Proof.
  intros Hall. unfold eval, exec, createImageViews.
  rewrite bind_run. change (this w) with (Ok (app w), w). cbv beta iota zeta.
  rewrite bind_run.
  rewrite (createImageViews_loop_run drv _ _ _ 0%nat [] w eq_refl Hall).
  cbn [app calls fst snd assign logged List.app set_m_swapChainImageViews
       m_swapChainImageViews].
  fold (viewsOf drv (length (m_swapChainImages (app w)))).
  split; [done|]. split; [done|].
  split; [unfold viewsOf; by rewrite length_fmap, length_seq|].
  split; [|done].
  intros i image Hi. pose proof (lookup_lt_Some _ _ _ Hi) as Hlt. split.
  - unfold viewsOf. rewrite list_lookup_fmap, lookup_seq_lt by done. done.
  - apply elem_of_app. right. rewrite <- (Hall i Hlt).
    eapply list_elem_of_lookup_2.
    by rewrite (imageView_calls_lookup _ _ _ _ 0%nat i image Hi).
Qed.

Lemma createImageViews_one_view_per_image_witness :
  eval (createImageViews script_ok)
    (mkWorld (set_swapChain 800 [900; 901] 50 (mkExtent 800 600) App_init) [])
  = Ok tt
  ∧ m_swapChainImageViews
      (app (exec (createImageViews script_ok)
              (mkWorld (set_swapChain 800 [900; 901] 50 (mkExtent 800 600) App_init) [])))
    = [1000; 1001]
  ∧ calls (exec (createImageViews script_ok)
             (mkWorld (set_swapChain 800 [900; 901] 50 (mkExtent 800 600) App_init) []))
    = [VkCreateImageView 0 900 50 VK_SUCCESS 1000;
       VkCreateImageView 0 901 50 VK_SUCCESS 1001].
Proof.
  destruct (createImageViews_one_view_per_image script_ok
              (mkWorld (set_swapChain 800 [900; 901] 50 (mkExtent 800 600) App_init) []))
    as (Heval & Happ & _ & _ & Hcalls); [intros i Hi; reflexivity|].
  split; [exact Heval|]. split; [by rewrite Happ|]. by rewrite Hcalls.
Defined.

(** X13.  When the creation of image view number [k] is the first one the
    driver refuses, [createImageViews] throws the image-view error right after
    that call: it has made [k + 1] creation calls, for the images 0 to [k], and
    none for the later images; the [k] views created before are stored in no
    member and are not destroyed, and no member has changed. *)
Theorem createImageViews_stops_at_first_refusal drv w k :
  (k < length (m_swapChainImages (app w)))%nat →
  (∀ i, (i < k)%nat → fst (drv_vkCreateImageView drv i) = VK_SUCCESS) →
  fst (drv_vkCreateImageView drv k) ≠ VK_SUCCESS →
  eval (createImageViews drv) w = Fail (Thrown ImageViewCreationError)
  ∧ app (exec (createImageViews drv) w) = app w
  ∧ calls (exec (createImageViews drv) w)
    = calls w
      ++ imageView_calls drv (m_device (app w)) (m_swapChainImageFormat (app w))
           (take (S k) (m_swapChainImages (app w))) 0
  ∧ created (calls (exec (createImageViews drv) w))
    = created (calls w) ++ (ImageViewRes <$> viewsOf drv k)
  ∧ destroyed (calls (exec (createImageViews drv) w)) = destroyed (calls w).
Proof.
  intros Hk Hbefore Hrefused.
  destruct (lookup_lt_is_Some_2 _ _ Hk) as [image Himage].
  pose proof (take_drop_middle _ _ _ Himage) as Hsplit.
  assert (length (take k (m_swapChainImages (app w))) = k) as Hlen
    by (rewrite length_take; lia).
  pose proof (createImageViews_loop_fails drv (m_device (app w))
                (m_swapChainImageFormat (app w))
                (take k (m_swapChainImages (app w))) image
                (drop (S k) (m_swapChainImages (app w))) 0%nat
                (replicate (length (m_swapChainImages (app w))) VK_NULL_HANDLE) w)
    as Hrun.
  rewrite Hsplit, Hlen in Hrun. specialize (Hrun Hbefore Hrefused).
  unfold eval, exec, createImageViews.
  rewrite bind_run. change (this w) with (Ok (app w), w). cbv beta iota zeta.
  rewrite bind_run, Hrun, (take_S_r _ _ _ Himage).
  cbn [fst snd app calls logged].
  split; [done|]. split; [done|]. split; [done|].
  rewrite created_app, destroyed_app, destroyed_imageView_calls, app_nil_r.
  split; [|done]. f_equal.
  rewrite created_imageView_calls_snoc; rewrite ?Hlen; [done|by apply Hbefore|done].
Qed.

Lemma createImageViews_stops_at_first_refusal_witness :
  eval (createImageViews (script (Some (AtImageView 1))))
    (mkWorld (set_swapChain 800 [900; 901; 902] 50 (mkExtent 800 600) App_init) [])
  = Fail (Thrown ImageViewCreationError)
  ∧ calls (exec (createImageViews (script (Some (AtImageView 1))))
             (mkWorld (set_swapChain 800 [900; 901; 902] 50 (mkExtent 800 600) App_init)
                []))
    = [VkCreateImageView 0 900 50 VK_SUCCESS 1000;
       VkCreateImageView 0 901 50 VK_ERROR_INITIALIZATION_FAILED 1001].
Proof.
  destruct (createImageViews_stops_at_first_refusal (script (Some (AtImageView 1)))
              (mkWorld (set_swapChain 800 [900; 901; 902] 50 (mkExtent 800 600) App_init)
                 []) 1%nat)
    as (Heval & _ & Hcalls & _).
  - simpl. lia.
  - intros i Hi. assert (i = 0%nat) as -> by lia. reflexivity.
  - vm_compute. congruence.
  - split; [exact Heval|]. by rewrite Hcalls.
Defined.

(** ** Queue families and device selection, in terms of what the driver reports *)

(** X14.  For a device that reports at most [INT_MAX] queue families, the
    indices [findQueueFamilies] returns are complete exactly when some family
    of the device has the graphics bit and some family (the same or another)
    can present to the surface.  The two indices it then returns are indices
    of such families. *)
Theorem findQueueFamilies_complete_iff_both_capabilities drv device w :
  Z.of_nat (length (drv_queueFamilyProperties drv device)) ≤ INT_MAX →
  ∃ indices,
    eval (findQueueFamilies drv device) w = Ok indices
    ∧ (isComplete indices = true
       ↔ bothSeenBelow (graphicsCapable (drv_queueFamilyProperties drv device))
           (λ i, drv_surfaceSupport drv device i (m_surface (app w)))
           (Z.of_nat (length (drv_queueFamilyProperties drv device))))
    ∧ (∀ graphics, graphicsFamily indices = Some graphics →
         0 ≤ graphics < Z.of_nat (length (drv_queueFamilyProperties drv device))
         ∧ graphicsCapable (drv_queueFamilyProperties drv device) graphics = true)
    ∧ (∀ present, presentFamily indices = Some present →
         0 ≤ present < Z.of_nat (length (drv_queueFamilyProperties drv device))
         ∧ drv_surfaceSupport drv device present (m_surface (app w)) = true).
Proof.
  intros Hbound. unfold eval. rewrite findQueueFamilies_run. unfold scanDevice.
  destruct (scanFamilies _ (drv_queueFamilyProperties drv device) 0 _)
    as [found visited] eqn:Hscan.
  destruct (scanFamilies_spec
              (λ i, drv_surfaceSupport drv device i (m_surface (app w)))
              _ Hbound (drv_queueFamilyProperties drv device)
              [] {| graphicsFamily := None; presentFamily := None |}
              found visited) as (Hn & HG & HP & Hstop);
    [done | intros j Hj; simpl in Hj; lia | intros j Hj; simpl in Hj; lia
    | done | exact Hscan |].
  simpl in Hn, HG, HP, Hstop.
  exists found. split; [done|]. split; [split|split].
  - intros Hcomplete. apply isComplete_Some in Hcomplete as (g & p & ->).
    simpl in HG, HP. destruct HG as (Hg & HGg & _), HP as (Hp & HPp & _).
    split.
    + exists g. split; [lia|done].
    + exists p. split; [lia|done].
  - intros Hboth. destruct (isComplete found) eqn:Hcomplete; [done|].
    rewrite Hstop in HG, HP. exfalso.
    by apply (incomplete_not_bothSeenBelow _ _ _ _ HG HP Hcomplete).
  - intros graphics Hg. rewrite Hg in HG. simpl in HG.
    destruct HG as (? & ? & _). split; [lia|done].
  - intros present Hp. rewrite Hp in HP. simpl in HP.
    destruct HP as (? & ? & _). split; [lia|done].
Qed.

Lemma findQueueFamilies_complete_iff_both_capabilities_witness :
  ∃ indices,
    eval (findQueueFamilies script_ok 500) World_init = Ok indices
    ∧ isComplete indices = true.
Proof.
  destruct (findQueueFamilies_complete_iff_both_capabilities script_ok 500 World_init)
    as (indices & Heval & Hiff & _); [simpl; unfold INT_MAX; lia|].
  exists indices. split; [exact Heval|].
  apply Hiff. split.
  - exists 0. split; [simpl; lia|reflexivity].
  - exists 2. split; [simpl; lia|reflexivity].
Defined.

Lemma examined_first_suitable drv surface before device after :
  (∀ d, d ∈ before → suitable drv surface d = false) →
  suitable drv surface device = true →
  examined drv surface (before ++ device :: after) = before ++ [device].
Proof.
  intros Hbefore Hdevice. induction before as [|d before IH]; simpl.
  - by rewrite Hdevice.
  - rewrite Hbefore by (by left). f_equal. apply IH.
    intros d' Hd'. apply Hbefore. by right.
Qed.

Lemma examined_none_suitable drv surface physicalDevices :
  (∀ d, d ∈ physicalDevices → suitable drv surface d = false) →
  examined drv surface physicalDevices = physicalDevices.
Proof.
  intros Hnone. induction physicalDevices as [|d rest IH]; simpl; [done|].
  rewrite Hnone by (by left). f_equal. apply IH.
  intros d' Hd'. apply Hnone. by right.
Qed.

(** X15.  Device selection asks the driver for the devices twice (count, then
    handles) and then examines them in enumeration order, stopping at the first
    suitable one: the devices before it and that device itself are each put
    through the suitability questions once, and no question is asked about a
    device enumerated after it.  With no suitable device every device is
    examined once. *)
Theorem selectPhysicalDevice_examines_up_to_first_suitable drv w :
  drv_physicalDevices drv ≠ [] →
  (∀ before device after,
     drv_physicalDevices drv = before ++ device :: after →
     (∀ d, d ∈ before → eval (isPhysicalDeviceSuitable drv d) w = Ok false) →
     eval (isPhysicalDeviceSuitable drv device) w = Ok true →
     calls (exec (selectPhysicalDevice drv) w)
     = calls w
       ++ [VkEnumeratePhysicalDevices (m_instance (app w));
           VkEnumeratePhysicalDevices (m_instance (app w))]
       ++ concat (isPhysicalDeviceSuitable_calls drv (m_surface (app w))
                    <$> before ++ [device]))
  ∧ ((∀ d, d ∈ drv_physicalDevices drv →
           eval (isPhysicalDeviceSuitable drv d) w = Ok false) →
     calls (exec (selectPhysicalDevice drv) w)
     = calls w
       ++ [VkEnumeratePhysicalDevices (m_instance (app w));
           VkEnumeratePhysicalDevices (m_instance (app w))]
       ++ concat (isPhysicalDeviceSuitable_calls drv (m_surface (app w))
                    <$> drv_physicalDevices drv))
  ∧ (∀ device,
       calls (exec (isPhysicalDeviceSuitable drv device) w)
       = calls w ++ isPhysicalDeviceSuitable_calls drv (m_surface (app w)) device).
Proof.
  intros Hdevices.
  assert (calls (exec (selectPhysicalDevice drv) w)
          = calls w
            ++ [VkEnumeratePhysicalDevices (m_instance (app w));
                VkEnumeratePhysicalDevices (m_instance (app w))]
            ++ concat (isPhysicalDeviceSuitable_calls drv (m_surface (app w))
                         <$> examined drv (m_surface (app w))
                               (drv_physicalDevices drv))) as Hrun.
  { unfold exec, selectPhysicalDevice.
    rewrite bind_run. change (this w) with (Ok (app w), w). cbv beta iota.
    rewrite bind_run, call_run.
    assert ((length (drv_physicalDevices drv) =? 0)%nat = false) as ->
      by (by destruct (drv_physicalDevices drv)).
    rewrite bind_run, call_run, bind_run, selectPhysicalDevice_loop_run.
    cbn [app logged]. rewrite !logged_logged.
    by destruct (default VK_NULL_HANDLE _ =? VK_NULL_HANDLE). }
  split; [|split].
  - intros before device after Hsplit Hbefore Hdevice.
    rewrite Hrun, Hsplit, examined_first_suitable; [done| |].
    + intros d Hd. by apply isPhysicalDeviceSuitable_eval, Hbefore.
    + by apply isPhysicalDeviceSuitable_eval.
  - intros Hnone. rewrite Hrun, examined_none_suitable; [done|].
    intros d Hd. by apply isPhysicalDeviceSuitable_eval, Hnone.
  - intros device. unfold exec. by rewrite isPhysicalDeviceSuitable_run.
Qed.

Lemma selectPhysicalDevice_examines_up_to_first_suitable_witness :
  calls (exec (selectPhysicalDevice
                 (machine [501; 500; 502] [mkQueueFamily 1 1] (λ _, true)
                    [mkSurfaceFormat 50 0] VK_SUCCESS VK_SUCCESS))
           World_init)
  = [VkEnumeratePhysicalDevices 0; VkEnumeratePhysicalDevices 0]
    ++ concat (isPhysicalDeviceSuitable_calls
                 (machine [501; 500; 502] [mkQueueFamily 1 1] (λ _, true)
                    [mkSurfaceFormat 50 0] VK_SUCCESS VK_SUCCESS) 0
               <$> [501; 500]).
Proof.
  apply (proj1 (selectPhysicalDevice_examines_up_to_first_suitable
                  (machine [501; 500; 502] [mkQueueFamily 1 1] (λ _, true)
                     [mkSurfaceFormat 50 0] VK_SUCCESS VK_SUCCESS)
                  World_init ltac:(done)) [501] 500 [502]).
  - reflexivity.
  - intros d Hd. apply list_elem_of_singleton in Hd as ->. reflexivity.
  - reflexivity.
Defined.

(** ** When a whole start-up succeeds, and what it leaves *)

Lemma succeedsWhen_then m k ok next ok' next' :
  succeedsWhen m ok next → succeedsWhen k ok' next' →
  succeedsWhen (m ≫= λ _, k) (λ a, ok a && ok' (next a)) (λ a, next' (next a)).
Proof.
  intros Hm Hk w. destruct (Hm w) as [Hiff Happ].
  unfold eval, exec in *. rewrite bind_run.
  destruct (m w) as [[[]|f] w1] eqn:Hrun; simpl in *.
  - assert (ok (app w) = true) as Hok by (by apply Hiff).
    rewrite Hok. simpl. rewrite <- (Happ Hok). apply Hk.
  - destruct (ok (app w)); simpl; [discriminate (proj2 Hiff eq_refl)|].
    split; [split|]; done.
Qed.

Lemma succeedsWhen_ext m ok next ok' next' :
  succeedsWhen m ok next →
  (∀ a, ok a = true ↔ ok' a = true) →
  (∀ a, ok a = true → next a = next' a) →
  succeedsWhen m ok' next'.
Proof.
  intros Hm Hok Hnext w. destruct (Hm w) as [Hiff Happ]. split.
  - by rewrite Hiff.
  - intros H. apply Hok in H. rewrite <- Hnext by done. by apply Happ.
Qed.

(** Closes a goal of [succeedsWhen] once the run has been computed. *)
Ltac settle :=
  simpl; split; [split; intros; (done || congruence) | intros; (done || congruence)].

Lemma succeedsWhen_createInstance drv en :
  succeedsWhen (createInstance drv en)
    (λ _, (negb en
           || checkValidationLayerSupport_loop VALIDATION_LAYERS (drv_instanceLayers drv))
          && (fst (drv_vkCreateInstance drv) =? VK_SUCCESS))
    (set_m_instance (snd (drv_vkCreateInstance drv))).
Proof.
  intros w. unfold eval, exec, createInstance.
  destruct (drv_vkCreateInstance drv) as [result instance].
  destruct en; cbn [negb orb fst snd].
  - rewrite bind_run, checkValidationLayerSupport_run.
    destruct (checkValidationLayerSupport_loop _ _); [|settle].
    unfold_monad. destruct (result =? VK_SUCCESS); settle.
  - unfold_monad. destruct (result =? VK_SUCCESS); settle.
Qed.

Lemma succeedsWhen_setupDebugMessenger drv en :
  succeedsWhen (setupDebugMessenger drv en)
    (λ _, negb en
          || (drv_vkGetInstanceProcAddr drv "vkCreateDebugUtilsMessengerEXT"
              && (fst (drv_vkCreateDebugUtilsMessengerEXT drv) =? VK_SUCCESS)))
    (λ a, if en then set_m_debugMessenger (snd (drv_vkCreateDebugUtilsMessengerEXT drv)) a
          else a).
Proof.
  intros w. unfold eval, exec, setupDebugMessenger, CreateDebugUtilsMessengerEXT.
  destruct en; [|settle]. unfold_monad.
  destruct (drv_vkGetInstanceProcAddr drv _); [|settle].
  destruct (drv_vkCreateDebugUtilsMessengerEXT drv) as [result messenger]. simpl.
  destruct (result =? VK_SUCCESS); settle.
Qed.

Lemma succeedsWhen_createSurface drv :
  succeedsWhen (createSurface drv)
    (λ _, fst (drv_glfwCreateWindowSurface drv) =? VK_SUCCESS)
    (set_m_surface (snd (drv_glfwCreateWindowSurface drv))).
Proof.
  intros w. unfold eval, exec, createSurface.
  destruct (drv_glfwCreateWindowSurface drv) as [result surface]. unfold_monad.
  destruct (result =? VK_SUCCESS); settle.
Qed.

Lemma succeedsWhen_selectPhysicalDevice drv :
  succeedsWhen (selectPhysicalDevice drv)
    (λ a, negb (selectedDevice drv (m_surface a) =? VK_NULL_HANDLE))
    (λ a, set_m_physicalDevice (selectedDevice drv (m_surface a)) a).
Proof.
  intros w. unfold eval, exec, selectPhysicalDevice, selectedDevice.
  rewrite bind_run. change (this w) with (Ok (app w), w). cbv beta iota.
  rewrite bind_run, call_run.
  destruct (drv_physicalDevices drv) as [|first rest] eqn:Hdevices; [settle|].
  cbn [length Nat.eqb]. rewrite bind_run, call_run, bind_run.
  rewrite selectPhysicalDevice_loop_run. cbn [app logged].
  destruct (default VK_NULL_HANDLE _ =? VK_NULL_HANDLE); settle.
Qed.

Lemma succeedsWhen_createLogicalDevice drv en :
  succeedsWhen (createLogicalDevice drv en)
    (λ a, isComplete (fst (scanDevice drv (m_physicalDevice a) (m_surface a)))
          && (fst (drv_vkCreateDevice drv) =? VK_SUCCESS))
    (λ a, let indices := fst (scanDevice drv (m_physicalDevice a) (m_surface a)) in
          set_device_and_queues (snd (drv_vkCreateDevice drv))
            (drv_vkGetDeviceQueue drv (snd (drv_vkCreateDevice drv))
               (default 0 (graphicsFamily indices)) 0)
            (drv_vkGetDeviceQueue drv (snd (drv_vkCreateDevice drv))
               (default 0 (presentFamily indices)) 0) a).
Proof.
  intros w. unfold eval, exec.
  destruct (isComplete (fst (scanDevice drv (m_physicalDevice (app w))
                               (m_surface (app w))))) eqn:Hcomplete.
  - destruct (isComplete_Some _ Hcomplete) as (graphics & present & Hscan).
    rewrite (createLogicalDevice_run _ _ _ _ _ Hscan), Hscan.
    destruct (fst (drv_vkCreateDevice drv) =? VK_SUCCESS); settle.
  - unfold createLogicalDevice.
    rewrite bind_run. change (this w) with (Ok (app w), w). cbv beta iota.
    rewrite bind_run, findQueueFamilies_run.
    destruct (fst (scanDevice drv _ _)) as [[graphics|] [present|]]; [done|settle..].
Qed.

Lemma succeedsWhen_createSwapChain drv :
  succeedsWhen (createSwapChain drv)
    (λ a, negb (bool_decide (drv_surfaceFormats drv (m_physicalDevice a) (m_surface a) = []))
          && isComplete (fst (scanDevice drv (m_physicalDevice a) (m_surface a)))
          && (fst (drv_vkCreateSwapchainKHR drv) =? VK_SUCCESS))
    (λ a, set_swapChain (snd (drv_vkCreateSwapchainKHR drv)) (drv_swapchainImages drv)
            (from_option format 0
               (selectSwapSurfaceFormat
                  (drv_surfaceFormats drv (m_physicalDevice a) (m_surface a))))
            (chosenExtent drv
               (drv_surfaceCapabilities drv (m_physicalDevice a) (m_surface a)))
            a).
Proof.
  intros w. unfold eval, exec.
  destruct (decide (drv_surfaceFormats drv (m_physicalDevice (app w)) (m_surface (app w))
                    = [])) as [Hempty|Hformats].
  { rewrite bool_decide_eq_true_2 by done. unfold createSwapChain.
    rewrite bind_run. change (this w) with (Ok (app w), w). cbv beta iota.
    rewrite bind_run, querySwapChainSupport_run. cbn [formats].
    rewrite Hempty. settle. }
  rewrite bool_decide_eq_false_2 by done.
  destruct (selectSwapSurfaceFormat_nonempty _ Hformats) as [surfaceFormat Hformat].
  destruct (isComplete (fst (scanDevice drv (m_physicalDevice (app w))
                               (m_surface (app w))))) eqn:Hcomplete.
  - destruct (isComplete_Some _ Hcomplete) as (graphics & present & Hscan).
    rewrite (createSwapChain_run _ _ _ _ _ Hscan Hformat), Hformat.
    destruct (fst (drv_vkCreateSwapchainKHR drv) =? VK_SUCCESS); settle.
  - unfold createSwapChain.
    rewrite bind_run. change (this w) with (Ok (app w), w). cbv beta iota.
    rewrite bind_run, querySwapChainSupport_run. cbn [formats presentModes capabilities].
    rewrite Hformat, bind_run. unfold mret at 1, M_ret at 1. cbv beta iota.
    rewrite bind_run, selectSwapExtent_run. cbv beta iota.
    rewrite bind_run, findQueueFamilies_run. cbn [app logged].
    destruct (fst (scanDevice drv _ _)) as [[graphics|] [present|]]; [done|settle..].
Qed.

Lemma first_refusal (P : nat → bool) n :
  forallb P (seq 0 n) = false →
  ∃ k, (k < n)%nat ∧ (∀ i, (i < k)%nat → P i = true) ∧ P k = false.
Proof.
  induction n as [|n IH]; [done|].
  rewrite seq_S, forallb_app. simpl.
  destruct (forallb P (seq 0 n)) eqn:Hbefore; simpl.
  - rewrite andb_true_r. intros Hn. exists n. split; [lia|]. split; [|done].
    intros i Hi. rewrite forallb_forall in Hbefore. apply Hbefore, in_seq. lia.
  - intros _. destruct (IH eq_refl) as (k & Hk & Hall & Hfail).
    exists k. split; [lia|done].
Qed.

Lemma createImageViews_run_fails drv w k :
  (k < length (m_swapChainImages (app w)))%nat →
  (∀ i, (i < k)%nat → fst (drv_vkCreateImageView drv i) = VK_SUCCESS) →
  fst (drv_vkCreateImageView drv k) ≠ VK_SUCCESS →
  createImageViews drv w
  = (Fail (Thrown ImageViewCreationError),
     logged (imageView_calls drv (m_device (app w)) (m_swapChainImageFormat (app w))
               (take (S k) (m_swapChainImages (app w))) 0) w).
Proof.
  intros Hk Hbefore Hrefused.
  destruct (lookup_lt_is_Some_2 _ _ Hk) as [image Himage].
  pose proof (take_drop_middle _ _ _ Himage) as Hsplit.
  assert (length (take k (m_swapChainImages (app w))) = k) as Hlen
    by (rewrite length_take; lia).
  pose proof (createImageViews_loop_fails drv (m_device (app w))
                (m_swapChainImageFormat (app w))
                (take k (m_swapChainImages (app w))) image
                (drop (S k) (m_swapChainImages (app w))) 0%nat
                (replicate (length (m_swapChainImages (app w))) VK_NULL_HANDLE) w)
    as Hrun.
  rewrite Hsplit, Hlen in Hrun. specialize (Hrun Hbefore Hrefused).
  unfold createImageViews.
  rewrite bind_run. change (this w) with (Ok (app w), w). cbv beta iota zeta.
  by rewrite bind_run, Hrun, (take_S_r _ _ _ Himage).
Qed.

Lemma createImageViews_run_ok drv w :
  (∀ i, (i < length (m_swapChainImages (app w)))%nat →
        fst (drv_vkCreateImageView drv i) = VK_SUCCESS) →
  createImageViews drv w
  = (Ok tt,
     mkWorld (set_m_swapChainImageViews
                (viewsOf drv (length (m_swapChainImages (app w)))) (app w))
       (calls w
        ++ imageView_calls drv (m_device (app w)) (m_swapChainImageFormat (app w))
             (m_swapChainImages (app w)) 0)).
Proof.
  intros Hall. unfold createImageViews.
  rewrite bind_run. change (this w) with (Ok (app w), w). cbv beta iota zeta.
  rewrite bind_run.
  by rewrite (createImageViews_loop_run drv _ _ _ 0%nat [] w eq_refl Hall).
Qed.

Lemma succeedsWhen_createImageViews drv :
  succeedsWhen (createImageViews drv)
    (λ a, forallb (λ i, fst (drv_vkCreateImageView drv i) =? VK_SUCCESS)
            (seq 0 (length (m_swapChainImages a))))
    (λ a, set_m_swapChainImageViews (viewsOf drv (length (m_swapChainImages a))) a).
Proof.
  intros w. unfold eval, exec.
  destruct (forallb _ (seq 0 (length (m_swapChainImages (app w))))) eqn:Hall.
  - rewrite createImageViews_run_ok; [settle|].
    intros i Hi. rewrite forallb_forall in Hall.
    apply Z.eqb_eq, Hall, in_seq. lia.
  - apply first_refusal in Hall as (k & Hk & Hbefore & Hrefused).
    rewrite (createImageViews_run_fails drv w k Hk); [settle| |].
    + intros i Hi. by apply Z.eqb_eq, Hbefore.
    + by apply Z.eqb_neq.
Qed.

Lemma accepts_suitable drv surface device :
  accepts drv surface device = suitable drv surface device.
Proof. unfold accepts, eval. by rewrite isPhysicalDeviceSuitable_run. Qed.

Lemma find_accepts drv surface physicalDevices :
  List.find (accepts drv surface) physicalDevices
  = List.find (suitable drv surface) physicalDevices.
Proof.
  induction physicalDevices as [|d rest IH]; simpl; [done|].
  by rewrite accepts_suitable, IH.
Qed.

Lemma selectedDevice_vetted drv surface :
  selectedDevice drv surface ≠ VK_NULL_HANDLE →
  List.find (suitable drv surface) (drv_physicalDevices drv)
  = Some (selectedDevice drv surface)
  ∧ suitable drv surface (selectedDevice drv surface) = true.
Proof.
  unfold selectedDevice.
  destruct (List.find _ _) as [device|] eqn:Hfind; simpl; [|done].
  intros _. split; [done|]. by apply find_some in Hfind as [_ ?].
Qed.

Lemma succeedsWhen_initVulkan drv en :
  succeedsWhen (initVulkan drv en) (λ _, startupOk drv en) (startedApp drv en).
Proof.
  eapply succeedsWhen_ext.
  { unfold initVulkan.
    eapply succeedsWhen_then; [apply succeedsWhen_createInstance|].
    eapply succeedsWhen_then; [apply succeedsWhen_setupDebugMessenger|].
    eapply succeedsWhen_then; [apply succeedsWhen_createSurface|].
    eapply succeedsWhen_then; [apply succeedsWhen_selectPhysicalDevice|].
    eapply succeedsWhen_then; [apply succeedsWhen_createLogicalDevice|].
    eapply succeedsWhen_then; [apply succeedsWhen_createSwapChain|].
    apply succeedsWhen_createImageViews. }
  - intros a. unfold startupOk.
    cbn [set_m_instance set_m_surface set_m_physicalDevice set_device_and_queues
         set_swapChain m_surface m_physicalDevice m_swapChainImages].
    set (surface := snd (drv_glfwCreateWindowSurface drv)).
    destruct (Z.eqb_spec (selectedDevice drv surface) VK_NULL_HANDLE) as [Hnull|Hdevice].
    { rewrite !andb_true_iff. cbn [negb]. split; intros H; exfalso; naive_solver. }
    destruct (selectedDevice_vetted _ _ Hdevice) as [_ Hsuitable].
    apply suitable_vetted in Hsuitable as ((graphics & present & Hscan) & Hformats & _).
    rewrite Hscan, bool_decide_eq_false_2 by done. cbn [negb isComplete andb].
    rewrite !andb_true_iff. naive_solver.
  - intros a _. unfold startedApp. destruct a, en; reflexivity.
Qed.

Lemma selectedDevice_found drv surface :
  selectedDevice drv surface ≠ VK_NULL_HANDLE
  ↔ ∃ device,
      List.find (accepts drv surface) (drv_physicalDevices drv) = Some device
      ∧ device ≠ VK_NULL_HANDLE.
Proof.
  rewrite find_accepts. unfold selectedDevice.
  destruct (List.find _ _) as [device|]; simpl.
  - split; [intros ?; by exists device|by intros (? & [= <-] & ?)].
  - split; [done|by intros (? & ? & ?)].
Qed.

Lemma sameFamilies_scanDevice drv drv' device surface :
  sameFamilies drv drv' device surface →
  scanDevice drv' device surface = scanDevice drv device surface.
Proof. intros [Hfamilies Hsupport]. unfold scanDevice. rewrite Hfamilies. by apply scanFamilies_ext. Qed.

Lemma familiesFound_scan drv surface device :
  familiesFound drv surface device = isComplete (fst (scanDevice drv device surface)).
Proof. unfold familiesFound, eval. by rewrite findQueueFamilies_run. Qed.

Lemma succeedsWhen_initVulkanOver drv drvDevice drvSwapchain en :
  ∃ next,
    succeedsWhen (initVulkanOver drv drvDevice drvSwapchain en)
      (λ _, startupOkOver drv drvDevice drvSwapchain en) next.
Proof.
  eexists. eapply succeedsWhen_ext.
  { unfold initVulkanOver.
    eapply succeedsWhen_then; [apply succeedsWhen_createInstance|].
    eapply succeedsWhen_then; [apply succeedsWhen_setupDebugMessenger|].
    eapply succeedsWhen_then; [apply succeedsWhen_createSurface|].
    eapply succeedsWhen_then; [apply succeedsWhen_selectPhysicalDevice|].
    eapply succeedsWhen_then; [apply succeedsWhen_createLogicalDevice|].
    eapply succeedsWhen_then; [apply succeedsWhen_createSwapChain|].
    apply succeedsWhen_createImageViews. }
  - intros a. unfold startupOkOver.
    cbn [set_m_instance set_m_surface set_m_physicalDevice set_device_and_queues
         set_swapChain m_surface m_physicalDevice m_swapChainImages].
    rewrite !andb_true_iff. naive_solver.
  - intros a _. reflexivity.
Qed.

(** X18.  Let the driver be free to answer differently when it is asked again
    ([initVulkanOver]), and let the extent bounds it reports be ordered, as
    [std::clamp] requires.  Then [initVulkan] succeeds exactly when every
    answer it depends on is a favourable one: in a validating build the
    validation layers are available, the messenger installer resolves and
    reports [VK_SUCCESS]; the instance and the surface are created with
    [VK_SUCCESS]; some enumerated device is accepted by
    [isPhysicalDeviceSuitable], the first such device is not the null handle,
    both queue families are found for it again in [createLogicalDevice] and
    once more in [createSwapChain], and its format list is not empty when
    [createSwapChain] asks for it; the logical device and the swapchain are
    created with [VK_SUCCESS]; and so is an image view for every swapchain
    image.  The members it starts with play no part.  The conditions on the
    repeated questions hold by themselves when the driver repeats what it
    answered during selection. *)
Theorem initVulkan_succeeds_exactly_when drv drvDevice drvSwapchain en w :
  let surface := snd (drv_glfwCreateWindowSurface drv) in
  (∀ device, clampDefined (drv_surfaceCapabilities drvSwapchain device surface)) →
  initVulkanOver drv drv drv en = initVulkan drv en
  ∧ (eval (initVulkanOver drv drvDevice drvSwapchain en) w = Ok tt
     ↔ (en = true →
          layersAvailable VALIDATION_LAYERS (drv_instanceLayers drv)
          ∧ drv_vkGetInstanceProcAddr drv "vkCreateDebugUtilsMessengerEXT" = true
          ∧ fst (drv_vkCreateDebugUtilsMessengerEXT drv) = VK_SUCCESS)
       ∧ fst (drv_vkCreateInstance drv) = VK_SUCCESS
       ∧ fst (drv_glfwCreateWindowSurface drv) = VK_SUCCESS
       ∧ (∃ device,
            List.find (accepts drv surface) (drv_physicalDevices drv) = Some device
            ∧ device ≠ VK_NULL_HANDLE
            ∧ familiesFound drvDevice surface device = true
            ∧ familiesFound drvSwapchain surface device = true
            ∧ drv_surfaceFormats drvSwapchain device surface ≠ [])
       ∧ fst (drv_vkCreateDevice drvDevice) = VK_SUCCESS
       ∧ fst (drv_vkCreateSwapchainKHR drvSwapchain) = VK_SUCCESS
       ∧ (∀ i, (i < length (drv_swapchainImages drvSwapchain))%nat →
               fst (drv_vkCreateImageView drvSwapchain i) = VK_SUCCESS))
  ∧ (∀ device,
       accepts drv surface device = true →
       (sameFamilies drv drvDevice device surface →
        familiesFound drvDevice surface device = true)
       ∧ (sameFamilies drv drvSwapchain device surface →
          familiesFound drvSwapchain surface device = true)
       ∧ (drv_surfaceFormats drvSwapchain device surface
          = drv_surfaceFormats drv device surface →
          drv_surfaceFormats drvSwapchain device surface ≠ [])).
Proof.
  intros surface _. split; [done|]. split.
  - destruct (succeedsWhen_initVulkanOver drv drvDevice drvSwapchain en) as [next Hspec].
    rewrite (proj1 (Hspec w)). unfold startupOkOver. fold surface.
    rewrite <- checkValidationLayerSupport_loop_iff, <- !familiesFound_scan.
    rewrite !andb_true_iff, !negb_true_iff, !Z.eqb_eq, Z.eqb_neq, forallb_forall,
      bool_decide_eq_false.
    assert ((∀ i, In i (seq 0 (length (drv_swapchainImages drvSwapchain))) →
                  (fst (drv_vkCreateImageView drvSwapchain i) =? VK_SUCCESS) = true)
            ↔ (∀ i, (i < length (drv_swapchainImages drvSwapchain))%nat →
                    fst (drv_vkCreateImageView drvSwapchain i) = VK_SUCCESS)) as ->.
    { split; intros H i Hi.
      - apply Z.eqb_eq, H, in_seq. lia.
      - apply Z.eqb_eq, H. apply in_seq in Hi. lia. }
    assert ((selectedDevice drv surface ≠ VK_NULL_HANDLE
             ∧ familiesFound drvDevice surface (selectedDevice drv surface) = true
             ∧ familiesFound drvSwapchain surface (selectedDevice drv surface) = true
             ∧ drv_surfaceFormats drvSwapchain (selectedDevice drv surface) surface ≠ [])
            ↔ ∃ device,
                List.find (accepts drv surface) (drv_physicalDevices drv) = Some device
                ∧ device ≠ VK_NULL_HANDLE
                ∧ familiesFound drvDevice surface device = true
                ∧ familiesFound drvSwapchain surface device = true
                ∧ drv_surfaceFormats drvSwapchain device surface ≠ []) as Hdevice.
    { rewrite find_accepts. unfold selectedDevice.
      destruct (List.find _ _) as [device|]; simpl.
      - split; [intros ?; exists device; naive_solver|].
        intros (? & [= <-] & ?). done.
      - split; [naive_solver|]. by intros (? & ? & ?). }
    rewrite <- Hdevice.
    destruct en; simpl; rewrite ?andb_true_iff, ?Z.eqb_eq; naive_solver.
  - intros device Haccepted. rewrite accepts_suitable in Haccepted.
    apply suitable_vetted in Haccepted as ((graphics & present & Hscan) & Hformats & _).
    split; [|split].
    + intros Hsame. by rewrite familiesFound_scan, (sameFamilies_scanDevice _ _ _ _ Hsame), Hscan.
    + intros Hsame. by rewrite familiesFound_scan, (sameFamilies_scanDevice _ _ _ _ Hsame), Hscan.
    + by intros ->.
Qed.

Lemma initVulkan_succeeds_exactly_when_witness :
  eval (initVulkanOver
          (machine [501; 500] [mkQueueFamily 1 1; mkQueueFamily 0 1] (λ i, i =? 1)
             [mkSurfaceFormat 50 0] VK_SUCCESS VK_SUCCESS)
          (machine [] [mkQueueFamily 1 1; mkQueueFamily 0 1] (λ i, i =? 1)
             [] VK_SUCCESS VK_SUCCESS)
          (machine [] [mkQueueFamily 1 1; mkQueueFamily 0 1] (λ i, i =? 1)
             [mkSurfaceFormat 44 0] VK_SUCCESS VK_SUCCESS)
          true)
    World_init
  = Ok tt.
Proof.
  pose proof (initVulkan_succeeds_exactly_when
                (machine [501; 500] [mkQueueFamily 1 1; mkQueueFamily 0 1] (λ i, i =? 1)
                   [mkSurfaceFormat 50 0] VK_SUCCESS VK_SUCCESS)
                (machine [] [mkQueueFamily 1 1; mkQueueFamily 0 1] (λ i, i =? 1)
                   [] VK_SUCCESS VK_SUCCESS)
                (machine [] [mkQueueFamily 1 1; mkQueueFamily 0 1] (λ i, i =? 1)
                   [mkSurfaceFormat 44 0] VK_SUCCESS VK_SUCCESS)
                true World_init) as Hthm.
  cbv zeta in Hthm.
  destruct Hthm as (_ & Hiff & Hagain).
  { intros device _. simpl. lia. }
  apply Hiff.
  split; [intros _; split; [|split]; [|reflexivity|reflexivity]|].
  { apply checkValidationLayerSupport_loop_iff. reflexivity. }
  split; [reflexivity|]. split; [reflexivity|].
  split.
  { exists 500. split; [by vm_compute|]. split; [discriminate|].
    destruct (Hagain 500 ltac:(by vm_compute)) as (Hdevice & Hswapchain & _).
    split; [apply Hdevice; split; [reflexivity|intros i; reflexivity]|].
    split; [apply Hswapchain; split; [reflexivity|intros i; reflexivity]|].
    discriminate. }
  split; [reflexivity|]. split; [reflexivity|].
  intros i Hi. reflexivity.
Defined.

(** X19.  After a successful [initVulkan] every member holds what the driver
    handed out: the instance, the messenger (in a validating build; untouched
    otherwise), the surface, the first enumerated device
    [isPhysicalDeviceSuitable] accepts, the logical device with queue 0 of the
    graphics family and queue 0 of the present family that [findQueueFamilies]
    reports for that device, the swapchain with all its images, the format of
    the selected surface format, the extent [selectSwapExtent] settles on, and
    one image view per image, in creation order.  The window is the one it
    started with. *)
Theorem initVulkan_leaves_the_handles_of_the_driver drv en w w' :
  initVulkan drv en w = (Ok tt, w') →
  m_window (app w') = m_window (app w)
  ∧ m_instance (app w') = snd (drv_vkCreateInstance drv)
  ∧ m_debugMessenger (app w')
    = (if en then snd (drv_vkCreateDebugUtilsMessengerEXT drv)
       else m_debugMessenger (app w))
  ∧ m_surface (app w') = snd (drv_glfwCreateWindowSurface drv)
  ∧ List.find (accepts drv (m_surface (app w'))) (drv_physicalDevices drv)
    = Some (m_physicalDevice (app w'))
  ∧ m_device (app w') = snd (drv_vkCreateDevice drv)
  ∧ (∃ graphics present,
       eval (findQueueFamilies drv (m_physicalDevice (app w'))) w'
       = Ok {| graphicsFamily := Some graphics; presentFamily := Some present |}
       ∧ m_graphicsQueue (app w')
         = drv_vkGetDeviceQueue drv (m_device (app w')) graphics 0
       ∧ m_presentQueue (app w')
         = drv_vkGetDeviceQueue drv (m_device (app w')) present 0)
  ∧ m_swapChain (app w') = snd (drv_vkCreateSwapchainKHR drv)
  ∧ m_swapChainImages (app w') = drv_swapchainImages drv
  ∧ (∃ surfaceFormat,
       selectSwapSurfaceFormat
         (drv_surfaceFormats drv (m_physicalDevice (app w')) (m_surface (app w')))
       = Some surfaceFormat
       ∧ m_swapChainImageFormat (app w') = format surfaceFormat)
  ∧ eval (selectSwapExtent drv
            (drv_surfaceCapabilities drv (m_physicalDevice (app w'))
               (m_surface (app w')))) w'
    = Ok (m_swapChainExtent (app w'))
  ∧ m_swapChainImageViews (app w') = viewsOf drv (length (m_swapChainImages (app w')))
  ∧ length (m_swapChainImageViews (app w')) = length (m_swapChainImages (app w')).
Proof.
  intros Hrun. destruct (succeedsWhen_initVulkan drv en w) as [Hiff Happ].
  assert (startupOk drv en = true) as Hok by (apply Hiff; unfold eval; by rewrite Hrun).
  specialize (Happ Hok). unfold exec in Happ. rewrite Hrun in Happ. simpl in Happ.
  unfold eval. rewrite findQueueFamilies_run, selectSwapExtent_run, Happ.
  unfold startedApp.
  cbn [m_window m_instance m_debugMessenger m_surface m_physicalDevice m_device
       m_graphicsQueue m_presentQueue m_swapChain m_swapChainImages
       m_swapChainImageFormat m_swapChainExtent m_swapChainImageViews fst].
  set (surface := snd (drv_glfwCreateWindowSurface drv)).
  assert (selectedDevice drv surface ≠ VK_NULL_HANDLE) as Hdevice.
  { unfold startupOk in Hok. rewrite !andb_true_iff, negb_true_iff, Z.eqb_neq in Hok.
    naive_solver. }
  destruct (selectedDevice_vetted _ _ Hdevice) as [Hfind Hsuitable].
  apply suitable_vetted in Hsuitable as ((graphics & present & Hscan) & Hformats & _).
  destruct (selectSwapSurfaceFormat_nonempty _ Hformats) as [surfaceFormat Hformat].
  rewrite find_accepts, Hscan, Hformat. cbn [default from_option graphicsFamily presentFamily].
  do 6 (split; [done|]). split; [by exists graphics, present|].
  do 2 (split; [done|]). split; [by exists surfaceFormat|].
  split; [done|]. split; [done|].
  unfold viewsOf. by rewrite length_fmap, length_seq.
Qed.

Lemma initVulkan_leaves_the_handles_of_the_driver_witness :
  m_physicalDevice (app (exec (initVulkan script_ok true) (beforeInitVulkan script_ok)))
  = 500
  ∧ m_swapChainImageViews
      (app (exec (initVulkan script_ok true) (beforeInitVulkan script_ok)))
    = [1000; 1001].
Proof.
  destruct (initVulkan_leaves_the_handles_of_the_driver script_ok true
              (beforeInitVulkan script_ok)
              (exec (initVulkan script_ok true) (beforeInitVulkan script_ok)))
    as (_ & _ & _ & _ & Hdevice & _ & _ & _ & _ & _ & _ & Hviews & _).
  - vm_compute. reflexivity.
  - split; [|by rewrite Hviews].
    apply (inj Some). rewrite <- Hdevice. vm_compute. reflexivity.
Defined.

(** ** The image count against the limits of the surface *)

(** X16.  For a surface whose limits are consistent (the minimum does not
    exceed a nonzero maximum) and whose minimum leaves room for one more image
    in 32 bits, the image count the program requests lies within the limits:
    at least the minimum, at most one more than it, and at most the maximum
    when there is one.  When the minimum is [UINT32_MAX] the sum wraps and the
    program requests zero images, whatever the maximum. *)
Theorem imageCount_within_surface_limits (capabilities : VkSurfaceCapabilitiesKHR) :
  0 ≤ minImageCount capabilities ≤ UINT32_MAX →
  0 ≤ maxImageCount capabilities ≤ UINT32_MAX →
  (minImageCount capabilities < UINT32_MAX →
   maxImageCount capabilities = 0
   ∨ minImageCount capabilities ≤ maxImageCount capabilities →
   minImageCount capabilities ≤ imageCount capabilities ≤ minImageCount capabilities + 1
   ∧ (maxImageCount capabilities ≠ 0 →
      imageCount capabilities ≤ maxImageCount capabilities))
  ∧ (minImageCount capabilities = UINT32_MAX → imageCount capabilities = 0).
Proof.
  unfold imageCount, to_uint32, UINT32_MAX. intros Hmin Hmax. split.
  - intros Hroom Hlimits. rewrite Z.mod_small by lia.
    destruct (maxImageCount capabilities >? 0) eqn:H0;
      destruct (minImageCount capabilities + 1 >? maxImageCount capabilities) eqn:H1;
      simpl; lia.
  - intros ->. change ((4294967295 + 1) mod 2 ^ 32) with 0.
    destruct (maxImageCount capabilities >? 0) eqn:H0;
      destruct (0 >? maxImageCount capabilities) eqn:H1; simpl; lia.
Qed.

Lemma imageCount_within_surface_limits_witness :
  (2 ≤ imageCount (mkCapabilities 2 2 (mkExtent 0 0) (mkExtent 0 0) (mkExtent 0 0) 0) ≤ 3
   ∧ imageCount (mkCapabilities 2 2 (mkExtent 0 0) (mkExtent 0 0) (mkExtent 0 0) 0) ≤ 2)
  ∧ imageCount (mkCapabilities UINT32_MAX 8 (mkExtent 0 0) (mkExtent 0 0) (mkExtent 0 0) 0)
    = 0.
Proof.
  split.
  - destruct (proj1 (imageCount_within_surface_limits
                       (mkCapabilities 2 2 (mkExtent 0 0) (mkExtent 0 0) (mkExtent 0 0) 0)
                       ltac:(simpl; unfold UINT32_MAX; lia)
                       ltac:(simpl; unfold UINT32_MAX; lia))
                ltac:(simpl; unfold UINT32_MAX; lia) ltac:(right; simpl; lia))
      as [Hrange Hmax].
    split; [exact Hrange|]. apply Hmax. simpl. lia.
  - apply (proj2 (imageCount_within_surface_limits
                    (mkCapabilities UINT32_MAX 8 (mkExtent 0 0) (mkExtent 0 0)
                       (mkExtent 0 0) 0)
                    ltac:(simpl; unfold UINT32_MAX; lia)
                    ltac:(simpl; unfold UINT32_MAX; lia))).
    reflexivity.
Defined.

(** ** The exit status *)

Lemma InitializationError_not_a_startupError : InitializationError ∉ startupErrors.
Proof.
  unfold startupErrors. rewrite !not_elem_of_cons. repeat split; try discriminate.
  apply not_elem_of_nil.
Qed.

Lemma run_after_glfw drv en :
  drv_glfwInit drv = true →
  (eval (run drv en) World_init = Ok tt
   ↔ eval (initVulkan drv en) (beforeInitVulkan drv) = Ok tt)
  ∧ ∀ e, eval (run drv en) World_init = Fail (Thrown e) → e ∈ startupErrors.
Proof.
  intros Hglfw. destruct (run_reaches_initVulkan drv en Hglfw) as (Hrun & _).
  unfold eval. rewrite Hrun, bind_run.
  destruct (initVulkan drv en (beforeInitVulkan drv)) as [[[]|f] w3] eqn:Hinit; simpl.
  - rewrite bind_run.
    pose proof (mainLoop_returns drv w3) as Hloop. unfold eval in Hloop.
    destruct (mainLoop drv w3) as [r w4]. simpl in Hloop. subst r.
    destruct (cleanup_run drv en w4) as [Hcleanup _]. unfold eval in Hcleanup.
    rewrite Hcleanup. split; [done|]. intros e [=].
  - split; [done|]. intros e [= ->].
    destruct (throwsOnly_initVulkan drv en _ _ _ Hinit) as (e' & [= <-] & He). done.
Qed.

(** X17.  [main] returns [EXIT_FAILURE] exactly when GLFW does not initialize
    or a step of [initVulkan], started after the window has been created,
    throws; it returns [EXIT_SUCCESS] only if GLFW has initialized and
    [initVulkan] has succeeded.  The window handle is not checked, so a null
    window does not stop the run before [initVulkan].  When GLFW does not
    initialize, the program calls [glfwTerminate] and nothing else (no window
    hint, no window, no Vulkan call); and the failed GLFW initialization is the
    only way a run can end with the GLFW error. *)
Theorem main_exit_status drv en :
  (fst (main drv en) = Some EXIT_FAILURE
   ↔ drv_glfwInit drv = false
     ∨ ∃ e, eval (initVulkan drv en) (beforeInitVulkan drv) = Fail (Thrown e))
  ∧ (fst (main drv en) = Some EXIT_SUCCESS →
     drv_glfwInit drv = true
     ∧ eval (initVulkan drv en) (beforeInitVulkan drv) = Ok tt)
  ∧ (drv_glfwInit drv = true →
     beforeInitVulkan drv
     = mkWorld (set_m_window (drv_glfwCreateWindow drv) App_init)
         [GlfwInit true; GlfwWindowHint GLFW_CLIENT_API GLFW_NO_API;
          GlfwWindowHint GLFW_RESIZABLE GLFW_FALSE;
          GlfwCreateWindow WIDTH HEIGHT (drv_glfwCreateWindow drv)])
  ∧ (drv_glfwInit drv = false →
     main drv en
     = (Some EXIT_FAILURE, mkWorld App_init [GlfwInit false; GlfwTerminate]))
  ∧ (eval (run drv en) World_init = Fail (Thrown InitializationError)
     ↔ drv_glfwInit drv = false).
Proof.
  assert (drv_glfwInit drv = false →
          run drv en World_init
          = (Fail (Thrown InitializationError),
             mkWorld App_init [GlfwInit false; GlfwTerminate])) as Hfailed.
  { intros Hglfw. unfold run, createGLFWLibrary. by rewrite Hglfw. }
  assert (drv_glfwInit drv = true →
          ∀ f, eval (run drv en) World_init = Fail f
               ↔ eval (initVulkan drv en) (beforeInitVulkan drv) = Fail f) as Hthrown.
  { intros Hglfw f. destruct (run_reaches_initVulkan drv en Hglfw) as (Hrun & _).
    unfold eval. rewrite Hrun, bind_run.
    destruct (initVulkan drv en (beforeInitVulkan drv)) as [[[]|f'] w3]; simpl; [|done].
    rewrite bind_run.
    pose proof (mainLoop_returns drv w3) as Hloop. unfold eval in Hloop.
    destruct (mainLoop drv w3) as [r w4]. simpl in Hloop. subst r.
    destruct (cleanup_run drv en w4) as [Hcleanup _]. unfold eval in Hcleanup.
    by rewrite Hcleanup. }
  split; [|split; [|split; [|split]]].
  - unfold main. destruct (drv_glfwInit drv) eqn:Hglfw.
    + specialize (Hthrown eq_refl). unfold eval in Hthrown.
      destruct (run drv en World_init) as [[[]|[e|what]] w] eqn:Hrun; simpl.
      * split; [done|]. intros [[=]|[e He]].
        by apply (Hthrown (Thrown e)) in He.
      * split; [|done]. intros _. right. exists e. by apply (Hthrown (Thrown e)).
      * split; [done|]. intros [[=]|[e He]].
        by apply (Hthrown (Thrown e)) in He.
    + rewrite Hfailed by done. simpl. split; [by left|done].
  - unfold main. destruct (drv_glfwInit drv) eqn:Hglfw.
    + destruct (run_after_glfw drv en Hglfw) as [Hiff _]. rewrite <- Hiff.
      unfold eval. by destruct (run drv en World_init) as [[[]|[e|what]] w].
    + by rewrite Hfailed.
  - intros Hglfw. unfold beforeInitVulkan, exec, createGLFWLibrary, createWindow.
    by rewrite Hglfw.
  - intros Hglfw. unfold main. by rewrite Hfailed.
  - destruct (drv_glfwInit drv) eqn:Hglfw.
    + destruct (run_after_glfw drv en Hglfw) as [_ Hstartup].
      split; [|done]. intros Hrun. apply Hstartup in Hrun.
      by apply InitializationError_not_a_startupError in Hrun.
    + unfold eval. by rewrite Hfailed.
Qed.

(** ** Which failures a start-up can end in *)

Lemma createSurface_Ok_surface drv w w' :
  createSurface drv w = (Ok tt, w') →
  app w' = set_m_surface (snd (drv_glfwCreateWindowSurface drv)) (app w).
Proof.
  intros H. destruct (succeedsWhen_createSurface drv w) as [Hiff Happ].
  unfold eval, exec in *. rewrite H in *. simpl in *. by apply Happ, Hiff.
Qed.

(** X7.  Let the driver be free to answer differently when it is asked again
    ([initVulkanOver]).  Suppose that for every device [isPhysicalDeviceSuitable]
    accepts, the driver reports again, in [createLogicalDevice] and in
    [createSwapChain], the queue families and the present support it reported
    during selection, and in [createSwapChain] the surface formats it reported
    then, with extent bounds that are ordered as [std::clamp] requires.  Then a
    start-up that fails ends with one of the program's own [runtime_error]s,
    the error of the first failing step: it does not throw
    [bad_optional_access] and does not read an empty format list, because the
    device [selectPhysicalDevice] stores has both queue families and a
    non-empty format list. *)
Theorem initVulkan_fails_only_with_its_own_errors drv drvDevice drvSwapchain en w f w' :
  let surface := snd (drv_glfwCreateWindowSurface drv) in
  (∀ device,
     accepts drv surface device = true →
     sameFamilies drv drvDevice device surface
     ∧ sameFamilies drv drvSwapchain device surface
     ∧ drv_surfaceFormats drvSwapchain device surface
       = drv_surfaceFormats drv device surface
     ∧ clampDefined (drv_surfaceCapabilities drvSwapchain device surface)) →
  initVulkanOver drv drvDevice drvSwapchain en w = (Fail f, w') →
  ∃ e, f = Thrown e ∧ e ∈ startupErrors.
Proof.
  intros surface Hagain H. unfold initVulkanOver in H.
  apply bind_Fail_inv in H as [H|([] & w1 & H1 & H)];
    [by eapply throwsOnly_createInstance|].
  apply bind_Fail_inv in H as [H|([] & w2 & H2 & H)];
    [by eapply throwsOnly_setupDebugMessenger|].
  apply bind_Fail_inv in H as [H|([] & w3 & H3 & H)];
    [by eapply throwsOnly_createSurface|].
  apply createSurface_Ok_surface in H3.
  apply bind_Fail_inv in H as [H|([] & w4 & H4 & H)];
    [by eapply throwsOnly_selectPhysicalDevice|].
  apply selectPhysicalDevice_Ok_suitable in H4 as (physical & Ha4 & Hfind & _).
  apply find_some in Hfind as [_ Hsuitable].
  assert (m_surface (app w3) = surface) as Hs3 by (by rewrite H3).
  rewrite Hs3 in Hsuitable.
  destruct (Hagain physical) as (HsameDevice & HsameSwapchain & HsameFormats & _);
    [by rewrite accepts_suitable|].
  apply suitable_vetted in Hsuitable as ((graphics & present & Hscan) & Hformats & _).
  assert (m_physicalDevice (app w4) = physical ∧ m_surface (app w4) = surface)
    as [Hp4 Hs4] by (by rewrite Ha4).
  apply bind_Fail_inv in H as [H|([] & w5 & H5 & H)].
  { destruct (createLogicalDevice_complete drvDevice en w4 graphics present)
      as [Hok|Hfail];
      [by rewrite Hp4, Hs4, (sameFamilies_scanDevice _ _ _ _ HsameDevice)| |];
      unfold eval in *; rewrite H in *; simpl in *; [done|].
    injection Hfail as ->. eexists. split; [done|].
    unfold startupErrors. repeat first [left | right]. }
  apply createLogicalDevice_Ok in H5 as (device & gq & pq & Ha5 & _).
  assert (m_physicalDevice (app w5) = physical ∧ m_surface (app w5) = surface)
    as [Hp5 Hs5] by (by rewrite Ha5).
  apply bind_Fail_inv in H as [H|([] & w6 & H6 & H)];
    [|by eapply throwsOnly_createImageViews].
  destruct (createSwapChain_vetted drvSwapchain w5 graphics present) as [Hok|Hfail];
    [by rewrite Hp5, Hs5, (sameFamilies_scanDevice _ _ _ _ HsameSwapchain)
    |by rewrite Hp5, Hs5, HsameFormats| |];
    unfold eval in *; rewrite H in *; simpl in *; [done|].
  injection Hfail as ->. eexists. split; [done|].
  unfold startupErrors. repeat first [left | right].
Qed.

Lemma initVulkan_fails_only_with_its_own_errors_witness :
  ∃ e,
    eval (initVulkanOver
            (machine [501; 500] [mkQueueFamily 1 1; mkQueueFamily 0 1] (λ i, i =? 1)
               [mkSurfaceFormat 50 0] VK_SUCCESS VK_SUCCESS)
            (machine [] [mkQueueFamily 1 1; mkQueueFamily 0 1] (λ i, i =? 1)
               [] VK_SUCCESS VK_SUCCESS)
            (machine [] [mkQueueFamily 1 1; mkQueueFamily 0 1] (λ i, i =? 1)
               [mkSurfaceFormat 50 0] VK_SUCCESS VK_ERROR_INITIALIZATION_FAILED)
            true)
      World_init
    = Fail (Thrown e)
    ∧ e ∈ startupErrors.
Proof.
  destruct (initVulkan_fails_only_with_its_own_errors
              (machine [501; 500] [mkQueueFamily 1 1; mkQueueFamily 0 1] (λ i, i =? 1)
                 [mkSurfaceFormat 50 0] VK_SUCCESS VK_SUCCESS)
              (machine [] [mkQueueFamily 1 1; mkQueueFamily 0 1] (λ i, i =? 1)
                 [] VK_SUCCESS VK_SUCCESS)
              (machine [] [mkQueueFamily 1 1; mkQueueFamily 0 1] (λ i, i =? 1)
                 [mkSurfaceFormat 50 0] VK_SUCCESS VK_ERROR_INITIALIZATION_FAILED)
              true World_init (Thrown SwapchainCreationError)
              (exec (initVulkanOver
                       (machine [501; 500] [mkQueueFamily 1 1; mkQueueFamily 0 1]
                          (λ i, i =? 1) [mkSurfaceFormat 50 0] VK_SUCCESS VK_SUCCESS)
                       (machine [] [mkQueueFamily 1 1; mkQueueFamily 0 1] (λ i, i =? 1)
                          [] VK_SUCCESS VK_SUCCESS)
                       (machine [] [mkQueueFamily 1 1; mkQueueFamily 0 1] (λ i, i =? 1)
                          [mkSurfaceFormat 50 0] VK_SUCCESS
                          VK_ERROR_INITIALIZATION_FAILED)
                       true)
                 World_init))
    as (e & He & Hown).
  - intros device _. split; [split; [reflexivity|intros i; reflexivity]|].
    split; [split; [reflexivity|intros i; reflexivity]|].
    split; [reflexivity|]. intros _. simpl. lia.
  - vm_compute. reflexivity.
  - exists e. split; [|exact Hown]. rewrite <- He. vm_compute. reflexivity.
Defined.
